(** * Salati: prayer-time and Qibla computations

    A shallow embedding of the computational core of the Salati
    application (the prayer-time service and the Qibla compass) and the
    properties its specification states about it.

    Numbers.  A JavaScript [number] that carries a measurement (an angle,
    an hour of the day, a Julian date) is modelled as a mathematical real
    [R], and [Math.sin], [Math.cos], [Math.asin], [Math.acos],
    [Math.atan] as the real functions of the same name: rounding error of
    IEEE-754 doubles, NaN and signed zeros are outside the model.  A
    [number] that the code produces with [Math.floor] or [Math.round] and
    then uses as an integer (hour, minute, minutes since midnight) is
    modelled as [Z], so that formatting, parsing and the next/passed
    flags are executable. *)

From Stdlib Require Import Reals Lra Lia ZArith List String Ascii Bool.
From Stdlib Require Import DecimalString.
From Equations Require Import Equations.
Import ListNotations.

Local Open Scope R_scope.

(** ** JavaScript [Math] and [%] on reals *)

Module JS.

(** [Math.floor]. *)
Definition Math_floor (x : R) : R := IZR (Zfloor x).

(** Truncation toward zero, the integer quotient used by [%]. *)
Definition trunc (x : R) : Z :=
  if Rle_dec 0 x then Zfloor x else Zceil x.

(** [a % b]: the remainder has the sign of the dividend. *)
Definition rem (a b : R) : R := a - b * IZR (trunc (a / b)).

(** [Math.abs]. *)
Definition Math_abs (x : R) : R := Rabs x.

(** [Math.atan2 (y, x)] by the quadrant of the point [(x, y)];
    [atan2 (0, 0)] is [0], as for [+0] arguments in ECMAScript. *)
Definition Math_atan2 (y x : R) : R :=
  if Rlt_dec 0 x then atan (y / x)
  else if Rlt_dec x 0 then
    (if Rle_dec 0 y then atan (y / x) + PI else atan (y / x) - PI)
  else if Rlt_dec 0 y then PI / 2
  else if Rlt_dec y 0 then - (PI / 2)
  else 0.

End JS.

Import JS.

(** ** Dates

    The fields a JavaScript [Date] exposes through its local-time getters:
    [getFullYear], [getMonth] (0 for January), [getDate], [getHours],
    [getMinutes], [getSeconds], and [getTimezoneOffset] (minutes, positive
    west of UTC). *)

Record Date : Type := mkDate {
  getFullYear : Z;
  getMonth : Z;
  getDate : Z;
  getHours : Z;
  getMinutes : Z;
  getSeconds : Z;
  getTimezoneOffset : Z
}.

(** ** Solar position *)

Module Solar.

(** [getJulianDate]. *)
Definition getJulianDate (date : Date) : R :=
  let year := IZR (getFullYear date) in
  let month := IZR (getMonth date) + 1 in
  let day := IZR (getDate date) in
  let a := Math_floor ((14 - month) / 12) in
  let y := year - a in
  let m := month + 12 * a - 3 in
  let jdn := day + Math_floor ((153 * m + 2) / 5) + 365 * y
             + Math_floor (y / 4) - Math_floor (y / 100)
             + Math_floor (y / 400) + 1721119 in
  let hours := IZR (getHours date) in
  let minutes := IZR (getMinutes date) in
  let seconds := IZR (getSeconds date) in
  let timeFraction := (hours + minutes / 60 + seconds / 3600) / 24 in
  jdn + timeFraction - 0.5.

(** [getSolarDeclination] (degrees). *)
Definition getSolarDeclination (julianDate : R) : R :=
  let n := julianDate - 2451545.0 in
  let L := rem (280.460 + 0.9856474 * n) 360 in
  let g := rem (357.528 + 0.9856003 * n) 360 in
  let lambda :=
    L + 1.915 * sin (g * PI / 180) + 0.020 * sin (2 * g * PI / 180) in
  asin (sin (23.439 * PI / 180) * sin (lambda * PI / 180)) * 180 / PI.

(** [getEquationOfTime] (minutes). *)
Definition getEquationOfTime (julianDate : R) : R :=
  let n := julianDate - 2451545.0 in
  let L := rem (280.460 + 0.9856474 * n) 360 in
  let g := rem (357.528 + 0.9856003 * n) 360 in
  let lambda :=
    L + 1.915 * sin (g * PI / 180) + 0.020 * sin (2 * g * PI / 180) in
  let alpha :=
    Math_atan2 (cos (23.439 * PI / 180) * sin (lambda * PI / 180))
               (cos (lambda * PI / 180)) * 180 / PI in
  4 * (L - alpha).

(** [getSolarNoon] (local hours). *)
Definition getSolarNoon (longitude equationOfTime timezoneOffset : R) : R :=
  12 - longitude / 15 - equationOfTime / 60 + timezoneOffset.

(** [calculatePrayerTime]. *)
Definition calculatePrayerTime
    (lat lng declination equationOfTime angle : R) (isSunrise : bool)
    (timezoneOffset : R) : R :=
  let latRad := lat * PI / 180 in
  let decRad := declination * PI / 180 in
  let angleRad := angle * PI / 180 in
  let cosHourAngle :=
    (sin angleRad - sin latRad * sin decRad) / (cos latRad * cos decRad) in
  if Rlt_dec 1 (Math_abs cosHourAngle) then
    if isSunrise then 6 + timezoneOffset else 18 + timezoneOffset
  else
    let hourAngle := acos cosHourAngle * 180 / PI / 15 in
    let solarNoon := getSolarNoon lng equationOfTime timezoneOffset in
    if isSunrise then solarNoon - hourAngle else solarNoon + hourAngle.

(** [getAsrTime], with the source's [shadowFactor = 1]. *)
Definition getAsrTime
    (lat lng declination equationOfTime timezoneOffset : R) : R :=
  let latRad := lat * PI / 180 in
  let decRad := declination * PI / 180 in
  let shadowFactor := 1 in
  let noonElevation :=
    asin (sin latRad * sin decRad + cos latRad * cos decRad) in
  let asrElevation :=
    atan (1 / (shadowFactor + tan (PI / 2 - noonElevation))) in
  let cosHourAngle :=
    (sin asrElevation - sin latRad * sin decRad)
    / (cos latRad * cos decRad) in
  if Rlt_dec 1 (Math_abs cosHourAngle) then 15 + timezoneOffset
  else
    let hourAngle := acos cosHourAngle * 180 / PI / 15 in
    let solarNoon := getSolarNoon lng equationOfTime timezoneOffset in
    solarNoon + hourAngle.

(** *** Names for the intermediate quantities

    The mean longitude [L], the ecliptic longitude [lambda], the quotient
    tested against the domain of [Math.acos], and the hour angle in
    hours, as the functions above compute them. *)

Definition meanLongitude (julianDate : R) : R :=
  rem (280.460 + 0.9856474 * (julianDate - 2451545.0)) 360.

Definition meanAnomaly (julianDate : R) : R :=
  rem (357.528 + 0.9856003 * (julianDate - 2451545.0)) 360.

Definition eclipticLongitude (julianDate : R) : R :=
  meanLongitude julianDate
  + 1.915 * sin (meanAnomaly julianDate * PI / 180)
  + 0.020 * sin (2 * meanAnomaly julianDate * PI / 180).

Definition cosHourAngle (lat declination angle : R) : R :=
  (sin (angle * PI / 180)
   - sin (lat * PI / 180) * sin (declination * PI / 180))
  / (cos (lat * PI / 180) * cos (declination * PI / 180)).

Definition hourAngle (lat declination angle : R) : R :=
  acos (cosHourAngle lat declination angle) * 180 / PI / 15.

(** The elevation of the sun at Asr and the quotient [getAsrTime] tests. *)
Definition asrElevation (lat declination : R) : R :=
  atan (1 / (1 + tan (PI / 2
                      - asin (sin (lat * PI / 180) * sin (declination * PI / 180)
                              + cos (lat * PI / 180)
                                * cos (declination * PI / 180))))).

Definition asrCosHourAngle (lat declination : R) : R :=
  (sin (asrElevation lat declination)
   - sin (lat * PI / 180) * sin (declination * PI / 180))
  / (cos (lat * PI / 180) * cos (declination * PI / 180)).

(** ** Hour and minute of a time of day *)

Module HM.
Record t : Type := mk { hour : Z; minute : Z }.
End HM.

(** [while (time < 0) time += 24]. *)
Equations? whileNegative (time : R) : R
  by wf (Z.to_nat (Zceil (- time / 24))) lt :=
  whileNegative time with Rlt_dec time 0 => {
    | left _ := whileNegative (time + 24);
    | right _ := time }.
Proof.
  replace (- (time + 24) / 24) with (- time / 24 + IZR (-1)) by (simpl; lra).
  rewrite Zceil_addz.
  assert (0 < Zceil (- time / 24))%Z; [|lia].
  apply lt_IZR. pose proof (Zceil_bound (- time / 24)). lra.
Qed.

(** [while (time >= 24) time -= 24]. *)
Equations? whileAtLeast24 (time : R) : R
  by wf (Z.to_nat (Zfloor (time / 24))) lt :=
  whileAtLeast24 time with Rge_dec time 24 => {
    | left _ := whileAtLeast24 (time - 24);
    | right _ := time }.
Proof.
  replace ((time - 24) / 24) with (time / 24 + IZR (-1)) by (simpl; lra).
  rewrite Zfloor_addz.
  assert (1 <= Zfloor (time / 24))%Z; [|lia].
  apply Zfloor_lub. lra.
Qed.

(** [Math.round] of a real, as an integer: the nearest integer, halves
    rounded up. *)
Definition Math_round (x : R) : Z := Zfloor (x + 1 / 2).

(** [timeToHourMinute]. *)
Definition timeToHourMinute (time : R) : HM.t :=
  let time := whileNegative time in
  let time := whileAtLeast24 time in
  let hour := Zfloor time in
  let minute := Math_round ((time - IZR hour) * 60) in
  if (minute >=? 60)%Z then HM.mk ((hour + 1) mod 24) 0
  else HM.mk hour (Z.max 0 (Z.min 59 minute)).

(** ** The six moments of a day *)

Module Entry.
(** An element of the array [getIslamicPrayerTimes] returns. *)
Record t : Type := mk { id : string; name : string; hour : Z; minute : Z }.
End Entry.

(** The six local times [getIslamicPrayerTimes] computes, in hours, before
    [timeToHourMinute] normalises them. *)
Record Moments : Type := mkMoments {
  fajrTime : R;
  sunriseTime : R;
  dhuhrTime : R;
  asrTime : R;
  maghribTime : R;
  ishaTime : R
}.

Definition fajrAngle : R := -18.
Definition ishaAngle : R := -17.
Definition maghribAngle : R := -0.833.

(** [-date.getTimezoneOffset() / 60]. *)
Definition timezoneOffsetOf (date : Date) : R :=
  - IZR (getTimezoneOffset date) / 60.

(** The body of [getIslamicPrayerTimes] up to its [return]. *)
Definition moments (lat lng : R) (date : Date) : Moments :=
  let timezoneOffset := timezoneOffsetOf date in
  let julianDate := getJulianDate date in
  let declination := getSolarDeclination julianDate in
  let equationOfTime := getEquationOfTime julianDate in
  {| fajrTime :=
       calculatePrayerTime lat lng declination equationOfTime fajrAngle
                           false timezoneOffset;
     sunriseTime :=
       calculatePrayerTime lat lng declination equationOfTime maghribAngle
                           true timezoneOffset;
     dhuhrTime := getSolarNoon lng equationOfTime timezoneOffset;
     asrTime := getAsrTime lat lng declination equationOfTime timezoneOffset;
     maghribTime :=
       calculatePrayerTime lat lng declination equationOfTime maghribAngle
                           false timezoneOffset;
     ishaTime :=
       calculatePrayerTime lat lng declination equationOfTime ishaAngle
                           false timezoneOffset |}.

(** [{ id, name, ...timeToHourMinute(time) }]. *)
Definition entry (id name : string) (time : R) : Entry.t :=
  let hm := timeToHourMinute time in
  Entry.mk id name (HM.hour hm) (HM.minute hm).

(** [getIslamicPrayerTimes]. *)
Definition getIslamicPrayerTimes (lat lng : R) (date : Date) : list Entry.t :=
  let t := moments lat lng date in
  [ entry "fajr" "Fajr" (fajrTime t);
    entry "sunrise" "Sunrise" (sunriseTime t);
    entry "dhuhr" "Dhuhr" (dhuhrTime t);
    entry "asr" "Asr" (asrTime t);
    entry "maghrib" "Maghrib" (maghribTime t);
    entry "isha" "Isha" (ishaTime t) ].

End Solar.

(** ** Strings of the JavaScript runtime *)

Module JSString.

Local Open Scope string_scope.

(** [Number.prototype.toString] on an integer. *)
Definition toString (n : Z) : string :=
  DecimalString.NilZero.string_of_int (Z.to_int n).

Fixpoint replicate (n : nat) (c : ascii) : string :=
  match n with
  | O => EmptyString
  | S k => String c (replicate k c)
  end.

(** [s.padStart (targetLength, c)] for a one-character pad. *)
Definition padStart (targetLength : nat) (c : ascii) (s : string) : string :=
  replicate (targetLength - String.length s) c ++ s.

(** The class [\d]. *)
Definition isDigit (c : ascii) : bool :=
  let n := nat_of_ascii c in (48 <=? n)%nat && (n <=? 57)%nat.

(** The class [\s], on one-byte characters. *)
Definition isSpace (c : ascii) : bool :=
  let n := nat_of_ascii c in
  ((9 <=? n)%nat && (n <=? 13)%nat) || (n =? 32)%nat.

Definition digitValue (c : ascii) : Z := Z.of_nat (nat_of_ascii c) - 48.

(** [parseInt (s, 10)] on a string of digits. *)
Fixpoint parseDigits (acc : Z) (s : string) : Z :=
  match s with
  | EmptyString => acc
  | String c rest => parseDigits (10 * acc + digitValue c)%Z rest
  end.

Definition parseInt (s : string) : Z := parseDigits 0 s.

(** [toUpperCase] on one-byte characters. *)
Definition upper (c : ascii) : ascii :=
  let n := nat_of_ascii c in
  if (97 <=? n)%nat && (n <=? 122)%nat then ascii_of_nat (n - 32) else c.

Fixpoint toUpperCase (s : string) : string :=
  match s with
  | EmptyString => EmptyString
  | String c rest => String (upper c) (toUpperCase rest)
  end.

Fixpoint skipSpaces (s : string) : string :=
  match s with
  | String c rest => if isSpace c then skipSpaces rest else s
  | EmptyString => EmptyString
  end.

(** The tail [(\d{2})\s*(AM|PM)$] of the time pattern, case-insensitive. *)
Definition matchMinutesPeriod (s : string) : option (string * string) :=
  match s with
  | String m1 (String m2 rest) =>
      if isDigit m1 && isDigit m2 then
        match skipSpaces rest with
        | String a (String b EmptyString) =>
            let period := String a (String b EmptyString) in
            if (toUpperCase period =? "AM") || (toUpperCase period =? "PM")
            then Some (String m1 (String m2 EmptyString), period)
            else None
        | _ => None
        end
      else None
  | _ => None
  end.

(** [s.match (/^(\d{1,2}):(\d{2})\s*(AM|PM)$/i)]: the three groups. The
    greedy [\d{1,2}] is tried with two digits first, then with one. *)
Definition matchTime (s : string) : option (string * string * string) :=
  match s with
  | String h1 (String h2 (String ":" rest)) =>
      if isDigit h1 && isDigit h2 then
        match matchMinutesPeriod rest with
        | Some (mm, period) => Some (String h1 (String h2 EmptyString), mm, period)
        | None => None
        end
      else None
  | String h1 (String ":" rest) =>
      if isDigit h1 then
        match matchMinutesPeriod rest with
        | Some (mm, period) => Some (String h1 EmptyString, mm, period)
        | None => None
        end
      else None
  | _ => None
  end.

End JSString.

(** ** The prayer-time service *)

Module PrayerTimes.

Import JSString.
Local Open Scope string_scope.
Local Open Scope Z_scope.

Record PrayerTime : Type := mkPrayerTime {
  id : string;
  name : string;
  time : string;
  isNext : bool;
  isPassed : bool
}.

Record LocationData : Type := mkLocationData {
  latitude : R;
  longitude : R;
  city : option string;
  country : option string;
  timezone : option string
}.

(** [Array.prototype.findIndex]: the first index whose element satisfies
    [f], or [-1]. *)
Fixpoint findIndexFrom {A : Type} (f : A -> bool) (i : Z) (l : list A) : Z :=
  match l with
  | [] => -1
  | x :: rest => if f x then i else findIndexFrom f (i + 1) rest
  end.

Definition findIndex {A : Type} (f : A -> bool) (l : list A) : Z :=
  findIndexFrom f 0 l.

(** [Array.prototype.map] with the callback's index argument. *)
Fixpoint mapFrom {A B : Type} (f : A -> Z -> B) (i : Z) (l : list A) : list B :=
  match l with
  | [] => []
  | x :: rest => f x i :: mapFrom f (i + 1) rest
  end.

Definition mapIndexed {A B : Type} (f : A -> Z -> B) (l : list A) : list B :=
  mapFrom f 0 l.

(** The 12-hour rendering both [calculatePrayerTimes] and
    [getMockPrayerTimes] build: [`${hour12}:${minute} ${ampm}`]. *)
Definition formatTime (hour minute : Z) : string :=
  let hour12 :=
    if hour =? 0 then 12 else if hour >? 12 then hour - 12 else hour in
  let ampm := if hour >=? 12 then "PM" else "AM" in
  (toString hour12 ++ ":" ++ padStart 2 "0" (toString minute)
   ++ " " ++ ampm)%string.

(** The body shared by [calculatePrayerTimes] and [getMockPrayerTimes]
    once [times] and [now] are known. *)
Definition annotate (now : Date) (times : list Solar.Entry.t)
  : list PrayerTime :=
  let currentMinutes := getHours now * 60 + getMinutes now in
  let prayerMinutes :=
    map (fun prayer => Solar.Entry.hour prayer * 60 + Solar.Entry.minute prayer)
        times in
  let nextPrayerIndex :=
    findIndex (fun time => time >? currentMinutes) prayerMinutes in
  let nextPrayerIndex :=
    if nextPrayerIndex =? -1 then 0 else nextPrayerIndex in
  mapIndexed
    (fun prayer index =>
       let prayerTimeMinutes :=
         Solar.Entry.hour prayer * 60 + Solar.Entry.minute prayer in
       let isPassed := prayerTimeMinutes <=? currentMinutes in
       let formattedTime :=
         formatTime (Solar.Entry.hour prayer) (Solar.Entry.minute prayer) in
       {| id := Solar.Entry.id prayer;
          name := Solar.Entry.name prayer;
          time := formattedTime;
          isNext := index =? nextPrayerIndex;
          isPassed := isPassed |})
    times.

(** [calculatePrayerTimes]; [now] is the reading of the system clock that
    [new Date()] takes inside the function. *)
Definition calculatePrayerTimes (now : Date) (latitude longitude : R)
    (date : Date) : list PrayerTime :=
  let times := Solar.getIslamicPrayerTimes latitude longitude date in
  annotate now times.

Definition mockPrayers : list Solar.Entry.t :=
  [ Solar.Entry.mk "fajr" "Fajr" 5 30;
    Solar.Entry.mk "sunrise" "Sunrise" 6 55;
    Solar.Entry.mk "dhuhr" "Dhuhr" 12 25;
    Solar.Entry.mk "asr" "Asr" 15 40;
    Solar.Entry.mk "maghrib" "Maghrib" 18 15;
    Solar.Entry.mk "isha" "Isha" 19 35 ].

(** [getMockPrayerTimes]. *)
Definition getMockPrayerTimes (now : Date) : list PrayerTime :=
  annotate now mockPrayers.

(** *** Promises and the platform *)

(** How an awaited promise settles. *)
Inductive outcome (A : Type) : Type :=
| Resolved (a : A)
| Rejected (error : string).

Arguments Resolved {A} a.
Arguments Rejected {A} error.

Definition bind {A B : Type} (m : outcome A) (k : A -> outcome B)
  : outcome B :=
  match m with
  | Resolved a => k a
  | Rejected e => Rejected e
  end.

Notation "x <- m ;; k" := (bind m (fun x => k))
  (at level 61, m at next level, right associativity).

(** [try { body } catch (error) { handler }]. *)
Definition tryCatch {A : Type} (body : outcome A) (handler : string -> outcome A)
  : outcome A :=
  match body with
  | Resolved a => Resolved a
  | Rejected e => handler e
  end.

(** What the device answers during one call: the permission status, the
    position fix (latitude, longitude), and the clock. *)
Record Platform : Type := mkPlatform {
  requestForegroundPermissionsAsync : outcome string;
  getCurrentPositionAsync : outcome (R * R);
  clock : Date
}.

(** The [try] block of [getPrayerTimes]. *)
Definition getPrayerTimes_try (env : Platform) (location : option LocationData)
    (date : Date) : outcome (list PrayerTime) :=
  location <-
    match location with
    | Some l => Resolved l
    | None =>
        status <- requestForegroundPermissionsAsync env ;;
        if negb (status =? "granted")%string
        then Rejected "Location permission denied"
        else
          currentLocation <- getCurrentPositionAsync env ;;
          Resolved {| latitude := fst currentLocation;
                      longitude := snd currentLocation;
                      city := None; country := None; timezone := None |}
    end ;;
  Resolved (calculatePrayerTimes (clock env) (latitude location)
                                 (longitude location) date).

(** [getPrayerTimes]: the [try] block, and the [catch] clause that
    answers with the mock times. *)
Definition getPrayerTimes (env : Platform) (location : option LocationData)
    (date : Date) : outcome (list PrayerTime) :=
  tryCatch (getPrayerTimes_try env location date)
           (fun error => Resolved (getMockPrayerTimes (clock env))).

(** The parsing of a displayed time in [getTimeUntilNextPrayer] and
    [getCurrentPrayerStatus]: the pattern match, [parseInt] of the two
    numeric groups, and the conversion to the 24-hour clock.  [None] when
    the pattern does not match. *)
Definition parseTime (s : string) : option (Z * Z) :=
  match matchTime s with
  | None => None
  | Some (g1, g2, g3) =>
      let hours := parseInt g1 in
      let minutes := parseInt g2 in
      let period := toUpperCase g3 in
      let hours :=
        if (period =? "PM")%string && negb (hours =? 12) then hours + 12
        else if (period =? "AM")%string && (hours =? 12) then 0
        else hours in
      Some (hours, minutes)
  end.

End PrayerTimes.

(** ** The Qibla compass *)

Module Qibla.

Record Coordinate : Type := mkCoordinate { latitude : R; longitude : R }.

Definition KAABA_LOCATION : Coordinate :=
  {| latitude := 21.4225; longitude := 39.8262 |}.

(** [calculateQiblaDirection]. *)
Definition calculateQiblaDirection (userLat userLon : R) : R :=
  let lat1 := userLat * (PI / 180) in
  let lon1 := userLon * (PI / 180) in
  let lat2 := latitude KAABA_LOCATION * (PI / 180) in
  let lon2 := longitude KAABA_LOCATION * (PI / 180) in
  let dLon := lon2 - lon1 in
  let y := sin dLon * cos lat2 in
  let x := cos lat1 * sin lat2 - sin lat1 * cos lat2 * cos dLon in
  let bearing := Math_atan2 y x * (180 / PI) in
  let bearing := rem (bearing + 360) 360 in
  bearing.

End Qibla.

(** ** Vocabulary of the specification *)

Module Spec.

Local Open Scope Z_scope.

(** Minutes since midnight of an entry and of the clock. *)
Definition prayerMinutes (e : Solar.Entry.t) : Z :=
  Solar.Entry.hour e * 60 + Solar.Entry.minute e.

Definition nowMinutes (now : Date) : Z := getHours now * 60 + getMinutes now.

(** Every entry of [times] has passed at [now]. *)
Definition allPassed (now : Date) (times : list Solar.Entry.t) : Prop :=
  forall e, In e times -> prayerMinutes e <= nowMinutes now.

(** [k] is the position of the first entry of [times] that is strictly
    later than [now]. *)
Definition firstUpcoming (now : Date) (times : list Solar.Entry.t) (k : nat)
  : Prop :=
  (exists e, nth_error times k = Some e /\ nowMinutes now < prayerMinutes e)
  /\ forall j e, (j < k)%nat -> nth_error times j = Some e ->
                 prayerMinutes e <= nowMinutes now.

(** The Julian date as the specification writes it, with the
    mathematical floor of each exact quotient ([Z.div] rounds down);
    [month] counts from 1. *)
Definition julianDate (year month day hour minute second : Z) : R :=
  let a := (14 - month) / 12 in
  let y := year - a in
  let m := month + 12 * a - 3 in
  (IZR (day + (153 * m + 2) / 5 + 365 * y + y / 4 - y / 100 + y / 400
        + 1721119)
   + (IZR hour + IZR minute / 60 + IZR second / 3600) / 24 - 0.5)%R.

(** No event of the day takes a fallback branch: the hour-angle equation
    has a solution for Fajr, for Sunrise and Maghrib, for Isha and for
    Asr. *)
Definition noFallback (lat : R) (date : Date) : Prop :=
  let declination := Solar.getSolarDeclination (Solar.getJulianDate date) in
  (Rabs (Solar.cosHourAngle lat declination Solar.fajrAngle) <= 1
   /\ Rabs (Solar.cosHourAngle lat declination Solar.maghribAngle) <= 1
   /\ Rabs (Solar.cosHourAngle lat declination Solar.ishaAngle) <= 1
   /\ Rabs (Solar.asrCosHourAngle lat declination) <= 1)%R.



(** A list of minutes since midnight that never goes down. *)
Fixpoint nonDecreasing (l : list Z) : Prop :=
  match l with
  | a :: (b :: _) as rest => a <= b /\ nonDecreasing rest
  | _ => True
  end.

(** The round trip through the 12-hour rendering succeeds at [(h, m)]. *)
Definition roundTrips (h m : Z) : bool :=
  match PrayerTimes.parseTime (PrayerTimes.formatTime h m) with
  | Some (h', m') => (h' =? h) && (m' =? m)
  | None => false
  end.

End Spec.

(** ** Concrete dates and clock readings *)

Module Fixtures.

(** 1 January 2000, 12:00, the epoch J2000.0. *)
Definition y2000_jan_1_noon : Date := mkDate 2000 0 1 12 0 0 0.

(** 29 February and 1 March 2024, 00:00. *)
Definition y2024_feb_29 : Date := mkDate 2024 1 29 0 0 0 0.
Definition y2024_mar_1 : Date := mkDate 2024 2 1 0 0 0 0.

(** 21 December 2024 and 21 June 2024, 12:00, in a zone at UTC. *)
Definition y2024_dec_21 : Date := mkDate 2024 11 21 12 0 0 0.
Definition y2024_jun_21 : Date := mkDate 2024 5 21 12 0 0 0.

(** Clock readings on 21 December 2024: 00:00 and 23:59. *)
Definition midnight : Date := mkDate 2024 11 21 0 0 0 0.
Definition lastMinute : Date := mkDate 2024 11 21 23 59 0 0.

End Fixtures.

(** ** The rest of the prayer-time service *)

Module Service.

Import JSString PrayerTimes.
Local Open Scope string_scope.
Local Open Scope Z_scope.

(** [getNextPrayer]: [prayers.find(prayer => prayer.isNext) || prayers[0]];
    [None] stands for [undefined]. *)
Definition getNextPrayer (env : Platform) (location : option LocationData)
  : outcome (option PrayerTime) :=
  prayers <- getPrayerTimes env location (clock env) ;;
  Resolved (match List.find isNext prayers with
            | Some prayer => Some prayer
            | None => nth_error prayers 0
            end).

(** Milliseconds from the start of the local day to the clock reading
    [now] with [getMilliseconds () = ms]. *)
Definition msOfDay (now : Date) (ms : Z) : Z :=
  ((getHours now * 60 + getMinutes now) * 60 + getSeconds now) * 1000 + ms.

(** [diffHrs > 0 ? `${diffHrs}h ${diffMins}m` : `${diffMins}m`]. *)
Definition remainingString (diffHrs diffMins : Z) : string :=
  if diffHrs >? 0 then toString diffHrs ++ "h " ++ toString diffMins ++ "m"
  else toString diffMins ++ "m".

(** [getTimeUntilNextPrayer].  The clock readings of one call (the
    [new Date ()] of [getPrayerTimes], of [now] and of [prayerTime]) are
    one reading, [clock env] with [getMilliseconds () = ms].  Instants are
    counted in milliseconds from the start of the local day of that
    reading, every day lasting 24 hours:
    [setHours (hours, minutes, 0, 0)] is [(hours * 60 + minutes) * 60000]
    and [setDate (getDate () + 1)] adds [86400000]. *)
Definition getTimeUntilNextPrayer (env : Platform) (ms : Z)
    (location : option LocationData) : outcome string :=
  prayers <- getPrayerTimes env location (clock env) ;;
  match List.find isNext prayers with
  | None => Resolved "Soon"
  | Some nextPrayer =>
      let now := msOfDay (clock env) ms in
      match parseTime (time nextPrayer) with
      | None => Resolved "Soon"
      | Some (hours, minutes) =>
          let prayerTime := (hours * 60 + minutes) * 60000 in
          let prayerTime :=
            if prayerTime <=? now then prayerTime + 86400000
            else prayerTime in
          let diffMs := prayerTime - now in
          let diffHrs := diffMs / (1000 * 60 * 60) in
          let diffMins := (diffMs mod (1000 * 60 * 60)) / (1000 * 60) in
          Resolved (remainingString diffHrs diffMins)
      end
  end.

(** The longest prefix of digits, and what follows it. *)
Fixpoint spanDigits (s : string) : string * string :=
  match s with
  | String c rest =>
      if isDigit c then
        let (digits, tail) := spanDigits rest in (String c digits, tail)
      else (EmptyString, s)
  | EmptyString => (EmptyString, EmptyString)
  end.

(** [(\d+)h\s*(\d+)m] at the start of [s]: groups 1 and 2. *)
Definition matchHoursMinutes (s : string) : option (string * string) :=
  match spanDigits s with
  | (EmptyString, _) => None
  | (hours, String "h" rest) =>
      match spanDigits (skipSpaces rest) with
      | (EmptyString, _) => None
      | (minutes, String "m" _) => Some (hours, minutes)
      | _ => None
      end
  | _ => None
  end.

(** [(\d+)m] at the start of [s]: group 3. *)
Definition matchMinutes (s : string) : option string :=
  match spanDigits s with
  | (EmptyString, _) => None
  | (minutes, String "m" _) => Some minutes
  | _ => None
  end.

(** The groups of the match of [/(\d+)h\s*(\d+)m|(\d+)m/]. *)
Inductive remaining : Type :=
| HoursMinutes (g1 g2 : string)
| Minutes (g3 : string).

(** [s.match (/(\d+)h\s*(\d+)m|(\d+)m/)]: the leftmost match, the first
    alternative tried before the second at each position. *)
Fixpoint matchRemaining (s : string) : option remaining :=
  match matchHoursMinutes s with
  | Some (g1, g2) => Some (HoursMinutes g1 g2)
  | None =>
      match matchMinutes s with
      | Some g3 => Some (Minutes g3)
      | None =>
          match s with
          | String _ rest => matchRemaining rest
          | EmptyString => None
          end
      end
  end.

(** [formatTimeRemaining]: the pair [(hours, minutes)]. *)
Definition formatTimeRemaining (timeString : string) : Z * Z :=
  match matchRemaining timeString with
  | None => (0, 0)
  | Some (HoursMinutes g1 g2) => (parseInt g1, parseInt g2)
  | Some (Minutes g3) => (0, parseInt g3)
  end.




(** [String.prototype.toLowerCase] on one-byte characters. *)
Definition lower (c : ascii) : ascii :=
  let n := nat_of_ascii c in
  if (65 <=? n)%nat && (n <=? 90)%nat then ascii_of_nat (n + 32) else c.

Fixpoint toLowerCase (s : string) : string :=
  match s with
  | EmptyString => EmptyString
  | String c rest => String (lower c) (toLowerCase rest)
  end.

(** [s.includes (sub)]. *)
Fixpoint includes (s sub : string) : bool :=
  if String.prefix sub s then true
  else match s with
       | EmptyString => false
       | String _ rest => includes rest sub
       end.

(** The table of [geocodeLocation], in the order of [Object.entries]. *)
Definition mockCoordinates : list (string * (R * R)) :=
  [ ("London", (51.5074, -0.1278)%R);
    ("New York", (40.7128, -74.0060)%R);
    ("Dubai", (25.2048, 55.2708)%R);
    ("Cairo", (30.0444, 31.2357)%R);
    ("Istanbul", (41.0082, 28.9784)%R);
    ("Mecca", (21.4225, 39.8262)%R);
    ("Medina", (24.5247, 39.5692)%R) ].

(** [country || 'Unknown']. *)
Definition orUnknown (country : option string) : string :=
  match country with
  | Some c => if (c =? "")%string then "Unknown" else c
  | None => "Unknown"
  end.

(** The loop of [geocodeLocation] over the table. *)
Fixpoint lookupCity (lowerCity : string) (table : list (string * (R * R)))
  : option (R * R) :=
  match table with
  | [] => None
  | (name, coords) :: rest =>
      if includes (toLowerCase name) lowerCity
         || includes lowerCity (toLowerCase name)
      then Some coords
      else lookupCity lowerCity rest
  end.

(** [geocodeLocation]; nothing in its [try] block throws. *)
Definition geocodeLocation (city : string) (country : option string)
  : LocationData :=
  let lowerCity := toLowerCase city in
  match lookupCity lowerCity mockCoordinates with
  | Some coords =>
      {| latitude := fst coords; longitude := snd coords;
         city := Some city; country := Some (orUnknown country);
         timezone := None |}
  | None =>
      {| latitude := 0; longitude := 0;
         city := Some city; country := Some (orUnknown country);
         timezone := None |}
  end.

End Service.

(** ** Vocabulary of the further properties *)

Module Props.

Local Open Scope Z_scope.

(** An hour and a minute of the 24-hour clock. *)
Definition validClock (hour minute : Z) : Prop :=
  0 <= hour <= 23 /\ 0 <= minute <= 59.

Definition validEntry (e : Solar.Entry.t) : Prop :=
  validClock (Solar.Entry.hour e) (Solar.Entry.minute e).

(** A clock reading with its fields in range. *)
Definition validNow (now : Date) (ms : Z) : Prop :=
  validClock (getHours now) (getMinutes now)
  /\ 0 <= getSeconds now <= 59 /\ 0 <= ms <= 999.

(** The wait, in milliseconds, from the instant [now] of the day to the next
    time the clock shows [hour:minute]. *)
Definition waitMs (hour minute now : Z) : Z :=
  let target := (hour * 60 + minute) * 60000 in
  if target <=? now then target + 86400000 - now else target - now.


(** The cosine of the central angle between two points of the sphere,
    given by their latitudes and longitudes in degrees. *)
Definition centralCosine (lat1 lon1 lat2 lon2 : R) : R :=
  (sin (lat1 * PI / 180) * sin (lat2 * PI / 180)
   + cos (lat1 * PI / 180) * cos (lat2 * PI / 180)
     * cos ((lon2 - lon1) * PI / 180))%R.

(** The round trip through the remaining-time string succeeds. *)
Definition remainingRoundTrips (h m : Z) : bool :=
  let '(h', m') :=
    Service.formatTimeRemaining (Service.remainingString h m) in
  (h' =? h) && (m' =? m).

End Props.

(** ** The notification service *)

Module Notification.

Import JSString PrayerTimes Service.
Local Open Scope string_scope.
Local Open Scope Z_scope.

Record NotificationSettings : Type := mkSettings {
  adhanEnabled : bool;
  vibrationEnabled : bool;
  reminderMinutes : Z;
  notificationsEnabled : bool
}.

(** Whitespace removed at the end of a string. *)
Fixpoint trimEnd (s : string) : string :=
  match s with
  | EmptyString => EmptyString
  | String c rest =>
      let r := trimEnd rest in
      if isSpace c && (r =? "")%string then EmptyString else String c r
  end.

(** [String.prototype.trim], on one-byte characters. *)
Definition trim (s : string) : string := trimEnd (skipSpaces s).

(** [parseTimeString]; [None] stands for [null]. *)
Definition parseTimeString (timeString : string) : option (Z * Z) :=
  match matchTime (trim timeString) with
  | None => None
  | Some (g1, g2, g3) =>
      let hours := parseInt g1 in
      let minutes := parseInt g2 in
      let period := toUpperCase g3 in
      if (minutes <? 0) || (minutes >? 59) || (hours <? 1) || (hours >? 12)
      then None
      else
        let hours :=
          if (period =? "PM")%string && negb (hours =? 12) then hours + 12
          else if (period =? "AM")%string && (hours =? 12) then 0
          else hours in
        Some (hours, minutes)
  end.

(** What is handed to [Notifications.scheduleNotificationAsync]; the
    trigger is in milliseconds from the start of the local day of the
    clock reading. *)
Record Request : Type := mkRequest {
  title : string;
  body : string;
  trigger : Z;
  prayerName : string;
  type : string;
  vibrate : bool
}.

(** [scheduleNotification]: the request passed on to the platform, unless
    the trigger is not in the future. *)
Definition scheduleNotification (settings : NotificationSettings) (now : Z)
    (title body : string) (trigger : Z) (prayerName type : string)
  : list Request :=
  if trigger <=? now then []
  else [ {| title := title; body := body; trigger := trigger;
            prayerName := prayerName; type := type;
            vibrate := vibrationEnabled settings |} ].

(** One turn of the loop of [scheduleAllPrayerNotifications]. *)
Definition schedulePrayer (settings : NotificationSettings) (now : Z)
    (prayer : PrayerTime) : list Request :=
  if (name prayer =? "Sunrise")%string then []
  else
    match parseTimeString (time prayer) with
    | None => []
    | Some (hours, minutes) =>
        let prayerTime := (hours * 60 + minutes) * 60000 in
        let prayerTime :=
          if prayerTime <=? now then prayerTime + 86400000
          else prayerTime in
        (if reminderMinutes settings >? 0 then
           let reminderTime :=
             prayerTime - reminderMinutes settings * 60 * 1000 in
           if reminderTime >? now then
             scheduleNotification settings now
               (name prayer ++ " Prayer Reminder")
               (name prayer ++ " prayer is in "
                ++ toString (reminderMinutes settings) ++ " minutes at "
                ++ time prayer)
               reminderTime (name prayer) "reminder"
           else []
         else [])
        ++
        (if adhanEnabled settings then
           scheduleNotification settings now
             (name prayer ++ " Prayer Time")
             ("It's time for " ++ name prayer ++ " prayer")
             prayerTime (name prayer) "adhan"
         else [])
    end.

(** [scheduleAllPrayerNotifications]: the requests handed to the platform,
    in order.  [cancelAll] is how
    [Notifications.cancelAllScheduledNotificationsAsync ()] settles; a
    rejection ends the [try] block.  As for [getTimeUntilNextPrayer], the
    clock readings of one call, those of [scheduleNotification] included,
    are one reading, and days last 24 hours. *)
Definition scheduleAllPrayerNotifications
    (settings : NotificationSettings) (cancelAll : outcome unit)
    (env : Platform) (ms : Z) (location : option LocationData)
  : list Request :=
  match cancelAll with
  | Rejected _ => []
  | Resolved _ =>
      if negb (notificationsEnabled settings) then []
      else
        match getPrayerTimes env location (clock env) with
        | Rejected _ => []
        | Resolved prayers =>
            let now := msOfDay (clock env) ms in
            flat_map (schedulePrayer settings now) prayers
        end
  end.

(** The round trip from [formatTime] through [parseTimeString]
    succeeds. *)
Definition parsesBack (h m : Z) : bool :=
  match parseTimeString (formatTime h m) with
  | Some (h', m') => (h' =? h) && (m' =? m)
  | None => false
  end.

(** The five prayers that are announced. *)
Definition announced : list string :=
  ["Fajr"; "Dhuhr"; "Asr"; "Maghrib"; "Isha"].

Definition isAdhan (r : Request) : bool := (type r =? "adhan")%string.

(** The prayers the loop of [scheduleAllPrayerNotifications] does not
    skip: not Sunrise, and a time that [parseTimeString] accepts. *)
Definition scheduled (prayer : PrayerTime) : bool :=
  negb (name prayer =? "Sunrise")%string
  && match parseTimeString (time prayer) with
     | Some _ => true
     | None => false
     end.

End Notification.

(** ** The compass *)

Module Compass.

(** [calculateDistance]: the haversine distance in kilometres. *)
Definition calculateDistance (lat1 lon1 lat2 lon2 : R) : R :=
  let R := 6371 in
  let dLat := (lat2 - lat1) * PI / 180 in
  let dLon := (lon2 - lon1) * PI / 180 in
  let a := sin (dLat / 2) * sin (dLat / 2)
           + cos (lat1 * PI / 180) * cos (lat2 * PI / 180)
             * sin (dLon / 2) * sin (dLon / 2) in
  let c := 2 * Math_atan2 (sqrt a) (sqrt (1 - a)) in
  R * c.

(** The heading the magnetometer listener sets from a reading [(x, y)]. *)
Definition magneticHeading (x y : R) : R :=
  let magneticHeading := Math_atan2 y x * (180 / PI) in
  rem (magneticHeading + 360) 360.

End Compass.

(** * Properties *)

(** ** Arrays: [findIndex] and the indexed [map] *)

Section ArrayFacts.

Import PrayerTimes.
Local Open Scope Z_scope.

Context {A B : Type}.

Lemma findIndexFrom_spec (f : A -> bool) (l : list A) (i : Z) :
  (findIndexFrom f i l = -1 /\ forall x, In x l -> f x = false)
  \/ (exists k x, findIndexFrom f i l = i + Z.of_nat k
                  /\ nth_error l k = Some x /\ f x = true
                  /\ forall j y, (j < k)%nat -> nth_error l j = Some y ->
                                 f y = false).
Proof.
  revert i. induction l as [|a l IH]; intros i; simpl.
  - left. split; [reflexivity | intros x []].
  - destruct (f a) eqn:Fa.
    + right. exists 0%nat, a. repeat split; try assumption.
      * lia.
      * intros j y Hj. lia.
    + destruct (IH (i + 1)) as [[E N] | (k & x & E & Hk & Fx & Hprev)].
      * left. split; [assumption|]. intros x [<- | Hx]; auto.
      * right. exists (S k), x. repeat split; try assumption.
        -- rewrite E. lia.
        -- intros [|j] y Hj Hy; simpl in Hy.
           ++ congruence.
           ++ apply (Hprev j); [lia | assumption].
Qed.

Lemma nth_error_mapFrom (f : A -> Z -> B) (l : list A) (i : Z) (k : nat) :
  nth_error (mapFrom f i l) k =
  option_map (fun x => f x (i + Z.of_nat k)) (nth_error l k).
Proof.
  revert i k. induction l as [|a l IH]; intros i [|k]; simpl;
    try reflexivity.
  - f_equal. f_equal. lia.
  - rewrite IH. destruct (nth_error l k); simpl; [|reflexivity].
    f_equal. f_equal. lia.
Qed.

Lemma length_mapFrom (f : A -> Z -> B) (l : list A) (i : Z) :
  List.length (mapFrom f i l) = List.length l.
Proof. revert i. induction l; intros i; simpl; [reflexivity | now rewrite IHl]. Qed.

End ArrayFacts.

(** ** The next/passed flags *)

Section Flags.

Import PrayerTimes Spec.
Local Open Scope Z_scope.

Variable now : Date.
Variable times : list Solar.Entry.t.

Lemma annotate_length : List.length (annotate now times) = List.length times.
Proof. unfold annotate, mapIndexed. apply length_mapFrom. Qed.

Lemma annotate_nth (k : nat) (p : PrayerTime) :
  nth_error (annotate now times) k = Some p ->
  exists e, nth_error times k = Some e
            /\ Solar.Entry.id e = id p /\ Solar.Entry.name e = name p
            /\ time p = formatTime (Solar.Entry.hour e) (Solar.Entry.minute e)
            /\ isPassed p = (prayerMinutes e <=? nowMinutes now).
Proof.
  unfold annotate, mapIndexed. rewrite nth_error_mapFrom.
  destruct (nth_error times k) as [e|]; simpl; [|discriminate].
  intros [= <-]. exists e. simpl. repeat split; reflexivity.
Qed.

(** The index the code marks: the first strictly later entry, or 0. *)
Lemma annotate_next :
  exists k : nat,
    (forall j p, nth_error (annotate now times) j = Some p ->
                 (isNext p = true <-> j = k))
    /\ (firstUpcoming now times k \/ (k = 0%nat /\ allPassed now times)).
Proof.
  unfold annotate, mapIndexed, findIndex.
  set (cur := getHours now * 60 + getMinutes now).
  set (pm := map _ times).
  destruct (findIndexFrom_spec (fun t => t >? cur) pm 0)
    as [[E N] | (k & x & E & Hk & Fx & Hprev)].
  - exists 0%nat. rewrite E. simpl. split.
    + intros j p. rewrite nth_error_mapFrom.
      destruct (nth_error times j); simpl; [|discriminate].
      intros [= <-]. simpl. rewrite Z.eqb_eq. lia.
    + right. split; [reflexivity|]. intros e He.
      assert (Hin : In (prayerMinutes e) pm)
        by (apply (in_map (fun prayer => _) times e He)).
      specialize (N _ Hin). simpl in N. unfold nowMinutes. fold cur. lia.
  - exists k. rewrite E.
    replace (0 + Z.of_nat k =? -1) with false by (symmetry; apply Z.eqb_neq; lia).
    split.
    + intros j p. rewrite nth_error_mapFrom.
      destruct (nth_error times j); simpl; [|discriminate].
      intros [= <-]. simpl. rewrite Z.eqb_eq. lia.
    + left. unfold pm in Hk, Hprev. split.
      * rewrite nth_error_map in Hk.
        destruct (nth_error times k) as [e|]; simpl in Hk; [|discriminate].
        exists e. split; [reflexivity|]. injection Hk as <-.
        unfold nowMinutes, prayerMinutes. fold cur. lia.
      * intros j e Hj He.
        specialize (Hprev j (prayerMinutes e) Hj).
        rewrite nth_error_map, He in Hprev. specialize (Hprev eq_refl).
        unfold nowMinutes. fold cur. simpl in Hprev. lia.
Qed.

End Flags.

Section CalculatePrayerTimesFlags.

Import PrayerTimes Spec.
Local Open Scope Z_scope.

Lemma getIslamicPrayerTimes_length (lat lng : R) (date : Date) :
  List.length (Solar.getIslamicPrayerTimes lat lng date) = 6%nat.
Proof. reflexivity. Qed.

(** C5.  In the list [calculatePrayerTimes] returns, against the clock
    reading [now] it was computed with: there are six entries; each entry's
    [isPassed] is exactly [prayerMinutes <= nowMinutes]; exactly one
    position carries [isNext], and it is the first entry strictly later
    than [now], or position 0 when every entry has passed; an entry with
    both flags set can only be position 0 in that all-passed case. *)
Theorem calculatePrayerTimes_flags (now : Date) (lat lng : R) (date : Date) :
  let times := Solar.getIslamicPrayerTimes lat lng date in
  let out := calculatePrayerTimes now lat lng date in
  List.length out = 6%nat
  /\ (forall k p, nth_error out k = Some p ->
        exists e, nth_error times k = Some e
                  /\ isPassed p = (prayerMinutes e <=? nowMinutes now))
  /\ (exists k : nat,
        (k < 6)%nat
        /\ (forall j p, nth_error out j = Some p ->
                        (isNext p = true <-> j = k))
        /\ (firstUpcoming now times k \/ (k = 0%nat /\ allPassed now times)))
  /\ (forall j p, nth_error out j = Some p ->
        isNext p = true -> isPassed p = true ->
        j = 0%nat /\ allPassed now times).
Proof.
  intros times out. unfold out, calculatePrayerTimes. fold times.
  destruct (annotate_next now times) as (k & Hnext & Hk).
  assert (Hlen : List.length times = 6%nat) by reflexivity.
  assert (Hboth : forall j p, nth_error (annotate now times) j = Some p ->
            isNext p = true -> isPassed p = true ->
            j = 0%nat /\ allPassed now times).
  { intros j p Hp Hn Hpass.
    apply (Hnext j p Hp) in Hn. subst j.
    destruct Hk as [[(e & He & Hlate) _] | [-> Hall]]; [|now split].
    destruct (annotate_nth now times k p Hp) as (e' & He' & _ & _ & _ & Hq).
    rewrite He in He'. injection He' as <-.
    rewrite Hpass in Hq. symmetry in Hq. apply Z.leb_le in Hq. lia. }
  split; [|split; [|split]].
  - rewrite annotate_length. exact Hlen.
  - intros j p Hp.
    destruct (annotate_nth now times j p Hp) as (e & He & _ & _ & _ & Hpass).
    exists e. split; assumption.
  - exists k. split; [|split; assumption].
    destruct Hk as [[(e & He & _) _] | [-> _]]; [|lia].
    rewrite <- Hlen. apply nth_error_Some. congruence.
  - exact Hboth.
Qed.

End CalculatePrayerTimesFlags.

(** ** Formatting and parsing a time of day *)

Section RoundTrip.

Import PrayerTimes Spec.
Local Open Scope Z_scope.

Example formatTime_midnight : formatTime 0 5 = "12:05 AM"%string.
Proof. reflexivity. Qed.

Example formatTime_noon : formatTime 12 0 = "12:00 PM"%string.
Proof. reflexivity. Qed.

Example formatTime_evening : formatTime 19 35 = "7:35 PM"%string.
Proof. reflexivity. Qed.

Example parseTime_lowercase : parseTime "7:35pm" = Some (19, 35).
Proof. reflexivity. Qed.

Example parseTime_reject : parseTime "7:5 PM" = None.
Proof. reflexivity. Qed.

Lemma roundTrips_all :
  forallb (fun h => forallb (fun m => roundTrips (Z.of_nat h) (Z.of_nat m))
                            (seq 0 60))
          (seq 0 24) = true.
Proof. vm_compute. reflexivity. Qed.

(** C8.  For every hour in 0..23 and minute in 0..59, rendering the pair
    as "H:MM AM/PM" and parsing the string back with the AM/PM rules gives
    the same hour and minute. *)
Theorem parseTime_formatTime (h m : Z) :
  0 <= h <= 23 -> 0 <= m <= 59 ->
  parseTime (formatTime h m) = Some (h, m).
Proof.
  intros Hh Hm.
  pose proof roundTrips_all as Hall.
  rewrite forallb_forall in Hall.
  specialize (Hall (Z.to_nat h)).
  rewrite forallb_forall in Hall.
  assert (Hin : In (Z.to_nat h) (seq 0 24)) by (apply in_seq; lia).
  specialize (Hall Hin (Z.to_nat m)).
  assert (Hin' : In (Z.to_nat m) (seq 0 60)) by (apply in_seq; lia).
  specialize (Hall Hin').
  rewrite !Z2Nat.id in Hall by lia.
  unfold roundTrips in Hall.
  destruct (parseTime (formatTime h m)) as [[h' m']|]; [|discriminate].
  apply andb_true_iff in Hall. destruct Hall as [E1 E2].
  apply Z.eqb_eq in E1, E2. congruence.
Qed.

Lemma parseTime_formatTime_witness :
  parseTime (formatTime 0 5) = Some (0, 5).
Proof. apply parseTime_formatTime; lia. Defined.

End RoundTrip.

(** ** Failures inside [getPrayerTimes] *)

Section Fallback.

Import PrayerTimes Spec.
Local Open Scope Z_scope.
Local Open Scope string_scope.

Lemma getMockPrayerTimes_length (now : Date) :
  List.length (getMockPrayerTimes now) = 6%nat.
Proof. unfold getMockPrayerTimes. rewrite annotate_length. reflexivity. Qed.

Lemma calculatePrayerTimes_length (now : Date) (lat lng : R) (date : Date) :
  List.length (calculatePrayerTimes now lat lng date) = 6%nat.
Proof. unfold calculatePrayerTimes. rewrite annotate_length. reflexivity. Qed.

Lemma getMockPrayerTimes_times (now : Date) :
  map (fun p => (id p, name p, time p)) (getMockPrayerTimes now) =
  [ ("fajr", "Fajr", "5:30 AM"); ("sunrise", "Sunrise", "6:55 AM");
    ("dhuhr", "Dhuhr", "12:25 PM"); ("asr", "Asr", "3:40 PM");
    ("maghrib", "Maghrib", "6:15 PM"); ("isha", "Isha", "7:35 PM") ].
Proof. reflexivity. Qed.

Lemma getPrayerTimes_try_length env location date l :
  getPrayerTimes_try env location date = Resolved l -> List.length l = 6%nat.
Proof.
  unfold getPrayerTimes_try, bind.
  destruct location as [loc|].
  - intros [= <-]. apply calculatePrayerTimes_length.
  - destruct (requestForegroundPermissionsAsync env) as [status|]; [|discriminate].
    destruct (negb (status =? "granted")); [discriminate|].
    destruct (getCurrentPositionAsync env); [|discriminate].
    intros [= <-]. apply calculatePrayerTimes_length.
Qed.

(** C9.  [getPrayerTimes] never rejects: whatever the platform answers, it
    resolves to a list of six entries; and when a step of its [try] block
    throws (the permission request or the position fix rejects, or the
    permission is not granted), the list is the hardcoded mock list (Fajr
    5:30, Sunrise 6:55, Dhuhr 12:25, Asr 15:40, Maghrib 18:15, Isha
    19:35) annotated against the clock: its ids, names and rendered times
    are the fixed ones, each entry's [isPassed] is
    [its minutes <= the clock's minutes], and exactly one entry carries
    [isNext], the first one strictly later than the clock, or Fajr when all
    have passed. *)
Theorem getPrayerTimes_masks_failures
    (env : Platform) (location : option LocationData) (date : Date) :
  (exists l, getPrayerTimes env location date = Resolved l
             /\ List.length l = 6%nat)
  /\ (forall error,
        getPrayerTimes_try env location date = Rejected error ->
        exists l,
          getPrayerTimes env location date = Resolved l
          /\ map (fun p => (id p, name p, time p)) l
             = [ ("fajr", "Fajr", "5:30 AM"); ("sunrise", "Sunrise", "6:55 AM");
                 ("dhuhr", "Dhuhr", "12:25 PM"); ("asr", "Asr", "3:40 PM");
                 ("maghrib", "Maghrib", "6:15 PM"); ("isha", "Isha", "7:35 PM") ]
          /\ map isPassed l
             = map (fun minutes => (minutes <=? nowMinutes (clock env))%Z)
                   [330; 415; 745; 940; 1095; 1175]
          /\ exists k : nat,
               (k < 6)%nat
               /\ (forall j p, nth_error l j = Some p ->
                               (isNext p = true <-> j = k))
               /\ (firstUpcoming (clock env) mockPrayers k
                   \/ (k = 0%nat /\ allPassed (clock env) mockPrayers)))
  /\ (location = None ->
       (exists error, requestForegroundPermissionsAsync env = Rejected error)
       \/ (exists status, requestForegroundPermissionsAsync env = Resolved status
                          /\ status <> "granted")
       \/ (exists error, getCurrentPositionAsync env = Rejected error) ->
       exists error, getPrayerTimes_try env location date = Rejected error)
  /\ map (fun e => (Solar.Entry.name e, Solar.Entry.hour e, Solar.Entry.minute e))
         mockPrayers =
     [ ("Fajr", 5, 30); ("Sunrise", 6, 55); ("Dhuhr", 12, 25);
       ("Asr", 15, 40); ("Maghrib", 18, 15); ("Isha", 19, 35) ].
Proof.
  split; [|split; [|split]].
  - unfold getPrayerTimes, tryCatch.
    destruct (getPrayerTimes_try env location date) as [l|e] eqn:E.
    + exists l. split; [reflexivity|].
      apply (getPrayerTimes_try_length env location date l E).
    + eexists. split; [reflexivity|]. apply getMockPrayerTimes_length.
  - intros error E. exists (getMockPrayerTimes (clock env)).
    split; [unfold getPrayerTimes; rewrite E; reflexivity|].
    split; [reflexivity|]. split; [reflexivity|].
    unfold getMockPrayerTimes.
    destruct (annotate_next (clock env) mockPrayers) as (k & Hnext & Hk).
    exists k. split; [|split; assumption].
    destruct Hk as [[(e & He & _) _] | [-> _]]; [|lia].
    change 6%nat with (List.length mockPrayers).
    apply nth_error_Some. rewrite He. discriminate.
  - intros -> H. unfold getPrayerTimes_try, bind.
    destruct (requestForegroundPermissionsAsync env) as [status|e0] eqn:Ep.
    + destruct (status =? "granted") eqn:Es; simpl.
      * apply String.eqb_eq in Es. subst status.
        destruct H as [(e & He) | [(s & Hs & Hne) | (e & He)]].
        -- discriminate.
        -- injection Hs as <-. contradiction.
        -- rewrite He. exists e. reflexivity.
      * eexists. reflexivity.
    + exists e0. reflexivity.
  - reflexivity.
Qed.

(** With the permission denied at 00:00, the answer is the mock list with
    Fajr next and nothing passed. *)
Lemma getPrayerTimes_masks_failures_witness :
  exists l,
    getPrayerTimes
      {| requestForegroundPermissionsAsync := Resolved "denied";
         getCurrentPositionAsync := Rejected "unavailable";
         clock := Fixtures.midnight |}
      None Fixtures.y2024_dec_21
    = Resolved l
    /\ map (fun p => (name p, time p, isNext p, isPassed p)) l
       = [ ("Fajr", "5:30 AM", true, false);
           ("Sunrise", "6:55 AM", false, false);
           ("Dhuhr", "12:25 PM", false, false);
           ("Asr", "3:40 PM", false, false);
           ("Maghrib", "6:15 PM", false, false);
           ("Isha", "7:35 PM", false, false) ].
Proof.
  destruct (getPrayerTimes_masks_failures
              {| requestForegroundPermissionsAsync := Resolved "denied";
                 getCurrentPositionAsync := Rejected "unavailable";
                 clock := Fixtures.midnight |}
              None Fixtures.y2024_dec_21) as (_ & H & _ & _).
  destruct (H "Location permission denied" eq_refl) as (l & E & _).
  exists l. split; [exact E|].
  injection E as <-. reflexivity.
Defined.

Example getMockPrayerTimes_at_midnight :
  map (fun p => (name p, isNext p, isPassed p))
      (getMockPrayerTimes Fixtures.midnight)
  = [ ("Fajr", true, false); ("Sunrise", false, false);
      ("Dhuhr", false, false); ("Asr", false, false);
      ("Maghrib", false, false); ("Isha", false, false) ].
Proof. reflexivity. Qed.

Example getMockPrayerTimes_at_lastMinute :
  map (fun p => (name p, isNext p, isPassed p))
      (getMockPrayerTimes Fixtures.lastMinute)
  = [ ("Fajr", true, true); ("Sunrise", false, true);
      ("Dhuhr", false, true); ("Asr", false, true);
      ("Maghrib", false, true); ("Isha", false, true) ].
Proof. reflexivity. Qed.

End Fallback.

(** ** The Julian date *)

Section JulianDate.

Import Solar.

Lemma Zfloor_div (a b : Z) :
  (0 < b)%Z -> Zfloor (IZR a / IZR b) = (a / b)%Z.
Proof.
  intros Hb. apply Zfloor_eq.
  assert (HbR : 0 < IZR b) by (apply IZR_lt; assumption).
  pose proof (Z.div_mod a b ltac:(lia)) as Hdm.
  pose proof (Z.mod_pos_bound a b Hb) as [Hlo Hhi].
  apply IZR_le in Hlo. apply IZR_lt in Hhi.
  apply (f_equal IZR) in Hdm. rewrite plus_IZR, mult_IZR in Hdm.
  split.
  - apply Rmult_le_reg_r with (IZR b); [assumption|].
    unfold Rdiv. rewrite Rmult_assoc, Rinv_l by lra. lra.
  - apply Rmult_lt_reg_r with (IZR b); [assumption|].
    unfold Rdiv. rewrite Rmult_assoc, Rinv_l by lra. lra.
Qed.

Lemma Math_floor_div (a b : Z) :
  (0 < b)%Z -> Math_floor (IZR a / IZR b) = IZR (a / b).
Proof. intros Hb. unfold Math_floor. now rewrite Zfloor_div. Qed.

(** [Math.floor] of each quotient in [getJulianDate] is the integer
    floor division of the specification. *)
Lemma getJulianDate_julianDate (date : Date) :
  getJulianDate date =
  Spec.julianDate (getFullYear date) (getMonth date + 1) (getDate date)
                  (getHours date) (getMinutes date) (getSeconds date).
Proof.
  unfold getJulianDate, Spec.julianDate.
  set (year := getFullYear date). set (month := (getMonth date + 1)%Z).
  set (a := ((14 - month) / 12)%Z).
  assert (Ha : Math_floor ((14 - (IZR (getMonth date) + 1)) / 12) = IZR a).
  { replace (14 - (IZR (getMonth date) + 1)) with (IZR (14 - month))
      by (unfold month; rewrite minus_IZR, plus_IZR; reflexivity).
    apply Math_floor_div. lia. }
  cbv zeta. rewrite Ha.
  set (y := (year - a)%Z). set (m := (month + 12 * a - 3)%Z).
  assert (Hy : IZR year - IZR a = IZR y)
    by (unfold y; rewrite minus_IZR; reflexivity).
  assert (Hm : IZR (getMonth date) + 1 + 12 * IZR a - 3 = IZR m).
  { unfold m, month. rewrite minus_IZR, !plus_IZR, mult_IZR. reflexivity. }
  rewrite Hy, Hm.
  replace (153 * IZR m + 2) with (IZR (153 * m + 2))
    by (rewrite plus_IZR, mult_IZR; reflexivity).
  rewrite !Math_floor_div by lia.
  rewrite !plus_IZR, minus_IZR, !plus_IZR, mult_IZR. reflexivity.
Qed.

(** C6.  For every date-time, valid Gregorian dates and leap years
    included, [getJulianDate] is exactly
    day + floor((153m+2)/5) + 365y + floor(y/4) - floor(y/100)
    + floor(y/400) + 1721119 + (hour + minute/60 + second/3600)/24 - 0.5
    with a = floor((14 - month)/12), y = year - a, m = month + 12a - 3;
    the function is total. *)
Theorem getJulianDate_formula (date : Date) :
  getJulianDate date =
  Spec.julianDate (getFullYear date) (getMonth date + 1) (getDate date)
                  (getHours date) (getMinutes date) (getSeconds date).
Proof. exact (getJulianDate_julianDate date). Qed.

Example getJulianDate_J2000 :
  getJulianDate Fixtures.y2000_jan_1_noon = 2451545.
Proof.
  rewrite getJulianDate_julianDate. unfold Spec.julianDate. simpl.
  replace ((14 - 1) / 12)%Z with 1%Z by reflexivity. simpl. lra.
Qed.

Example getJulianDate_leap_day :
  getJulianDate Fixtures.y2024_feb_29 = 2460369.5
  /\ getJulianDate Fixtures.y2024_mar_1 = 2460370.5.
Proof.
  rewrite !getJulianDate_julianDate. unfold Spec.julianDate. simpl.
  replace ((14 - 2) / 12)%Z with 1%Z by reflexivity.
  replace ((14 - 3) / 12)%Z with 0%Z by reflexivity.
  simpl. split; lra.
Qed.

End JulianDate.

(** ** [Math.atan2] and [%] *)

Section MathFacts.

Lemma Math_atan2_bound (y x : R) : - PI < Math_atan2 y x <= PI.
Proof.
  pose proof PI_RGT_0 as Hpi. unfold Math_atan2.
  destruct (Rlt_dec 0 x) as [Hx|Hx].
  - pose proof (atan_bound (y / x)). lra.
  - destruct (Rlt_dec x 0) as [Hx'|Hx'].
    + assert (Hinv : / x < 0) by (apply Rinv_lt_0_compat; assumption).
      destruct (Rle_dec 0 y) as [Hy|Hy].
      * assert (y / x <= 0) by (unfold Rdiv; nra).
        assert (atan (y / x) <= 0).
        { rewrite <- atan_0. destruct H as [H|H].
          - left. apply atan_increasing. assumption.
          - rewrite H. right. reflexivity. }
        pose proof (atan_bound (y / x)). lra.
      * assert (0 < y / x) by (unfold Rdiv; nra).
        assert (0 < atan (y / x))
          by (rewrite <- atan_0; apply atan_increasing; assumption).
        pose proof (atan_bound (y / x)). lra.
    + destruct (Rlt_dec 0 y); [lra|].
      destruct (Rlt_dec y 0); lra.
Qed.

Lemma Math_atan2_0_0 : Math_atan2 0 0 = 0.
Proof.
  unfold Math_atan2.
  destruct (Rlt_dec 0 0) as [H|_]; [lra|].
  destruct (Rlt_dec 0 0) as [H|_]; [lra|]. reflexivity.
Qed.

(** A negative ordinate puts the angle strictly between [-PI] and [0]. *)
Lemma Math_atan2_neg (y x : R) : y < 0 -> - PI < Math_atan2 y x < 0.
Proof.
  intros Hy. pose proof PI_RGT_0 as Hpi. unfold Math_atan2.
  destruct (Rlt_dec 0 x) as [Hx|Hx].
  - assert (Hinv : 0 < / x) by (apply Rinv_0_lt_compat; assumption).
    assert (y / x < 0) by (unfold Rdiv; nra).
    assert (atan (y / x) < 0)
      by (rewrite <- atan_0; apply atan_increasing; assumption).
    pose proof (atan_bound (y / x)). lra.
  - destruct (Rlt_dec x 0) as [Hx'|Hx'].
    + destruct (Rle_dec 0 y) as [Hy'|Hy']; [lra|].
      assert (Hinv : / x < 0) by (apply Rinv_lt_0_compat; assumption).
      assert (0 < y / x) by (unfold Rdiv; nra).
      assert (0 < atan (y / x))
        by (rewrite <- atan_0; apply atan_increasing; assumption).
      pose proof (atan_bound (y / x)). lra.
    + destruct (Rlt_dec 0 y); [lra|].
      destruct (Rlt_dec y 0); lra.
Qed.

Lemma rem_nonneg_bound (a b : R) : 0 <= a -> 0 < b -> 0 <= rem a b < b.
Proof.
  intros Ha Hb. unfold rem, trunc.
  assert (Hq : 0 <= a / b)
    by (unfold Rdiv; apply Rmult_le_pos;
        [assumption | left; apply Rinv_0_lt_compat; assumption]).
  destruct (Rle_dec 0 (a / b)) as [_|Hn]; [|contradiction].
  pose proof (Zfloor_bound (a / b)) as [Hlo Hhi].
  assert (Hab : a = b * (a / b)) by (field; lra).
  split; nra.
Qed.

(** [rem] at an explicit integer quotient. *)
Lemma rem_eq (a b : R) (q : Z) :
  0 < b -> (0 <= q)%Z -> IZR q * b <= a < (IZR q + 1) * b ->
  rem a b = a - b * IZR q.
Proof.
  intros Hb Hq [Hlo Hhi]. unfold rem, trunc.
  assert (Hinv : 0 < / b) by (apply Rinv_0_lt_compat; assumption).
  assert (Hq' : 0 <= IZR q) by (apply IZR_le; assumption).
  assert (Hlo' : IZR q <= a / b).
  { apply Rmult_le_reg_r with b; [assumption|].
    unfold Rdiv. rewrite Rmult_assoc, Rinv_l by lra. lra. }
  assert (Hhi' : a / b < IZR q + 1).
  { apply Rmult_lt_reg_r with b; [assumption|].
    unfold Rdiv. rewrite Rmult_assoc, Rinv_l by lra. lra. }
  destruct (Rle_dec 0 (a / b)) as [_|Hn]; [|lra].
  rewrite (Zfloor_eq q) by (split; assumption). reflexivity.
Qed.

Lemma Rabs_le_iff (x b : R) : Rabs x <= b <-> - b <= x <= b.
Proof. unfold Rabs. destruct (Rcase_abs x); lra. Qed.

Lemma Rabs_gt_iff (x b : R) : b < Rabs x <-> x < - b \/ b < x.
Proof. unfold Rabs. destruct (Rcase_abs x); lra. Qed.

End MathFacts.

(** ** The Qibla bearing *)

Section QiblaBearing.

Import Qibla.

(** C7.  For every observer with latitude in [-90, 90] and longitude in
    [-180, 180], [calculateQiblaDirection] returns a bearing in [0, 360):
    the initial great-circle bearing
    atan2 (sin dLon * cos lat2, cos lat1 * sin lat2
                                - sin lat1 * cos lat2 * cos dLon)
    toward the Kaaba (21.4225 N, 39.8262 E), in degrees, normalised by
    (bearing + 360) mod 360. *)
Theorem calculateQiblaDirection_range (userLat userLon : R) :
  -90 <= userLat <= 90 -> -180 <= userLon <= 180 ->
  let lat1 := userLat * (PI / 180) in
  let lat2 := 21.4225 * (PI / 180) in
  let dLon := 39.8262 * (PI / 180) - userLon * (PI / 180) in
  let bearing :=
    Math_atan2 (sin dLon * cos lat2)
               (cos lat1 * sin lat2 - sin lat1 * cos lat2 * cos dLon)
    * (180 / PI) in
  calculateQiblaDirection userLat userLon = rem (bearing + 360) 360
  /\ 0 <= calculateQiblaDirection userLat userLon < 360.
Proof.
  intros _ _ lat1 lat2 dLon bearing. split; [reflexivity|].
  unfold calculateQiblaDirection. simpl.
  fold lat1 lat2 dLon. fold bearing.
  apply rem_nonneg_bound; [|lra].
  pose proof PI_RGT_0 as Hpi.
  pose proof (Math_atan2_bound (sin dLon * cos lat2)
    (cos lat1 * sin lat2 - sin lat1 * cos lat2 * cos dLon)) as [Hlo Hhi].
  assert (Hk : 0 < 180 / PI) by (apply Rdiv_lt_0_compat; lra).
  assert (- 180 <= bearing).
  { unfold bearing. replace (-180) with (- PI * (180 / PI)) by (field; lra).
    apply Rmult_le_compat_r; lra. }
  lra.
Qed.

Lemma calculateQiblaDirection_range_witness :
  0 <= calculateQiblaDirection 0 0 < 360.
Proof. apply (calculateQiblaDirection_range 0 0); lra. Defined.

(** C10.  At the Kaaba itself both arguments of [atan2] vanish,
    [atan2 (0, 0)] is 0, and the normalised bearing is 0. *)
Theorem calculateQiblaDirection_at_Kaaba :
  let lat := 21.4225 * (PI / 180) in
  let dLon := 39.8262 * (PI / 180) - 39.8262 * (PI / 180) in
  sin dLon * cos lat = 0
  /\ cos lat * sin lat - sin lat * cos lat * cos dLon = 0
  /\ Math_atan2 0 0 = 0
  /\ calculateQiblaDirection 21.4225 39.8262 = 0.
Proof.
  intros lat dLon.
  assert (Hd : dLon = 0) by (unfold dLon; ring).
  assert (Hy : sin dLon * cos lat = 0) by (rewrite Hd, sin_0; ring).
  assert (Hx : cos lat * sin lat - sin lat * cos lat * cos dLon = 0)
    by (rewrite Hd, cos_0; ring).
  split; [exact Hy | split; [exact Hx | split; [apply Math_atan2_0_0|]]].
  unfold calculateQiblaDirection. cbn [latitude longitude KAABA_LOCATION].
  cbv zeta. fold lat dLon. rewrite Hy, Hx, Math_atan2_0_0.
  rewrite (rem_eq _ _ 1); simpl; lra || lia.
Qed.

End QiblaBearing.

(** ** Trigonometry in degrees *)

Section Degrees.

Lemma deg_le (a b : R) : a <= b -> a * PI / 180 <= b * PI / 180.
Proof. pose proof PI_RGT_0. intros. nra. Qed.

Lemma deg_lt (a b : R) : a < b -> a * PI / 180 < b * PI / 180.
Proof. pose proof PI_RGT_0. intros. nra. Qed.

Lemma deg_90 : 90 * PI / 180 = PI / 2.
Proof. field. Qed.

Lemma deg_180 : 180 * PI / 180 = PI.
Proof. field. Qed.

Lemma sin_deg_le (a b : R) :
  -90 <= a -> a <= b -> b <= 90 -> sin (a * PI / 180) <= sin (b * PI / 180).
Proof.
  intros Ha Hab Hb.
  pose proof (deg_le _ _ Ha). pose proof (deg_le _ _ Hab).
  pose proof (deg_le _ _ Hb). rewrite deg_90 in *.
  replace (-90 * PI / 180) with (- (PI / 2)) in * by field.
  apply sin_incr_1; lra.
Qed.

Lemma sin_deg_lt (a b : R) :
  -90 <= a -> a < b -> b <= 90 -> sin (a * PI / 180) < sin (b * PI / 180).
Proof.
  intros Ha Hab Hb.
  pose proof (deg_le _ _ Ha). pose proof (deg_lt _ _ Hab).
  pose proof (deg_le _ _ Hb). rewrite deg_90 in *.
  replace (-90 * PI / 180) with (- (PI / 2)) in * by field.
  apply sin_increasing_1; lra.
Qed.

Lemma cos_deg_sin (a : R) : cos (a * PI / 180) = sin ((90 - a) * PI / 180).
Proof.
  replace ((90 - a) * PI / 180) with (PI / 2 - a * PI / 180) by field.
  symmetry. apply sin_shift.
Qed.

Lemma sin_deg_opp (a : R) : sin (- a * PI / 180) = - sin (a * PI / 180).
Proof.
  replace (- a * PI / 180) with (- (a * PI / 180)) by field. apply sin_neg.
Qed.

Lemma cos_deg_opp (a : R) : cos (- a * PI / 180) = cos (a * PI / 180).
Proof.
  replace (- a * PI / 180) with (- (a * PI / 180)) by field. apply cos_neg.
Qed.

Lemma cos_deg_le (a b : R) :
  0 <= a -> a <= b -> b <= 180 -> cos (b * PI / 180) <= cos (a * PI / 180).
Proof.
  intros Ha Hab Hb. rewrite !cos_deg_sin. apply sin_deg_le; lra.
Qed.

Lemma cos_deg_lt (a b : R) :
  0 <= a -> a < b -> b <= 180 -> cos (b * PI / 180) < cos (a * PI / 180).
Proof.
  intros Ha Hab Hb. rewrite !cos_deg_sin. apply sin_deg_lt; lra.
Qed.

Lemma sin_deg_0 : sin (0 * PI / 180) = 0.
Proof. replace (0 * PI / 180) with 0 by field. apply sin_0. Qed.

Lemma cos_deg_0 : cos (0 * PI / 180) = 1.
Proof. replace (0 * PI / 180) with 0 by field. apply cos_0. Qed.

Lemma sin_deg_90 : sin (90 * PI / 180) = 1.
Proof. rewrite deg_90. apply sin_PI2. Qed.

Lemma cos_deg_pos (a : R) : -90 < a < 90 -> 0 < cos (a * PI / 180).
Proof.
  intros [Hlo Hhi].
  pose proof (deg_lt _ _ Hlo). pose proof (deg_lt _ _ Hhi).
  rewrite deg_90 in *.
  replace (-90 * PI / 180) with (- (PI / 2)) in * by field.
  apply cos_gt_0; lra.
Qed.

Lemma sin_deg_pos (a : R) : 0 < a <= 90 -> 0 < sin (a * PI / 180).
Proof. intros [Hlo Hhi]. rewrite <- sin_deg_0. apply sin_deg_lt; lra. Qed.

Lemma cos_deg_90_plus (a : R) :
  cos ((90 + a) * PI / 180) = - sin (a * PI / 180).
Proof.
  replace ((90 + a) * PI / 180) with (PI / 2 + a * PI / 180) by field.
  rewrite cos_plus, cos_PI2, sin_PI2. ring.
Qed.

(** A sum of degrees. *)
Lemma deg_plus (a b : R) : (a + b) * PI / 180 = a * PI / 180 + b * PI / 180.
Proof. field. Qed.

Lemma deg_minus (a b : R) : (a - b) * PI / 180 = a * PI / 180 - b * PI / 180.
Proof. field. Qed.

(** [asin] and [acos] are monotone on [-1, 1]. *)
Lemma asin_le (x y : R) : -1 <= x -> x <= y -> y <= 1 -> asin x <= asin y.
Proof.
  intros Hx Hxy Hy.
  destruct (Rle_lt_dec (asin x) (asin y)) as [H|H]; [assumption|].
  exfalso.
  pose proof (asin_bound x). pose proof (asin_bound y).
  assert (sin (asin y) < sin (asin x)) by (apply sin_increasing_1; lra).
  rewrite !sin_asin in * by lra. lra.
Qed.

Lemma acos_le (x y : R) : -1 <= x -> x <= y -> y <= 1 -> acos y <= acos x.
Proof.
  intros Hx Hxy Hy. rewrite !acos_asin by lra.
  pose proof (asin_le x y Hx Hxy Hy). lra.
Qed.

Lemma asin_sin_deg (a : R) :
  -90 <= a <= 90 -> asin (sin (a * PI / 180)) = a * PI / 180.
Proof.
  intros [Hlo Hhi]. apply asin_sin.
  pose proof (deg_le _ _ Hlo). pose proof (deg_le _ _ Hhi).
  rewrite deg_90 in *.
  replace (-90 * PI / 180) with (- (PI / 2)) in * by field. lra.
Qed.

Lemma acos_cos_deg (a : R) :
  0 <= a <= 180 -> acos (cos (a * PI / 180)) = a * PI / 180.
Proof.
  intros [Hlo Hhi]. apply acos_cos.
  pose proof (deg_le _ _ Hlo). pose proof (deg_le _ _ Hhi).
  rewrite deg_180 in *.
  replace (0 * PI / 180) with 0 in * by field. lra.
Qed.

Lemma asin_le_deg (x a : R) :
  -90 <= a <= 90 -> -1 <= x -> x <= sin (a * PI / 180) ->
  asin x <= a * PI / 180.
Proof.
  intros Ha Hx Hxa. pose proof (SIN_bound (a * PI / 180)).
  apply Rle_trans with (asin (sin (a * PI / 180))).
  - apply asin_le; lra.
  - rewrite asin_sin_deg by assumption. lra.
Qed.

Lemma asin_ge_deg (x a : R) :
  -90 <= a <= 90 -> sin (a * PI / 180) <= x -> x <= 1 ->
  a * PI / 180 <= asin x.
Proof.
  intros Ha Hxa Hx. pose proof (SIN_bound (a * PI / 180)).
  apply Rle_trans with (asin (sin (a * PI / 180))).
  - rewrite asin_sin_deg by assumption. lra.
  - apply asin_le; lra.
Qed.

(** The hour angle, in hours, of a cosine between two known angles. *)
Lemma hours_of_acos (c a b : R) :
  0 <= a -> a <= b -> b <= 180 ->
  cos (b * PI / 180) <= c <= cos (a * PI / 180) ->
  a / 15 <= acos c * 180 / PI / 15 <= b / 15.
Proof.
  intros Ha Hab Hb [Hlo Hhi]. pose proof PI_RGT_0 as Hpi.
  pose proof (COS_bound (a * PI / 180)). pose proof (COS_bound (b * PI / 180)).
  assert (H1 : acos c <= b * PI / 180).
  { rewrite <- (acos_cos_deg b) by lra. apply acos_le; lra. }
  assert (H2 : a * PI / 180 <= acos c).
  { rewrite <- (acos_cos_deg a) by lra. apply acos_le; lra. }
  assert (Hk : 0 <= 180 * / PI)
    by (apply Rmult_le_pos; [lra | left; apply Rinv_0_lt_compat; lra]).
  assert (Ea : a = a * PI / 180 * (180 * / PI)) by (field; lra).
  assert (Eb : b = b * PI / 180 * (180 * / PI)) by (field; lra).
  assert (Ec : acos c * 180 / PI = acos c * (180 * / PI)) by (field; lra).
  assert (a <= acos c * 180 / PI).
  { rewrite Ec, Ea. apply Rmult_le_compat_r; assumption. }
  assert (acos c * 180 / PI <= b).
  { rewrite Ec, Eb. apply Rmult_le_compat_r; assumption. }
  lra.
Qed.

End Degrees.

(** ** Normalising a time of day *)

Section TimeOfDay.

Import Solar.

Lemma whileNegative_spec (t : R) :
  exists k : Z,
    whileNegative t = t + 24 * IZR k /\ 0 <= whileNegative t
    /\ (t < 24 -> whileNegative t < 24).
Proof.
  funelim (whileNegative t).
  - destruct H as (k & E & Hpos & Hlt).
    exists (k + 1)%Z. rewrite plus_IZR. repeat split; lra.
  - exists 0%Z. repeat split; lra.
Qed.

Lemma whileAtLeast24_spec (t : R) :
  exists k : Z,
    whileAtLeast24 t = t + 24 * IZR k /\ whileAtLeast24 t < 24
    /\ (0 <= t -> 0 <= whileAtLeast24 t).
Proof.
  funelim (whileAtLeast24 t).
  - destruct H as (k & E & Hlt & Hpos).
    exists (k - 1)%Z. rewrite minus_IZR. repeat split; lra.
  - exists 0%Z. repeat split; lra.
Qed.

(** The two loops bring any time into [0, 24) by a whole number of days. *)
Lemma normalise_spec (t : R) :
  exists k : Z,
    whileAtLeast24 (whileNegative t) = t + 24 * IZR k
    /\ 0 <= whileAtLeast24 (whileNegative t) < 24.
Proof.
  destruct (whileNegative_spec t) as (k1 & E1 & Hpos & _).
  destruct (whileAtLeast24_spec (whileNegative t)) as (k2 & E2 & Hlt & Hpos').
  exists (k1 + k2)%Z. rewrite plus_IZR. repeat split; lra.
Qed.

Lemma timeToHourMinute_range (t : R) :
  (0 <= HM.hour (timeToHourMinute t) <= 23)%Z
  /\ (0 <= HM.minute (timeToHourMinute t) <= 59)%Z.
Proof.
  unfold timeToHourMinute.
  destruct (normalise_spec t) as (k & _ & Hlo & Hhi).
  set (n := whileAtLeast24 (whileNegative t)) in *.
  assert (Hh : (0 <= Zfloor n <= 23)%Z).
  { split; [apply Zfloor_lub; simpl; lra|].
    assert (Zfloor n < 24)%Z; [|lia].
    apply lt_IZR. pose proof (Zfloor_bound n). lra. }
  cbv zeta.
  pose proof (Z.mod_pos_bound (Zfloor n + 1) 24 ltac:(lia)).
  destruct (Math_round ((n - IZR (Zfloor n)) * 60) >=? 60)%Z;
    cbn [HM.hour HM.minute]; lia.
Qed.

(** Minutes since midnight of the displayed time: the time in minutes,
    rounded to the nearest minute, modulo one day. *)
Lemma timeToHourMinute_minutes (t : R) :
  (HM.hour (timeToHourMinute t) * 60 + HM.minute (timeToHourMinute t)
   = Zfloor (60 * t + 1 / 2) mod 1440)%Z.
Proof.
  unfold timeToHourMinute.
  destruct (normalise_spec t) as (k & E & Hlo & Hhi).
  set (n := whileAtLeast24 (whileNegative t)) in *.
  set (h := Zfloor n).
  pose proof (Zfloor_bound n) as [Hfl Hfu]. fold h in Hfl, Hfu.
  assert (Hh : (0 <= h <= 23)%Z).
  { split; [apply Zfloor_lub; simpl; lra|].
    assert (h < 24)%Z; [|lia]. apply lt_IZR. lra. }
  cbv zeta. unfold Math_round.
  set (mraw := Zfloor ((n - IZR h) * 60 + 1 / 2)).
  assert (Hm : (0 <= mraw <= 60)%Z).
  { split; [apply Zfloor_lub; simpl; lra|].
    assert (mraw < 61)%Z; [|lia]. apply lt_IZR.
    pose proof (Zfloor_bound ((n - IZR h) * 60 + 1 / 2)) as [Hb _].
    fold mraw in Hb. lra. }
  assert (Hround : Zfloor (60 * t + 1 / 2) = (60 * h + mraw - 1440 * k)%Z).
  { replace (60 * t + 1 / 2)
      with ((n - IZR h) * 60 + 1 / 2 + IZR (60 * h - 1440 * k))
      by (rewrite minus_IZR, !mult_IZR; lra).
    rewrite Zfloor_addz. fold mraw. lia. }
  rewrite Hround.
  replace (60 * h + mraw - 1440 * k)%Z with (60 * h + mraw + (- k) * 1440)%Z
    by lia.
  rewrite Z.mod_add by lia.
  destruct (mraw >=? 60)%Z eqn:Hge; cbn [HM.hour HM.minute].
  - apply Z.geb_le in Hge. assert (mraw = 60)%Z by lia.
    replace (60 * h + mraw)%Z with (60 * (h + 1))%Z by lia.
    replace 1440%Z with (60 * 24)%Z by reflexivity.
    rewrite Z.mul_mod_distr_l by lia. lia.
  - assert (mraw < 60)%Z by (rewrite Z.geb_leb in Hge; apply Z.leb_gt in Hge; lia).
    rewrite Z.max_r, Z.min_r by lia.
    rewrite Z.mod_small by lia. lia.
Qed.

End TimeOfDay.

(** ** The hour-angle equation *)

Section HourAngle.

Import Solar.

Lemma calculatePrayerTime_unfold
    (lat lng declination equationOfTime angle : R) (isSunrise : bool)
    (timezoneOffset : R) :
  calculatePrayerTime lat lng declination equationOfTime angle isSunrise
                      timezoneOffset =
  if Rlt_dec 1 (Rabs (cosHourAngle lat declination angle)) then
    if isSunrise then 6 + timezoneOffset else 18 + timezoneOffset
  else if isSunrise then
    getSolarNoon lng equationOfTime timezoneOffset
    - hourAngle lat declination angle
  else
    getSolarNoon lng equationOfTime timezoneOffset
    + hourAngle lat declination angle.
Proof. reflexivity. Qed.


(** The equation has a solution exactly when the sine of the target
    elevation lies between the sines of the sun's lowest and highest
    elevations of the day. *)
Lemma cosHourAngle_solvable (lat declination angle : R) :
  0 < cos (lat * PI / 180) * cos (declination * PI / 180) ->
  (Rabs (cosHourAngle lat declination angle) <= 1 <->
   - cos ((lat + declination) * PI / 180) <= sin (angle * PI / 180)
     <= cos ((lat - declination) * PI / 180)).
Proof.
  intros HB. unfold cosHourAngle.
  rewrite deg_plus, deg_minus, cos_plus, cos_minus.
  set (s := sin (angle * PI / 180)).
  set (A := sin (lat * PI / 180) * sin (declination * PI / 180)).
  set (B := cos (lat * PI / 180) * cos (declination * PI / 180)) in *.
  assert (Hinv : 0 < / B) by (apply Rinv_0_lt_compat; assumption).
  assert (E : (s - A) / B * B = s - A) by (field; lra).
  split.
  - intros H. apply Rabs_le_iff in H. destruct H as [H1 H2].
    split.
    + assert (-1 * B <= (s - A) / B * B)
        by (apply Rmult_le_compat_r; lra). lra.
    + assert ((s - A) / B * B <= 1 * B)
        by (apply Rmult_le_compat_r; lra). lra.
  - intros [H1 H2]. apply Rabs_le_iff. split.
    + apply Rmult_le_reg_r with B; [assumption|]. rewrite E. lra.
    + apply Rmult_le_reg_r with B; [assumption|]. rewrite E. lra.
Qed.

(** On the no-fallback branch the hour angle is between 0 and 12 hours. *)
Lemma hourAngle_range (lat declination angle : R) :
  0 <= hourAngle lat declination angle <= 12.
Proof.
  unfold hourAngle. pose proof PI_RGT_0 as Hpi.
  pose proof (acos_bound (cosHourAngle lat declination angle)) as [Hlo Hhi].
  set (x := acos _) in *.
  assert (Hinv : 0 < / PI) by (apply Rinv_0_lt_compat; assumption).
  assert (E : x * 180 / PI / 15 = x * / PI * 12) by (field; lra).
  rewrite E.
  assert (0 <= x * / PI) by (apply Rmult_le_pos; lra).
  assert (x * / PI <= 1).
  { replace 1 with (PI * / PI) by (field; lra).
    apply Rmult_le_compat_r; lra. }
  lra.
Qed.

(** At the equator the quotient is [sin angle / cos declination]. *)
Lemma cosHourAngle_equator (declination angle : R) :
  cosHourAngle 0 declination angle =
  sin (angle * PI / 180) / cos (declination * PI / 180).
Proof.
  unfold cosHourAngle. rewrite sin_deg_0, cos_deg_0.
  unfold Rdiv. rewrite Rmult_0_l, Rminus_0_r, Rmult_1_l. reflexivity.
Qed.

End HourAngle.

(** ** The declination *)

Section Declination.

Import Solar.

Lemma getSolarDeclination_unfold (julianDate : R) :
  getSolarDeclination julianDate =
  asin (sin (23.439 * PI / 180)
        * sin (eclipticLongitude julianDate * PI / 180)) * 180 / PI.
Proof. reflexivity. Qed.

Lemma getEquationOfTime_unfold (julianDate : R) :
  getEquationOfTime julianDate =
  4 * (meanLongitude julianDate
       - Math_atan2 (cos (23.439 * PI / 180)
                     * sin (eclipticLongitude julianDate * PI / 180))
                    (cos (eclipticLongitude julianDate * PI / 180))
         * 180 / PI).
Proof. reflexivity. Qed.

Lemma rad_of_deg_of_rad (x : R) : x * 180 / PI * PI / 180 = x.
Proof. pose proof PI_RGT_0. field. lra. Qed.

Lemma deg_of_rad_le (x a : R) : x <= a * PI / 180 -> x * 180 / PI <= a.
Proof.
  intros H. pose proof PI_RGT_0 as Hpi.
  assert (Hk : 0 <= 180 * / PI)
    by (apply Rmult_le_pos; [lra | left; apply Rinv_0_lt_compat; lra]).
  replace (x * 180 / PI) with (x * (180 * / PI)) by (field; lra).
  replace a with (a * PI / 180 * (180 * / PI)) by (field; lra).
  apply Rmult_le_compat_r; assumption.
Qed.

Lemma deg_of_rad_ge (x a : R) : a * PI / 180 <= x -> a <= x * 180 / PI.
Proof.
  intros H. pose proof PI_RGT_0 as Hpi.
  assert (Hk : 0 <= 180 * / PI)
    by (apply Rmult_le_pos; [lra | left; apply Rinv_0_lt_compat; lra]).
  replace (x * 180 / PI) with (x * (180 * / PI)) by (field; lra).
  replace a with (a * PI / 180 * (180 * / PI)) by (field; lra).
  apply Rmult_le_compat_r; assumption.
Qed.

Lemma sin_product_bound (e l : R) :
  0 <= sin e -> - sin e <= sin e * sin l <= sin e.
Proof. intros He. pose proof (SIN_bound l) as [Hlo Hhi]. split; nra. Qed.

(** The declination never leaves the obliquity band. *)
Lemma getSolarDeclination_bound (julianDate : R) :
  -23.439 <= getSolarDeclination julianDate <= 23.439.
Proof.
  rewrite getSolarDeclination_unfold.
  set (l := eclipticLongitude julianDate * PI / 180).
  assert (He : 0 < sin (23.439 * PI / 180)) by (apply sin_deg_pos; lra).
  pose proof (SIN_bound (23.439 * PI / 180)) as [_ He1].
  pose proof (sin_product_bound (23.439 * PI / 180) l ltac:(lra)) as [Hlo Hhi].
  split.
  - apply deg_of_rad_ge. apply asin_ge_deg; try lra.
    replace (-23.439 * PI / 180) with (- (23.439 * PI / 180)) by lra.
    rewrite sin_neg. lra.
  - apply deg_of_rad_le. apply asin_le_deg; lra.
Qed.

(** When the sine of the ecliptic longitude is at most [- cos 3 deg], the
    declination is at most -8 degrees. *)
Lemma getSolarDeclination_winter (julianDate : R) :
  sin (eclipticLongitude julianDate * PI / 180) <= - cos (3 * PI / 180) ->
  getSolarDeclination julianDate <= -8.
Proof.
  intros H. rewrite getSolarDeclination_unfold.
  set (l := eclipticLongitude julianDate * PI / 180) in *.
  assert (He : 0 < sin (23.439 * PI / 180)) by (apply sin_deg_pos; lra).
  pose proof (SIN_bound (23.439 * PI / 180)) as [_ He1].
  pose proof (sin_product_bound (23.439 * PI / 180) l ltac:(lra)) as [Hlo Hhi].
  pose proof (SIN_bound (8 * PI / 180)) as [_ H8].
  (* sin e * cos 3 = (sin (e + 3) + sin (e - 3)) / 2 >= sin 8 *)
  assert (Hprod : sin (23.439 * PI / 180) * cos (3 * PI / 180)
                  = (sin ((23.439 + 3) * PI / 180)
                     + sin ((23.439 - 3) * PI / 180)) / 2).
  { rewrite deg_plus, deg_minus, sin_plus, sin_minus. field. }
  assert (sin (8 * PI / 180) <= sin ((23.439 + 3) * PI / 180))
    by (apply sin_deg_le; lra).
  assert (sin (8 * PI / 180) <= sin ((23.439 - 3) * PI / 180))
    by (apply sin_deg_le; lra).
  assert (Hle : sin (23.439 * PI / 180) * sin l <= - sin (8 * PI / 180))
    by nra.
  apply deg_of_rad_le. apply asin_le_deg; try lra.
  replace (-8 * PI / 180) with (- (8 * PI / 180)) by lra.
  rewrite sin_neg. lra.
Qed.

(** When the sine of the ecliptic longitude is not negative, neither is
    the declination. *)
Lemma getSolarDeclination_summer (julianDate : R) :
  0 <= sin (eclipticLongitude julianDate * PI / 180) ->
  0 <= getSolarDeclination julianDate.
Proof.
  intros H. rewrite getSolarDeclination_unfold.
  set (l := eclipticLongitude julianDate * PI / 180) in *.
  assert (He : 0 < sin (23.439 * PI / 180)) by (apply sin_deg_pos; lra).
  pose proof (sin_product_bound (23.439 * PI / 180) l ltac:(lra)) as [Hlo Hhi].
  pose proof (SIN_bound (23.439 * PI / 180)) as [_ He1].
  assert (0 <= sin (23.439 * PI / 180) * sin l) by nra.
  apply deg_of_rad_ge.
  replace (0 * PI / 180) with 0 by field. rewrite <- asin_0.
  apply asin_le; lra.
Qed.

End Declination.

(** ** The solstices of 2024 *)

Section Solstices.

Import Solar Fixtures.

Lemma getJulianDate_dec_21 : getJulianDate y2024_dec_21 = 2460666.
Proof.
  rewrite getJulianDate_julianDate. unfold Spec.julianDate, y2024_dec_21.
  cbn [getFullYear getMonth getDate getHours getMinutes getSeconds].
  cbv zeta.
  replace (IZR (21 + (153 * (11 + 1 + 12 * ((14 - (11 + 1)) / 12) - 3) + 2) / 5
                + 365 * (2024 - (14 - (11 + 1)) / 12)
                + (2024 - (14 - (11 + 1)) / 12) / 4
                - (2024 - (14 - (11 + 1)) / 12) / 100
                + (2024 - (14 - (11 + 1)) / 12) / 400 + 1721119))
    with 2460666 by (apply IZR_eq; reflexivity).
  lra.
Qed.

Lemma getJulianDate_jun_21 : getJulianDate y2024_jun_21 = 2460483.
Proof.
  rewrite getJulianDate_julianDate. unfold Spec.julianDate, y2024_jun_21.
  cbn [getFullYear getMonth getDate getHours getMinutes getSeconds].
  cbv zeta.
  replace (IZR (21 + (153 * (5 + 1 + 12 * ((14 - (5 + 1)) / 12) - 3) + 2) / 5
                + 365 * (2024 - (14 - (5 + 1)) / 12)
                + (2024 - (14 - (5 + 1)) / 12) / 4
                - (2024 - (14 - (5 + 1)) / 12) / 100
                + (2024 - (14 - (5 + 1)) / 12) / 400 + 1721119))
    with 2460483 by (apply IZR_eq; reflexivity).
  lra.
Qed.

Lemma meanLongitude_dec_21 : meanLongitude 2460666 = 270.5499354.
Proof.
  unfold meanLongitude. rewrite (rem_eq _ _ 25); simpl; lra || lia.
Qed.

Lemma meanLongitude_jun_21 : meanLongitude 2460483 = 90.1764612.
Proof.
  unfold meanLongitude. rewrite (rem_eq _ _ 25); simpl; lra || lia.
Qed.

(** The ecliptic longitude stays within 1.935 degrees of the mean
    longitude. *)
Lemma eclipticLongitude_near (julianDate : R) :
  meanLongitude julianDate - 1.935 <= eclipticLongitude julianDate
  <= meanLongitude julianDate + 1.935.
Proof.
  unfold eclipticLongitude.
  pose proof (SIN_bound (meanAnomaly julianDate * PI / 180)).
  pose proof (SIN_bound (2 * meanAnomaly julianDate * PI / 180)).
  lra.
Qed.

End Solstices.

(** ** When the hour-angle equation has a solution *)

Section Solvable.

Import Solar.

Lemma sin_deg_le_iff (a b : R) :
  -90 <= a <= 90 -> -90 <= b <= 90 ->
  (sin (a * PI / 180) <= sin (b * PI / 180) <-> a <= b).
Proof.
  intros Ha Hb. split.
  - intros H. destruct (Rle_lt_dec a b) as [Hab|Hab]; [assumption|].
    pose proof (sin_deg_lt b a ltac:(lra) Hab ltac:(lra)). lra.
  - intros H. apply sin_deg_le; lra.
Qed.

(** The cosine of an angle of at most 180 degrees either way, as a sine. *)
Lemma cos_deg_abs (x : R) :
  cos (x * PI / 180) = sin ((90 - Rabs x) * PI / 180).
Proof.
  rewrite <- cos_deg_sin. unfold Rabs. destruct (Rcase_abs x).
  - rewrite cos_deg_opp. reflexivity.
  - reflexivity.
Qed.

(** The equation [cos H = cosHourAngle] has a solution exactly when the
    target elevation [angle] is between the lowest and the highest
    elevation the sun reaches that day. *)
Lemma cosHourAngle_solvable_deg (lat declination angle : R) :
  -90 < lat < 90 -> -90 < declination < 90 -> -90 <= angle <= 90 ->
  (Rabs (cosHourAngle lat declination angle) <= 1 <->
   Rabs (lat + declination) - 90 <= angle <= 90 - Rabs (lat - declination)).
Proof.
  intros Hlat Hdec Hang.
  assert (HB : 0 < cos (lat * PI / 180) * cos (declination * PI / 180)).
  { apply Rmult_lt_0_compat; apply cos_deg_pos; assumption. }
  rewrite (cosHourAngle_solvable lat declination angle HB).
  rewrite (cos_deg_abs (lat + declination)), (cos_deg_abs (lat - declination)).
  assert (H1 : 0 <= Rabs (lat + declination) <= 180).
  { split; [apply Rabs_pos|]. apply Rabs_le_iff. lra. }
  assert (H2 : 0 <= Rabs (lat - declination) <= 180).
  { split; [apply Rabs_pos|]. apply Rabs_le_iff. lra. }
  replace (- sin ((90 - Rabs (lat + declination)) * PI / 180))
    with (sin ((Rabs (lat + declination) - 90) * PI / 180)).
  2:{ rewrite <- sin_neg. f_equal. field. }
  rewrite (sin_deg_le_iff (Rabs (lat + declination) - 90) angle) by lra.
  rewrite (sin_deg_le_iff angle (90 - Rabs (lat - declination))) by lra.
  reflexivity.
Qed.

(** At the equator, every elevation up to 66.561 degrees either side of
    the horizon is reached on every day. *)
Lemma equator_solvable (julianDate angle : R) :
  -66.561 <= angle <= 66.561 ->
  Rabs (cosHourAngle 0 (getSolarDeclination julianDate) angle) <= 1.
Proof.
  intros Hang. pose proof (getSolarDeclination_bound julianDate) as Hdec.
  apply cosHourAngle_solvable_deg; try lra.
  rewrite Rplus_0_l, Rminus_0_l, Rabs_Ropp.
  assert (Rabs (getSolarDeclination julianDate) <= 23.439)
    by (apply Rabs_le_iff; lra).
  lra.
Qed.

(** At 80 degrees north, an elevation is reached exactly when it is
    within 10 degrees of the declination. *)
Lemma north80_solvable (julianDate angle : R) :
  -90 <= angle <= 90 ->
  (Rabs (cosHourAngle 80 (getSolarDeclination julianDate) angle) <= 1 <->
   getSolarDeclination julianDate - 10 <= angle
   <= getSolarDeclination julianDate + 10).
Proof.
  intros Hang. pose proof (getSolarDeclination_bound julianDate) as Hdec.
  rewrite cosHourAngle_solvable_deg by lra.
  rewrite !Rabs_pos_eq by lra. lra.
Qed.

End Solvable.

(** ** The sun on 21 December and 21 June 2024 *)

Section SolsticeSun.

Import Solar Fixtures.

Lemma deg_270 : 270 * PI / 180 = 3 * (PI / 2).
Proof. field. Qed.

Lemma sin_deg_270_plus (d : R) :
  sin ((270 + d) * PI / 180) = - cos (d * PI / 180).
Proof. rewrite deg_plus, deg_270, sin_plus, sin_3PI2, cos_3PI2. ring. Qed.

Lemma cos_deg_270_plus (d : R) :
  cos ((270 + d) * PI / 180) = sin (d * PI / 180).
Proof. rewrite deg_plus, deg_270, cos_plus, sin_3PI2, cos_3PI2. ring. Qed.

(** Within 3 degrees of 270 the sine is at most [- cos 3 deg] and the
    cosine at most [sin 3 deg] in absolute value. *)
Lemma near_270 (lam : R) :
  267 <= lam <= 273 ->
  sin (lam * PI / 180) <= - cos (3 * PI / 180)
  /\ - sin (3 * PI / 180) <= cos (lam * PI / 180) <= sin (3 * PI / 180).
Proof.
  intros Hl. replace lam with (270 + (lam - 270)) by ring.
  rewrite sin_deg_270_plus, cos_deg_270_plus.
  set (d := lam - 270). assert (Hd : -3 <= d <= 3) by (unfold d; lra).
  split.
  - assert (cos (3 * PI / 180) <= cos (d * PI / 180)); [|lra].
    destruct (Rle_lt_dec 0 d).
    + apply cos_deg_le; lra.
    + rewrite <- (cos_deg_opp d). apply cos_deg_le; lra.
  - split.
    + replace (- sin (3 * PI / 180)) with (sin (- (3) * PI / 180))
        by (rewrite sin_deg_opp; reflexivity).
      apply sin_deg_le; lra.
    + apply sin_deg_le; lra.
Qed.

Lemma eclipticLongitude_dec_21 :
  267 <= eclipticLongitude (getJulianDate y2024_dec_21) <= 273.
Proof.
  rewrite getJulianDate_dec_21.
  pose proof (eclipticLongitude_near 2460666) as H.
  rewrite meanLongitude_dec_21 in H. lra.
Qed.

Lemma eclipticLongitude_jun_21 :
  87 <= eclipticLongitude (getJulianDate y2024_jun_21) <= 93.
Proof.
  rewrite getJulianDate_jun_21.
  pose proof (eclipticLongitude_near 2460483) as H.
  rewrite meanLongitude_jun_21 in H. lra.
Qed.

(** On 21 December 2024 the declination is at most -8 degrees. *)
Lemma getSolarDeclination_dec_21 :
  -23.439 <= getSolarDeclination (getJulianDate y2024_dec_21) <= -8.
Proof.
  split; [apply getSolarDeclination_bound|].
  apply getSolarDeclination_winter.
  apply near_270. apply eclipticLongitude_dec_21.
Qed.

(** On 21 June 2024 the declination is not negative. *)
Lemma getSolarDeclination_jun_21 :
  0 <= getSolarDeclination (getJulianDate y2024_jun_21) <= 23.439.
Proof.
  split; [|apply getSolarDeclination_bound].
  apply getSolarDeclination_summer.
  pose proof eclipticLongitude_jun_21 as [Hlo Hhi].
  pose proof (deg_le _ _ Hlo). pose proof (deg_le _ _ Hhi).
  pose proof PI_RGT_0.
  apply sin_ge_0; lra.
Qed.

End SolsticeSun.

(** ** The six moments: which side of solar noon *)

Section Moments.

Import Solar Fixtures.

Variables lat lng : R.
Variable date : Date.

Let declination := getSolarDeclination (getJulianDate date).
Let equationOfTime := getEquationOfTime (getJulianDate date).
Let solarNoon := getSolarNoon lng equationOfTime (timezoneOffsetOf date).

Lemma dhuhrTime_noon : dhuhrTime (moments lat lng date) = solarNoon.
Proof. reflexivity. Qed.

(** Fajr is computed with [isSunrise = false]: on the solved branch it is
    solar noon PLUS the hour angle of the 18 degree depression. *)
Lemma fajrTime_solved :
  Rabs (cosHourAngle lat declination fajrAngle) <= 1 ->
  fajrTime (moments lat lng date)
  = solarNoon + hourAngle lat declination fajrAngle.
Proof.
  intros H. unfold moments. cbn [fajrTime].
  rewrite calculatePrayerTime_unfold. fold declination.
  destruct (Rlt_dec 1 _) as [Hgt|_]; [lra | reflexivity].
Qed.

Lemma sunriseTime_solved :
  Rabs (cosHourAngle lat declination maghribAngle) <= 1 ->
  sunriseTime (moments lat lng date)
  = solarNoon - hourAngle lat declination maghribAngle.
Proof.
  intros H. unfold moments. cbn [sunriseTime].
  rewrite calculatePrayerTime_unfold. fold declination.
  destruct (Rlt_dec 1 _) as [Hgt|_]; [lra | reflexivity].
Qed.

Lemma maghribTime_solved :
  Rabs (cosHourAngle lat declination maghribAngle) <= 1 ->
  maghribTime (moments lat lng date)
  = solarNoon + hourAngle lat declination maghribAngle.
Proof.
  intros H. unfold moments. cbn [maghribTime].
  rewrite calculatePrayerTime_unfold. fold declination.
  destruct (Rlt_dec 1 _) as [Hgt|_]; [lra | reflexivity].
Qed.



(** On the fallback branch Fajr, Maghrib and Isha are 18 + offset and
    Sunrise is 6 + offset. *)
Lemma fajrTime_fallback :
  1 < Rabs (cosHourAngle lat declination fajrAngle) ->
  fajrTime (moments lat lng date) = 18 + timezoneOffsetOf date.
Proof.
  intros H. unfold moments. cbn [fajrTime].
  rewrite calculatePrayerTime_unfold. fold declination.
  destruct (Rlt_dec 1 _) as [_|Hn]; [reflexivity | contradiction].
Qed.

Lemma sunriseTime_fallback :
  1 < Rabs (cosHourAngle lat declination maghribAngle) ->
  sunriseTime (moments lat lng date) = 6 + timezoneOffsetOf date.
Proof.
  intros H. unfold moments. cbn [sunriseTime].
  rewrite calculatePrayerTime_unfold. fold declination.
  destruct (Rlt_dec 1 _) as [_|Hn]; [reflexivity | contradiction].
Qed.

Lemma maghribTime_fallback :
  1 < Rabs (cosHourAngle lat declination maghribAngle) ->
  maghribTime (moments lat lng date) = 18 + timezoneOffsetOf date.
Proof.
  intros H. unfold moments. cbn [maghribTime].
  rewrite calculatePrayerTime_unfold. fold declination.
  destruct (Rlt_dec 1 _) as [_|Hn]; [reflexivity | contradiction].
Qed.

Lemma ishaTime_fallback :
  1 < Rabs (cosHourAngle lat declination ishaAngle) ->
  ishaTime (moments lat lng date) = 18 + timezoneOffsetOf date.
Proof.
  intros H. unfold moments. cbn [ishaTime].
  rewrite calculatePrayerTime_unfold. fold declination.
  destruct (Rlt_dec 1 _) as [_|Hn]; [reflexivity | contradiction].
Qed.

End Moments.

(** ** Hour angles at the equator *)

Section Equator.

Import Solar Fixtures.

(** For a depression of [p] degrees (at most 40), the hour angle at the
    equator is between [(90 + p) / 15] and [(90 + p + 23.439) / 15]
    hours, whatever the date. *)
Lemma equator_hourAngle_bounds (julianDate p : R) :
  0 <= p <= 40 ->
  (90 + p) / 15 <= hourAngle 0 (getSolarDeclination julianDate) (- p)
  <= (90 + p + 23.439) / 15.
Proof.
  intros Hp. unfold hourAngle. rewrite cosHourAngle_equator.
  pose proof (getSolarDeclination_bound julianDate) as Hdec.
  set (d := getSolarDeclination julianDate) in *.
  rewrite sin_deg_opp.
  assert (Hs : 0 <= sin (p * PI / 180)).
  { rewrite <- sin_deg_0. apply sin_deg_le; lra. }
  assert (He : 0 < cos (23.439 * PI / 180)) by (apply cos_deg_pos; lra).
  assert (Hcd : cos (23.439 * PI / 180) <= cos (d * PI / 180)).
  { destruct (Rle_lt_dec 0 d).
    - apply cos_deg_le; lra.
    - rewrite <- (cos_deg_opp d). apply cos_deg_le; lra. }
  pose proof (COS_bound (d * PI / 180)) as [_ Hc1].
  set (c := cos (d * PI / 180)) in *.
  assert (Hinv : 0 < / c) by (apply Rinv_0_lt_compat; lra).
  assert (Hinv1 : 1 <= / c).
  { rewrite <- Rinv_1. apply Rinv_le_contravar; lra. }
  assert (Hinve : / c <= / cos (23.439 * PI / 180))
    by (apply Rinv_le_contravar; lra).
  apply hours_of_acos; try lra.
  split.
  - (* cos (90 + p + e) = - sin (p + e) <= - sin p / c *)
    replace (90 + p + 23.439) with (90 + (p + 23.439)) by ring.
    rewrite cos_deg_90_plus.
    assert (Hprod : sin ((p + 23.439) * PI / 180) * cos (23.439 * PI / 180)
                    = (sin ((p + 2 * 23.439) * PI / 180)
                       + sin (p * PI / 180)) / 2).
    { assert (E1 : (p + 2 * 23.439) * PI / 180
                   = (p + 23.439) * PI / 180 + 23.439 * PI / 180) by field.
      assert (E2 : p * PI / 180
                   = (p + 23.439) * PI / 180 - 23.439 * PI / 180) by field.
      rewrite E1, E2, sin_plus, sin_minus. field. }
    assert (Hmono : sin (p * PI / 180) <= sin ((p + 2 * 23.439) * PI / 180))
      by (apply sin_deg_le; lra).
    assert (Hkey : sin (p * PI / 180)
                   <= sin ((p + 23.439) * PI / 180) * cos (23.439 * PI / 180))
      by lra.
    assert (Hq : sin (p * PI / 180) * / cos (23.439 * PI / 180)
                 <= sin ((p + 23.439) * PI / 180)).
    { apply Rmult_le_reg_r with (cos (23.439 * PI / 180)); [assumption|].
      rewrite Rmult_assoc, Rinv_l by lra. lra. }
    assert (sin (p * PI / 180) * / c
            <= sin (p * PI / 180) * / cos (23.439 * PI / 180))
      by (apply Rmult_le_compat_l; assumption).
    unfold Rdiv. lra.
  - (* - sin p / c <= - sin p = cos (90 + p) *)
    rewrite cos_deg_90_plus.
    assert (sin (p * PI / 180) * 1 <= sin (p * PI / 180) * / c)
      by (apply Rmult_le_compat_l; assumption).
    unfold Rdiv. lra.
Qed.

End Equator.

(** ** Fajr at the equator *)

Section FajrSide.

Import Solar Fixtures.

(** C1, evaluated at latitude 0, longitude 0, 21 December 2024.  The
    hour-angle equation has a solution for the 18 degree depression, and
    the Fajr time the code computes is solar noon PLUS that hour angle,
    at least 7.2 hours after solar noon: it is not solar noon minus the
    hour angle. *)
Theorem fajrTime_equator_dec_21 :
  let t := moments 0 0 y2024_dec_21 in
  let declination := getSolarDeclination (getJulianDate y2024_dec_21) in
  Rabs (cosHourAngle 0 declination fajrAngle) <= 1
  /\ fajrTime t = dhuhrTime t + hourAngle 0 declination fajrAngle
  /\ 7.2 <= hourAngle 0 declination fajrAngle
  /\ fajrTime t <> dhuhrTime t - hourAngle 0 declination fajrAngle
  /\ dhuhrTime t < fajrTime t.
Proof.
  intros t declination.
  assert (Hsolv : Rabs (cosHourAngle 0 declination fajrAngle) <= 1)
    by (apply equator_solvable; unfold fajrAngle; lra).
  assert (Hfajr : fajrTime t = dhuhrTime t + hourAngle 0 declination fajrAngle)
    by (apply fajrTime_solved; exact Hsolv).
  assert (HH : 7.2 <= hourAngle 0 declination fajrAngle).
  { pose proof (equator_hourAngle_bounds (getJulianDate y2024_dec_21) 18
                  ltac:(lra)) as [Hlo _].
    replace (- (18)) with fajrAngle in Hlo by (unfold fajrAngle; lra).
    fold declination in Hlo. lra. }
  repeat split; try assumption; lra.
Qed.

End FajrSide.

(** ** 80 degrees north *)

Section North80.

Import Solar Fixtures.

(** At 80 N the fallback is taken for a depression of [p] degrees (at
    least 13.439, so that the sun is never wholly below it) exactly when
    the declination is more than [10 - p] degrees. *)
Lemma north80_fallback_iff (julianDate p : R) :
  13.439 <= p <= 90 ->
  (1 < Rabs (cosHourAngle 80 (getSolarDeclination julianDate) (- p))
   <-> 10 - p < getSolarDeclination julianDate).
Proof.
  intros Hp.
  pose proof (getSolarDeclination_bound julianDate) as Hdec.
  pose proof (north80_solvable julianDate (- p) ltac:(lra)) as Hs.
  set (d := getSolarDeclination julianDate) in *.
  split; intros H.
  - destruct (Rle_lt_dec d (10 - p)) as [Hle|Hgt]; [|assumption].
    assert (Rabs (cosHourAngle 80 d (- p)) <= 1) by (apply Hs; lra). lra.
  - destruct (Rle_lt_dec (Rabs (cosHourAngle 80 d (- p))) 1) as [Hle|Hgt];
      [|assumption].
    apply Hs in Hle. lra.
Qed.

(** C2, as amended.  At latitude 80 N, for every longitude and date: the
    fallback branch is taken for Fajr (18 degrees) exactly when the
    declination is above -8 degrees, and for Isha (17 degrees) exactly
    when it is above -7 degrees; when Isha takes the fallback its local
    time, before normalisation, is 18 + utcOffset. *)
Theorem north80_fallback (lng : R) (date : Date) :
  let declination := getSolarDeclination (getJulianDate date) in
  (1 < Rabs (cosHourAngle 80 declination fajrAngle) <-> -8 < declination)
  /\ (1 < Rabs (cosHourAngle 80 declination ishaAngle) <-> -7 < declination)
  /\ (-7 < declination ->
      ishaTime (moments 80 lng date) = 18 + timezoneOffsetOf date).
Proof.
  intros declination.
  pose proof (north80_fallback_iff (getJulianDate date) 18 ltac:(lra)) as Hf.
  pose proof (north80_fallback_iff (getJulianDate date) 17 ltac:(lra)) as Hi.
  fold declination in Hf, Hi.
  replace (- (18)) with fajrAngle in Hf by (unfold fajrAngle; lra).
  replace (- (17)) with ishaAngle in Hi by (unfold ishaAngle; lra).
  replace (10 - 18) with (-8) in Hf by lra.
  replace (10 - 17) with (-7) in Hi by lra.
  split; [exact Hf | split; [exact Hi|]].
  intros H. apply ishaTime_fallback. apply Hi. exact H.
Qed.

(** On 21 June 2024 the declination is above -7 degrees, and Isha at
    80 N is the fallback 18 + utcOffset. *)
Lemma north80_fallback_witness :
  ishaTime (moments 80 0 y2024_jun_21) = 18 + timezoneOffsetOf y2024_jun_21.
Proof.
  apply (north80_fallback 0 y2024_jun_21).
  pose proof getSolarDeclination_jun_21. lra.
Defined.

(** C2 as stated fails on 21 December 2024 at 80 N: the declination is at
    most -8 degrees, the hour-angle equation has a solution for both the
    18 and the 17 degree depression, and neither Fajr nor Isha takes the
    fallback branch. *)
Lemma north80_dec_21_solved :
  let declination := getSolarDeclination (getJulianDate y2024_dec_21) in
  let t := moments 80 0 y2024_dec_21 in
  Rabs (cosHourAngle 80 declination fajrAngle) <= 1
  /\ Rabs (cosHourAngle 80 declination ishaAngle) <= 1
  /\ ~ (1 < Rabs (cosHourAngle 80 declination fajrAngle)
        /\ 1 < Rabs (cosHourAngle 80 declination ishaAngle)
        /\ fajrTime t = 6 + timezoneOffsetOf y2024_dec_21
        /\ ishaTime t = 18 + timezoneOffsetOf y2024_dec_21).
Proof.
  intros declination t.
  pose proof getSolarDeclination_dec_21 as Hdec. unfold declination.
  assert (Hf : Rabs (cosHourAngle 80
                 (getSolarDeclination (getJulianDate y2024_dec_21))
                 fajrAngle) <= 1).
  { apply north80_solvable; unfold fajrAngle; lra. }
  assert (Hi : Rabs (cosHourAngle 80
                 (getSolarDeclination (getJulianDate y2024_dec_21))
                 ishaAngle) <= 1).
  { apply north80_solvable; unfold ishaAngle; lra. }
  split; [exact Hf | split; [exact Hi|]].
  intros (Hgt & _). lra.
Qed.

End North80.

(** ** The clock inside [calculatePrayerTimes] *)

Section Clock.

Import Solar PrayerTimes Fixtures.
Local Open Scope Z_scope.

Lemma annotate_clock (now now' : Date) (times : list Entry.t) :
  Spec.nowMinutes now = Spec.nowMinutes now' ->
  annotate now times = annotate now' times.
Proof.
  intros H. unfold annotate.
  change (getHours now * 60 + getMinutes now) with (Spec.nowMinutes now).
  change (getHours now' * 60 + getMinutes now') with (Spec.nowMinutes now').
  rewrite H. reflexivity.
Qed.

Lemma mapFrom_ext_fields {A B C : Type} (f g : A -> Z -> B) (h : B -> C)
    (l : list A) (i : Z) :
  (forall x j, h (f x j) = h (g x j)) ->
  map h (mapFrom f i l) = map h (mapFrom g i l).
Proof.
  intros Hfg. revert i. induction l as [|a l IH]; intros i; simpl.
  - reflexivity.
  - rewrite Hfg, IH. reflexivity.
Qed.

Lemma annotate_fields (now now' : Date) (times : list Entry.t) :
  map (fun p => (id p, name p, time p)) (annotate now times)
  = map (fun p => (id p, name p, time p)) (annotate now' times).
Proof.
  unfold annotate, mapIndexed. apply mapFrom_ext_fields.
  intros x j. reflexivity.
Qed.

Lemma map_mapFrom {A B C : Type} (f : A -> Z -> B) (h : B -> C) (g : A -> C)
    (l : list A) (i : Z) :
  (forall x j, h (f x j) = g x) -> map h (mapFrom f i l) = map g l.
Proof.
  intros Hfg. revert i. induction l as [|a l IH]; intros i; simpl.
  - reflexivity.
  - rewrite Hfg, IH. reflexivity.
Qed.

Lemma annotate_isPassed (now : Date) (times : list Entry.t) :
  map isPassed (annotate now times)
  = map (fun e => Spec.prayerMinutes e <=? Spec.nowMinutes now) times.
Proof.
  unfold annotate, mapIndexed. apply map_mapFrom.
  intros x j. reflexivity.
Qed.

(** C4, as amended.  [calculatePrayerTimes] reads the clock inside its
    body.  The id, name and time of every entry are determined by
    latitude, longitude and date alone; and two calls with identical
    arguments return identical lists, flags included, when the clock shows
    the same hour and minute at both calls. *)
Theorem calculatePrayerTimes_clock
    (now now' : Date) (lat lng : R) (date : Date) :
  map (fun p => (id p, name p, time p)) (calculatePrayerTimes now lat lng date)
  = map (fun p => (id p, name p, time p))
        (calculatePrayerTimes now' lat lng date)
  /\ (Spec.nowMinutes now = Spec.nowMinutes now' ->
      calculatePrayerTimes now lat lng date
      = calculatePrayerTimes now' lat lng date).
Proof.
  unfold calculatePrayerTimes. split.
  - apply annotate_fields.
  - apply annotate_clock.
Qed.

Lemma calculatePrayerTimes_clock_witness :
  calculatePrayerTimes midnight 0 0 y2024_dec_21
  = calculatePrayerTimes (mkDate 2025 0 1 0 0 30 0) 0 0 y2024_dec_21.
Proof.
  apply (calculatePrayerTimes_clock midnight (mkDate 2025 0 1 0 0 30 0)).
  reflexivity.
Defined.

(** Two times of day between one minute and one day less a minute apart
    are displayed with different minutes since midnight. *)
Lemma entry_minutes_differ (id1 name1 id2 name2 : string) (t1 t2 : R) :
  (1 / 60 <= t2 - t1 <= 24 - 1 / 60)%R ->
  Spec.prayerMinutes (entry id1 name1 t1)
  <> Spec.prayerMinutes (entry id2 name2 t2).
Proof.
  intros [Hlo Hhi]. unfold Spec.prayerMinutes, entry.
  cbn [Entry.hour Entry.minute].
  rewrite !timeToHourMinute_minutes.
  pose proof (Zfloor_bound (60 * t1 + 1 / 2)) as [L1 U1].
  pose proof (Zfloor_bound (60 * t2 + 1 / 2)) as [L2 U2].
  set (z1 := Zfloor (60 * t1 + 1 / 2)) in *.
  set (z2 := Zfloor (60 * t2 + 1 / 2)) in *.
  assert (H1 : (0 < z2 - z1)%Z).
  { apply lt_IZR. rewrite minus_IZR. lra. }
  assert (H2 : (z2 - z1 < 1440)%Z).
  { apply lt_IZR. rewrite minus_IZR. lra. }
  intros E.
  assert (Hmod : ((z2 - z1) mod 1440 = 0)%Z).
  { rewrite Zminus_mod, E, Z.sub_diag. reflexivity. }
  rewrite Z.mod_small in Hmod by lia. lia.
Qed.

Lemma entry_minutes_range (id name : string) (t : R) :
  0 <= Spec.prayerMinutes (entry id name t) <= 1439.
Proof.
  unfold Spec.prayerMinutes, entry. cbn [Entry.hour Entry.minute].
  pose proof (timeToHourMinute_range t). lia.
Qed.

Lemma leb_always_never (x : Z) :
  0 <= x <= 1439 -> (x <=? 0) = (x <=? 1439) -> x = 0.
Proof.
  intros Hx E.
  destruct (Z.leb_spec x 0); destruct (Z.leb_spec x 1439);
    try lia; discriminate.
Qed.

(** C4 as stated fails: at latitude 0, longitude 0, 21 December 2024,
    two calls with identical arguments, one with the clock at 00:00 and
    one at 23:59, return different lists. *)
Lemma calculatePrayerTimes_not_pure :
  calculatePrayerTimes midnight 0 0 y2024_dec_21
  <> calculatePrayerTimes lastMinute 0 0 y2024_dec_21.
Proof.
  intros E. apply (f_equal (map isPassed)) in E.
  unfold calculatePrayerTimes in E. rewrite !annotate_isPassed in E.
  unfold getIslamicPrayerTimes in E. cbn [map] in E.
  injection E as _ _ Ed _ Em _.
  set (t := moments 0 0 y2024_dec_21) in *.
  assert (Hd : Spec.prayerMinutes (entry "dhuhr" "Dhuhr" (dhuhrTime t)) = 0).
  { apply leb_always_never; [apply entry_minutes_range | exact Ed]. }
  assert (Hm : Spec.prayerMinutes (entry "maghrib" "Maghrib" (maghribTime t))
               = 0).
  { apply leb_always_never; [apply entry_minutes_range | exact Em]. }
  apply (entry_minutes_differ "dhuhr" "Dhuhr" "maghrib" "Maghrib"
           (dhuhrTime t) (maghribTime t)); [|congruence].
  unfold t. rewrite maghribTime_solved, dhuhrTime_noon
    by (apply equator_solvable; unfold maghribAngle; lra).
  pose proof (equator_hourAngle_bounds (getJulianDate y2024_dec_21) 0.833
                ltac:(lra)) as [Hlo Hhi].
  replace (- (0.833))%R with maghribAngle in Hlo, Hhi
    by (unfold maghribAngle; lra).
  lra.
Qed.

End Clock.

(** ** Asr at the equator *)

Section AsrEquator.

Import Solar.

Lemma atan_le (x y : R) : x <= y -> atan x <= atan y.
Proof.
  intros [H|H].
  - left. apply atan_increasing. assumption.
  - rewrite H. right. reflexivity.
Qed.

(** The Asr elevation is between 0 and 45 degrees whenever the sun
    culminates above the horizon. *)
Lemma asrElevation_range (lat declination : R) :
  -90 < lat - declination < 90 ->
  0 <= asrElevation lat declination <= PI / 4.
Proof.
  intros Hld. unfold asrElevation.
  replace (sin (lat * PI / 180) * sin (declination * PI / 180)
           + cos (lat * PI / 180) * cos (declination * PI / 180))
    with (cos ((lat - declination) * PI / 180))
    by (rewrite deg_minus, cos_minus; ring).
  assert (Hc : 0 < cos ((lat - declination) * PI / 180))
    by (apply cos_deg_pos; lra).
  pose proof (COS_bound ((lat - declination) * PI / 180)) as [_ Hc1].
  set (c := cos ((lat - declination) * PI / 180)) in *.
  pose proof (asin_bound c) as [_ Hup].
  assert (Hpos : 0 < asin c).
  { assert (H0 : 0 <= asin c) by (rewrite <- asin_0; apply asin_le; lra).
    destruct H0 as [H0|H0]; [assumption|].
    exfalso. assert (E : sin (asin c) = c) by (apply sin_asin; lra).
    rewrite <- H0, sin_0 in E. lra. }
  assert (Ht : 0 <= tan (PI / 2 - asin c)).
  { destruct Hup as [Hup|Hup].
    - left. apply tan_gt_0; lra.
    - rewrite Hup. replace (PI / 2 - PI / 2) with 0 by ring.
      rewrite tan_0. lra. }
  set (x := tan (PI / 2 - asin c)) in *.
  assert (Hu : 0 < 1 / (1 + x) <= 1).
  { split.
    - apply Rdiv_lt_0_compat; lra.
    - unfold Rdiv. rewrite Rmult_1_l, <- Rinv_1.
      apply Rinv_le_contravar; lra. }
  split.
  - rewrite <- atan_0. apply atan_le. lra.
  - rewrite <- atan_1. apply atan_le. lra.
Qed.

Lemma asrElevation_equator (declination : R) :
  -23.439 <= declination <= 23.439 ->
  0 <= asrElevation 0 declination <= PI / 4.
Proof. intros Hdec. apply asrElevation_range. lra. Qed.

Lemma asrCosHourAngle_equator (julianDate : R) :
  Rabs (asrCosHourAngle 0 (getSolarDeclination julianDate)) <= 1.
Proof.
  pose proof (getSolarDeclination_bound julianDate) as Hdec.
  set (d := getSolarDeclination julianDate) in *.
  pose proof (asrElevation_equator d Hdec) as [Hlo Hhi].
  unfold asrCosHourAngle.
  rewrite sin_deg_0, cos_deg_0, Rmult_0_l, Rminus_0_r, Rmult_1_l.
  pose proof PI_RGT_0 as Hpi.
  assert (Hs0 : 0 <= sin (asrElevation 0 d)) by (apply sin_ge_0; lra).
  assert (Hs1 : sin (asrElevation 0 d) <= sin (45 * PI / 180)).
  { replace (45 * PI / 180) with (PI / 4) by field.
    apply sin_incr_1; lra. }
  assert (Hcd : cos (45 * PI / 180) <= cos (d * PI / 180)).
  { destruct (Rle_lt_dec 0 d).
    - apply cos_deg_le; lra.
    - rewrite <- (cos_deg_opp d). apply cos_deg_le; lra. }
  assert (E45 : sin (45 * PI / 180) = cos (45 * PI / 180)).
  { rewrite cos_deg_sin. f_equal. field. }
  assert (Hc : 0 < cos (d * PI / 180)) by (apply cos_deg_pos; lra).
  apply Rabs_le_iff. split.
  - apply Rle_trans with 0; [lra|].
    apply Rmult_le_pos; [assumption | left; apply Rinv_0_lt_compat; assumption].
  - apply Rmult_le_reg_r with (cos (d * PI / 180)); [assumption|].
    unfold Rdiv. rewrite Rmult_assoc, Rinv_l by lra. lra.
Qed.

(** At the equator no event takes the fallback branch, on any date. *)
Lemma equator_noFallback (date : Date) : Spec.noFallback 0 date.
Proof.
  unfold Spec.noFallback. repeat split.
  - apply equator_solvable. unfold fajrAngle. lra.
  - apply equator_solvable. unfold maghribAngle. lra.
  - apply equator_solvable. unfold ishaAngle. lra.
  - apply asrCosHourAngle_equator.
Qed.

End AsrEquator.

(** ** Solar noon on 21 December 2024 *)

Section NoonDec21.

Import Solar Fixtures.

(** A point below the horizontal axis and at least as far from it as from
    the vertical axis has its angle between -135 and -45 degrees. *)
Lemma Math_atan2_steep (y x : R) :
  y < 0 -> Rabs x <= - y ->
  - (3 * (PI / 4)) <= Math_atan2 y x <= - (PI / 4).
Proof.
  intros Hy Hx. apply Rabs_le_iff in Hx. pose proof PI_RGT_0 as Hpi.
  assert (Hm1 : atan (- (1)) = - (PI / 4))
    by (rewrite atan_opp, atan_1; ring).
  unfold Math_atan2.
  destruct (Rlt_dec 0 x) as [Hpos|Hnpos].
  - assert (Hinv : 0 < / x) by (apply Rinv_0_lt_compat; assumption).
    assert (Hq : y / x <= - (1)).
    { apply Rmult_le_reg_r with x; [assumption|].
      unfold Rdiv. rewrite Rmult_assoc, Rinv_l by lra. lra. }
    pose proof (atan_le _ _ Hq). pose proof (atan_bound (y / x)). lra.
  - destruct (Rlt_dec x 0) as [Hneg|Hnneg].
    + destruct (Rle_dec 0 y) as [Hy'|_]; [lra|].
      assert (Hinv : 0 < / - x) by (apply Rinv_0_lt_compat; lra).
      assert (Hq : 1 <= y / x).
      { replace (y / x) with (- y * / - x) by (field; lra).
        apply Rmult_le_reg_r with (- x); [lra|].
        rewrite Rmult_assoc, Rinv_l by lra. lra. }
      pose proof (atan_le _ _ Hq) as Hat. rewrite atan_1 in Hat.
      pose proof (atan_bound (y / x)). lra.
    + destruct (Rlt_dec 0 y); [lra|].
      destruct (Rlt_dec y 0); lra.
Qed.

(** On 21 December 2024 the right ascension the code computes is between
    -135 and -45 degrees. *)
Lemma rightAscension_dec_21 :
  let lambda := eclipticLongitude (getJulianDate y2024_dec_21) in
  -135 <= Math_atan2 (cos (23.439 * PI / 180) * sin (lambda * PI / 180))
                     (cos (lambda * PI / 180)) * 180 / PI
  <= -45.
Proof.
  intros lambda.
  pose proof (near_270 lambda eclipticLongitude_dec_21) as (Hs & Hc1 & Hc2).
  set (sl := sin (lambda * PI / 180)) in *.
  set (cl := cos (lambda * PI / 180)) in *.
  assert (He : 0 < cos (23.439 * PI / 180)) by (apply cos_deg_pos; lra).
  assert (H3 : 0 < cos (3 * PI / 180)) by (apply cos_deg_pos; lra).
  (* cos e * cos 3 = (cos (e + 3) + cos (e - 3)) / 2 >= cos (e + 3) >= sin 3 *)
  assert (Hprod : cos (23.439 * PI / 180) * cos (3 * PI / 180)
                  = (cos ((23.439 + 3) * PI / 180)
                     + cos ((23.439 - 3) * PI / 180)) / 2).
  { rewrite deg_plus, deg_minus, cos_plus, cos_minus. field. }
  assert (Hm : cos ((23.439 + 3) * PI / 180) <= cos ((23.439 - 3) * PI / 180))
    by (apply cos_deg_le; lra).
  assert (H63 : sin (3 * PI / 180) <= cos ((23.439 + 3) * PI / 180)).
  { rewrite cos_deg_sin. apply sin_deg_le; lra. }
  assert (Hy : sin (3 * PI / 180) <= - (cos (23.439 * PI / 180) * sl)).
  { assert (cos (23.439 * PI / 180) * cos (3 * PI / 180)
            <= cos (23.439 * PI / 180) * - sl)
      by (apply Rmult_le_compat_l; lra). lra. }
  assert (Hs3 : 0 < sin (3 * PI / 180)) by (apply sin_deg_pos; lra).
  pose proof (Math_atan2_steep (cos (23.439 * PI / 180) * sl) cl
                ltac:(lra) ltac:(apply Rabs_le_iff; lra)) as [Hlo Hhi].
  split.
  - apply deg_of_rad_ge. lra.
  - apply deg_of_rad_le. lra.
Qed.

(** Solar noon on that day, as the code computes it for a zone at UTC, is
    between -15.04 and -9.03 hours less the longitude in hours: the
    equation of time comes out one day too large, which the normalisation
    absorbs. *)
Lemma dhuhrTime_dec_21 (lat lng : R) :
  -15.04 - lng / 15 <= dhuhrTime (moments lat lng y2024_dec_21)
  <= -9.03 - lng / 15.
Proof.
  rewrite dhuhrTime_noon. unfold getSolarNoon.
  rewrite getEquationOfTime_unfold.
  pose proof rightAscension_dec_21 as Ha. cbv zeta in Ha.
  set (alpha := Math_atan2 _ _ * 180 / PI) in *.
  rewrite getJulianDate_dec_21 in *. rewrite meanLongitude_dec_21.
  unfold timezoneOffsetOf, y2024_dec_21. cbn [getTimezoneOffset]. lra.
Qed.

End NoonDec21.

(** ** The order of the six moments *)

Section Order.

Import Solar Fixtures.

(** Minutes since midnight of a displayed time, from an enclosure of the
    time shifted by [k] whole days. *)
Lemma entry_minutes_bounds (id name : string) (t : R) (k lo hi : Z) :
  (0 <= lo)%Z -> (hi <= 1439)%Z ->
  IZR lo <= 60 * t + 1 / 2 + 1440 * IZR k ->
  60 * t + 1 / 2 + 1440 * IZR k < IZR hi + 1 ->
  (lo <= Spec.prayerMinutes (entry id name t) <= hi)%Z.
Proof.
  intros Hlo Hhi Hl Hu. unfold Spec.prayerMinutes, entry.
  cbn [Entry.hour Entry.minute]. rewrite timeToHourMinute_minutes.
  set (z := Zfloor (60 * t + 1 / 2)).
  assert (Hz : Zfloor (60 * t + 1 / 2 + IZR (1440 * k)) = (z + 1440 * k)%Z)
    by (apply Zfloor_addz).
  assert (Hzlo : (lo <= z + 1440 * k)%Z).
  { rewrite <- Hz. apply Zfloor_lub. rewrite mult_IZR. lra. }
  assert (Hzhi : (z + 1440 * k < hi + 1)%Z).
  { apply lt_IZR. rewrite <- Hz, plus_IZR.
    pose proof (Zfloor_bound (60 * t + 1 / 2 + IZR (1440 * k))) as [Hb _].
    rewrite mult_IZR in Hb. rewrite mult_IZR. simpl. lra. }
  replace z with (z + 1440 * k + (- k) * 1440)%Z by lia.
  rewrite Z.mod_add by lia. rewrite Z.mod_small by lia. lia.
Qed.

(** At latitude 0, longitude 0, on 21 December 2024, no fallback branch
    is taken, yet the displayed Fajr (no earlier than 16:10) is later than
    the displayed Sunrise (no later than 08:55): with Fajr placed after
    solar noon, the six moments are not in non-decreasing order. *)
Lemma fajr_after_sunrise_equator_dec_21 :
  let times := getIslamicPrayerTimes 0 0 y2024_dec_21 in
  let t := moments 0 0 y2024_dec_21 in
  Spec.noFallback 0 y2024_dec_21
  /\ (Spec.prayerMinutes (entry "sunrise" "Sunrise" (sunriseTime t)) <= 535)%Z
  /\ (970 <= Spec.prayerMinutes (entry "fajr" "Fajr" (fajrTime t)))%Z
  /\ ~ Spec.nonDecreasing (map Spec.prayerMinutes times).
Proof.
  intros times t.
  pose proof (equator_noFallback y2024_dec_21) as Hnf.
  pose proof Hnf as (Hf & Hm & _ & _).
  pose proof (dhuhrTime_dec_21 0 0) as Hnoon. fold t in Hnoon.
  assert (Hfajr : -7.84 <= fajrTime t <= -0.26).
  { unfold t. rewrite (fajrTime_solved 0 0 y2024_dec_21 Hf).
    rewrite <- dhuhrTime_noon with (lat := 0). fold t.
    pose proof (equator_hourAngle_bounds (getJulianDate y2024_dec_21) 18
                  ltac:(lra)) as HH.
    replace (- (18)) with fajrAngle in HH by (unfold fajrAngle; lra).
    lra. }
  assert (Hsun : -22.66 <= sunriseTime t <= -15.08).
  { unfold t. rewrite (sunriseTime_solved 0 0 y2024_dec_21 Hm).
    rewrite <- dhuhrTime_noon with (lat := 0). fold t.
    pose proof (equator_hourAngle_bounds (getJulianDate y2024_dec_21) 0.833
                  ltac:(lra)) as HH.
    replace (- (0.833)) with maghribAngle in HH by (unfold maghribAngle; lra).
    lra. }
  assert (Hpf : (970 <= Spec.prayerMinutes (entry "fajr" "Fajr" (fajrTime t))
                 <= 1424)%Z).
  { apply (entry_minutes_bounds _ _ _ 1); lra || lia. }
  assert (Hps : (80 <= Spec.prayerMinutes
                         (entry "sunrise" "Sunrise" (sunriseTime t))
                 <= 535)%Z).
  { apply (entry_minutes_bounds _ _ _ 1); lra || lia. }
  split; [exact Hnf|]. split; [lia|]. split; [lia|].
  unfold times, getIslamicPrayerTimes. fold t. cbn [map Spec.nonDecreasing].
  intros (H & _). lia.
Qed.










End Order.

(** * Further properties of the code *)

(** ** What [getPrayerTimes] returns *)

Section ServiceOutput.

Import JSString PrayerTimes Service Props.
Local Open Scope string_scope.
Local Open Scope Z_scope.

Lemma entry_valid (id name : string) (t : R) :
  validEntry (Solar.entry id name t).
Proof.
  unfold validEntry, validClock, Solar.entry.
  cbn [Solar.Entry.hour Solar.Entry.minute].
  apply timeToHourMinute_range.
Qed.

Lemma getIslamicPrayerTimes_valid (lat lng : R) (date : Date) :
  Forall validEntry (Solar.getIslamicPrayerTimes lat lng date).
Proof.
  unfold Solar.getIslamicPrayerTimes.
  repeat (apply Forall_cons; [apply entry_valid|]). apply Forall_nil.
Qed.

Lemma mockPrayers_valid : Forall validEntry mockPrayers.
Proof.
  unfold mockPrayers.
  repeat (apply Forall_cons;
          [unfold validEntry, validClock; simpl; lia|]).
  apply Forall_nil.
Qed.

(** Whatever the platform answers, the list is the annotation against the
    clock of six valid clock times named Fajr to Isha. *)
Lemma getPrayerTimes_annotate (env : Platform)
    (location : option LocationData) (date : Date) :
  exists times,
    getPrayerTimes env location date = Resolved (annotate (clock env) times)
    /\ Forall validEntry times
    /\ map Solar.Entry.name times
       = ["Fajr"; "Sunrise"; "Dhuhr"; "Asr"; "Maghrib"; "Isha"]%string.
Proof.
  unfold getPrayerTimes, tryCatch.
  destruct (getPrayerTimes_try env location date) as [l|e] eqn:E.
  - unfold getPrayerTimes_try, bind in E.
    destruct location as [loc|].
    + injection E as <-. eexists. split; [reflexivity|].
      split; [apply getIslamicPrayerTimes_valid | reflexivity].
    + destruct (requestForegroundPermissionsAsync env) as [status|];
        [|discriminate].
      destruct (negb (status =? "granted")%string); [discriminate|].
      destruct (getCurrentPositionAsync env); [|discriminate].
      injection E as <-. eexists. split; [reflexivity|].
      split; [apply getIslamicPrayerTimes_valid | reflexivity].
  - exists mockPrayers. split; [reflexivity|].
    split; [apply mockPrayers_valid | reflexivity].
Qed.

Lemma formatTime_parses (h m : Z) :
  validClock h m -> parseTime (formatTime h m) = Some (h, m).
Proof.
  intros [Hh Hm].
  pose proof roundTrips_all as Hall.
  rewrite forallb_forall in Hall.
  assert (Hin : In (Z.to_nat h) (seq 0 24)) by (apply in_seq; lia).
  specialize (Hall _ Hin). rewrite forallb_forall in Hall.
  assert (Hin' : In (Z.to_nat m) (seq 0 60)) by (apply in_seq; lia).
  specialize (Hall _ Hin').
  rewrite !Z2Nat.id in Hall by lia.
  unfold Spec.roundTrips in Hall.
  destruct (parseTime (formatTime h m)) as [[h' m']|]; [|discriminate].
  apply andb_true_iff in Hall. destruct Hall as [E1 E2].
  apply Z.eqb_eq in E1, E2. congruence.
Qed.

(** Every time string of an annotated list parses back to the hour and
    minute of its entry. *)
Lemma annotate_parseTime (now : Date) (times : list Solar.Entry.t)
    (k : nat) (p : PrayerTime) :
  Forall validEntry times ->
  nth_error (annotate now times) k = Some p ->
  exists e, nth_error times k = Some e /\ validEntry e
            /\ name p = Solar.Entry.name e
            /\ parseTime (time p)
               = Some (Solar.Entry.hour e, Solar.Entry.minute e)
            /\ isPassed p = (Spec.prayerMinutes e <=? Spec.nowMinutes now).
Proof.
  intros Hv Hp.
  destruct (annotate_nth now times k p Hp) as (e & He & _ & Hn & Ht & Hpass).
  exists e. split; [exact He|].
  assert (Hve : validEntry e).
  { rewrite Forall_forall in Hv. apply Hv.
    apply nth_error_In with k. exact He. }
  split; [exact Hve|]. split; [symmetry; exact Hn|].
  split; [|exact Hpass].
  rewrite Ht. apply formatTime_parses. exact Hve.
Qed.

Lemma find_at {A : Type} (f : A -> bool) (l : list A) (k : nat) (x : A) :
  nth_error l k = Some x -> f x = true ->
  (forall j y, nth_error l j = Some y -> f y = true -> j = k) ->
  List.find f l = Some x.
Proof.
  revert k. induction l as [|a l IH]; intros k Hk Hx Huniq.
  - destruct k; discriminate.
  - simpl. destruct (f a) eqn:Fa.
    + specialize (Huniq 0%nat a eq_refl Fa). subst k.
      simpl in Hk. congruence.
    + destruct k as [|k]; [simpl in Hk; congruence|].
      apply (IH k); [exact Hk | exact Hx |].
      intros j y Hj Hy. specialize (Huniq (S j) y Hj Hy). lia.
Qed.

(** In an annotated non-empty list, [find] of the [isNext] flag returns
    the entry at the marked position. *)
Lemma annotate_find_next (now : Date) (times : list Solar.Entry.t) :
  times <> [] ->
  exists (k : nat) (p : PrayerTime),
    nth_error (annotate now times) k = Some p
    /\ List.find isNext (annotate now times) = Some p
    /\ isNext p = true
    /\ (Spec.firstUpcoming now times k
        \/ (k = 0%nat /\ Spec.allPassed now times)).
Proof.
  intros Hne.
  destruct (annotate_next now times) as (k & Hnext & Hk).
  assert (Hlt : (k < List.length (annotate now times))%nat).
  { rewrite annotate_length.
    destruct Hk as [[(e & He & _) _] | [-> _]].
    - apply nth_error_Some. congruence.
    - destruct times; [contradiction | simpl; lia]. }
  destruct (nth_error (annotate now times) k) as [p|] eqn:Hp.
  2:{ apply nth_error_None in Hp. lia. }
  assert (Hn : isNext p = true) by (apply (Hnext k p Hp); reflexivity).
  exists k, p. split; [exact Hp|]. split; [|split; assumption].
  apply (find_at isNext _ k p Hp Hn).
  intros j y Hj Hy. apply (Hnext j y Hj). exact Hy.
Qed.

End ServiceOutput.

(** ** The next prayer and the wait for it *)

Section NextPrayer.

Import JSString PrayerTimes Service Props.
Local Open Scope string_scope.
Local Open Scope Z_scope.

Lemma names_nonempty (times : list Solar.Entry.t) :
  map Solar.Entry.name times
  = ["Fajr"; "Sunrise"; "Dhuhr"; "Asr"; "Maghrib"; "Isha"]%string ->
  times <> [].
Proof. intros H ->. discriminate. Qed.

(** X1.  [getNextPrayer] never rejects and never answers [undefined]: it
    returns the entry of the list of [getPrayerTimes] that carries
    [isNext]; that entry has passed only when every entry has. *)
Theorem getNextPrayer_isNext (env : Platform) (location : option LocationData) :
  exists prayers p,
    getPrayerTimes env location (clock env) = Resolved prayers
    /\ getNextPrayer env location = Resolved (Some p)
    /\ In p prayers /\ isNext p = true
    /\ (isPassed p = true -> forall q, In q prayers -> isPassed q = true).
Proof.
  destruct (getPrayerTimes_annotate env location (clock env))
    as (times & E & Hv & Hnames).
  destruct (annotate_find_next (clock env) times (names_nonempty _ Hnames))
    as (k & p & Hp & Hfind & Hn & Hk).
  exists (annotate (clock env) times), p.
  split; [exact E|]. split.
  - unfold getNextPrayer, bind. rewrite E, Hfind. reflexivity.
  - split; [apply nth_error_In with k; exact Hp|]. split; [exact Hn|].
    intros Hpass q Hq.
    destruct (annotate_nth (clock env) times k p Hp)
      as (e & He & _ & _ & _ & Hpe).
    assert (Hall : Spec.allPassed (clock env) times).
    { destruct Hk as [[(e' & He' & Hlate) _] | [_ Hall]]; [|exact Hall].
      rewrite He in He'. injection He' as <-.
      rewrite Hpass in Hpe. symmetry in Hpe. apply Z.leb_le in Hpe. lia. }
    apply In_nth_error in Hq. destruct Hq as (j & Hj).
    destruct (annotate_nth (clock env) times j q Hj)
      as (e' & He' & _ & _ & _ & Hq).
    rewrite Hq. apply Z.leb_le. apply Hall.
    apply nth_error_In with j. exact He'.
Qed.

Lemma msOfDay_range (now : Date) (ms : Z) :
  validNow now ms -> 0 <= msOfDay now ms < 86400000.
Proof. unfold validNow, validClock, msOfDay. lia. Qed.

Lemma waitMs_range (hour minute now : Z) :
  validClock hour minute -> 0 <= now < 86400000 ->
  0 < waitMs hour minute now <= 86400000.
Proof.
  unfold validClock, waitMs. intros Hc Hn. cbv zeta.
  destruct (Z.leb_spec ((hour * 60 + minute) * 60000) now); lia.
Qed.

Lemma string_append_assoc (a b c : string) :
  (a ++ (b ++ c) = (a ++ b) ++ c)%string.
Proof. induction a as [|x a IH]; simpl; [reflexivity | now rewrite IH]. Qed.

Lemma remainingString_not_Soon (h m : Z) : remainingString h m <> "Soon"%string.
Proof.
  assert (H : forall x : string, (x ++ "m")%string <> "Soon"%string).
  { intros x E.
    destruct x as [|a [|b [|c [|d [|e x]]]]]; simpl in E; discriminate. }
  unfold remainingString. destruct (h >? 0).
  - rewrite !string_append_assoc. apply H.
  - apply H.
Qed.

(** X2.  [getTimeUntilNextPrayer] never answers "Soon": the time of the
    next prayer always parses, to a valid clock time, and the answer is
    the wait until the clock next shows that time, more than 0 and at
    most 24 hours, as whole hours and the whole minutes left over. *)
Theorem getTimeUntilNextPrayer_wait
    (env : Platform) (ms : Z) (location : option LocationData) :
  validNow (clock env) ms ->
  exists p hour minute,
    getNextPrayer env location = Resolved (Some p)
    /\ parseTime (time p) = Some (hour, minute)
    /\ validClock hour minute
    /\ let wait := waitMs hour minute (msOfDay (clock env) ms) in
       0 < wait <= 86400000
       /\ getTimeUntilNextPrayer env ms location
          = Resolved (remainingString (wait / 3600000)
                                      (wait mod 3600000 / 60000))
       /\ 0 <= wait / 3600000 <= 24
       /\ 0 <= wait mod 3600000 / 60000 <= 59
       /\ getTimeUntilNextPrayer env ms location <> Resolved "Soon"%string.
Proof.
  intros Hnow.
  destruct (getPrayerTimes_annotate env location (clock env))
    as (times & E & Hv & Hnames).
  destruct (annotate_find_next (clock env) times (names_nonempty _ Hnames))
    as (k & p & Hp & Hfind & Hn & Hk).
  destruct (annotate_parseTime (clock env) times k p Hv Hp)
    as (e & He & Hve & _ & Hparse & _).
  exists p, (Solar.Entry.hour e), (Solar.Entry.minute e).
  split; [unfold getNextPrayer, bind; rewrite E, Hfind; reflexivity|].
  split; [exact Hparse|]. split; [exact Hve|].
  intros wait.
  pose proof (msOfDay_range _ _ Hnow) as Hms.
  pose proof (waitMs_range _ _ _ Hve Hms) as Hw. fold wait in Hw.
  assert (Hres : getTimeUntilNextPrayer env ms location
                 = Resolved (remainingString (wait / 3600000)
                                             (wait mod 3600000 / 60000))).
  { unfold getTimeUntilNextPrayer, bind. rewrite E, Hfind, Hparse.
    cbv zeta. change (1000 * 60 * 60) with 3600000.
    change (1000 * 60) with 60000.
    unfold wait, waitMs. cbv zeta.
    destruct (_ <=? _); reflexivity. }
  split; [exact Hw|]. split; [exact Hres|].
  split; [|split].
  - split; [apply Z.div_pos; lia|].
    apply Z.div_le_upper_bound; lia.
  - pose proof (Z.mod_pos_bound wait 3600000 ltac:(lia)).
    split; [apply Z.div_pos; lia|].
    assert (wait mod 3600000 / 60000 < 60); [|lia].
    apply Z.div_lt_upper_bound; lia.
  - rewrite Hres. intros [= Hs]. exact (remainingString_not_Soon _ _ Hs).
Qed.

Lemma getTimeUntilNextPrayer_wait_witness :
  exists s, getTimeUntilNextPrayer
              {| requestForegroundPermissionsAsync := Resolved "denied";
                 getCurrentPositionAsync := Rejected "unavailable";
                 clock := Fixtures.midnight |} 0 None = Resolved s.
Proof.
  destruct (getTimeUntilNextPrayer_wait
              {| requestForegroundPermissionsAsync := Resolved "denied";
                 getCurrentPositionAsync := Rejected "unavailable";
                 clock := Fixtures.midnight |} 0 None)
    as (p & h & m & _ & _ & _ & H).
  - unfold validNow, validClock. simpl. lia.
  - cbv zeta in H. destruct H as (_ & H & _). eexists. exact H.
Defined.

End NextPrayer.

(** ** Reading the remaining time back *)

Section Remaining.

Import JSString PrayerTimes Service Props.
Local Open Scope string_scope.
Local Open Scope Z_scope.

Example formatTimeRemaining_hours : formatTimeRemaining "5h 07m" = (5, 7).
Proof. reflexivity. Qed.

Example formatTimeRemaining_minutes : formatTimeRemaining "45m" = (0, 45).
Proof. reflexivity. Qed.

Example formatTimeRemaining_inside : formatTimeRemaining "in 12x5m!" = (0, 5).
Proof. reflexivity. Qed.

Lemma remainingRoundTrips_all :
  forallb (fun h => forallb (fun m => remainingRoundTrips (Z.of_nat h)
                                                          (Z.of_nat m))
                            (seq 0 60))
          (seq 0 25) = true.
Proof. vm_compute. reflexivity. Qed.

Lemma formatTimeRemaining_remainingString (h m : Z) :
  0 <= h <= 24 -> 0 <= m <= 59 ->
  formatTimeRemaining (remainingString h m) = (h, m).
Proof.
  intros Hh Hm.
  pose proof remainingRoundTrips_all as Hall.
  rewrite forallb_forall in Hall.
  assert (Hin : In (Z.to_nat h) (seq 0 25)) by (apply in_seq; lia).
  specialize (Hall _ Hin). rewrite forallb_forall in Hall.
  assert (Hin' : In (Z.to_nat m) (seq 0 60)) by (apply in_seq; lia).
  specialize (Hall _ Hin').
  rewrite !Z2Nat.id in Hall by lia.
  unfold remainingRoundTrips in Hall.
  destruct (formatTimeRemaining (remainingString h m)) as [h' m'].
  apply andb_true_iff in Hall. destruct Hall as [E1 E2].
  apply Z.eqb_eq in E1, E2. congruence.
Qed.

(** X3.  [formatTimeRemaining] reads back what [getTimeUntilNextPrayer]
    answers: the whole hours and the whole minutes left over of the wait
    for the next prayer. *)
Theorem formatTimeRemaining_getTimeUntilNextPrayer
    (env : Platform) (ms : Z) (location : option LocationData) :
  validNow (clock env) ms ->
  exists s p hour minute,
    getTimeUntilNextPrayer env ms location = Resolved s
    /\ getNextPrayer env location = Resolved (Some p)
    /\ parseTime (time p) = Some (hour, minute)
    /\ let wait := waitMs hour minute (msOfDay (clock env) ms) in
       formatTimeRemaining s = (wait / 3600000, wait mod 3600000 / 60000).
Proof.
  intros Hnow.
  destruct (getPrayerTimes_annotate env location (clock env))
    as (times & E & Hv & Hnames).
  destruct (annotate_find_next (clock env) times (names_nonempty _ Hnames))
    as (k & p & Hp & Hfind & Hn & Hk).
  destruct (annotate_parseTime (clock env) times k p Hv Hp)
    as (e & He & Hve & _ & Hparse & _).
  pose proof (msOfDay_range _ _ Hnow) as Hms.
  pose proof (waitMs_range _ _ _ Hve Hms) as Hw.
  set (wait := waitMs (Solar.Entry.hour e) (Solar.Entry.minute e)
                      (msOfDay (clock env) ms)) in *.
  exists (remainingString (wait / 3600000) (wait mod 3600000 / 60000)),
         p, (Solar.Entry.hour e), (Solar.Entry.minute e).
  split.
  { unfold getTimeUntilNextPrayer, bind. rewrite E, Hfind, Hparse.
    cbv zeta. change (1000 * 60 * 60) with 3600000.
    change (1000 * 60) with 60000.
    unfold wait, waitMs. cbv zeta.
    destruct (_ <=? _); reflexivity. }
  split; [unfold getNextPrayer, bind; rewrite E, Hfind; reflexivity|].
  split; [exact Hparse|].
  cbv zeta. fold wait.
  apply formatTimeRemaining_remainingString.
  - split; [apply Z.div_pos; lia|]. apply Z.div_le_upper_bound; lia.
  - pose proof (Z.mod_pos_bound wait 3600000 ltac:(lia)).
    split; [apply Z.div_pos; lia|].
    assert (wait mod 3600000 / 60000 < 60); [|lia].
    apply Z.div_lt_upper_bound; lia.
Qed.

Lemma formatTimeRemaining_getTimeUntilNextPrayer_witness :
  exists s, getTimeUntilNextPrayer
              {| requestForegroundPermissionsAsync := Resolved "denied";
                 getCurrentPositionAsync := Rejected "unavailable";
                 clock := Fixtures.lastMinute |} 500 None = Resolved s
            /\ formatTimeRemaining s = (5, 30).
Proof.
  destruct (formatTimeRemaining_getTimeUntilNextPrayer
              {| requestForegroundPermissionsAsync := Resolved "denied";
                 getCurrentPositionAsync := Rejected "unavailable";
                 clock := Fixtures.lastMinute |} 500 None)
    as (s & p & h & m & Hs & Hp & Hparse & Hf).
  - unfold validNow, validClock. simpl. lia.
  - exists s. split; [exact Hs|].
    vm_compute in Hp. injection Hp as <-.
    vm_compute in Hparse. injection Hparse as <- <-.
    rewrite Hf. reflexivity.
Defined.

(** A string without a digit holds no match. *)
Lemma matchRemaining_no_digit (s : string) :
  (forall c, In c (list_ascii_of_string s) -> isDigit c = false) ->
  matchRemaining s = None.
Proof.
  induction s as [|c s IH]; intros H.
  - reflexivity.
  - assert (Hc : isDigit c = false) by (apply H; left; reflexivity).
    cbn [matchRemaining]. unfold matchHoursMinutes, matchMinutes.
    cbn [spanDigits]. rewrite Hc.
    apply IH. intros c' Hc'. apply H. right. exact Hc'.
Qed.

(** X4.  On a string that holds no digit, such as "Soon",
    [formatTimeRemaining] answers 0 hours and 0 minutes. *)
Theorem formatTimeRemaining_no_digit (s : string) :
  (forall c, In c (list_ascii_of_string s) -> isDigit c = false) ->
  formatTimeRemaining s = (0, 0).
Proof.
  intros H. unfold formatTimeRemaining.
  rewrite (matchRemaining_no_digit s H). reflexivity.
Qed.

Lemma formatTimeRemaining_no_digit_witness :
  formatTimeRemaining "Soon" = (0, 0).
Proof.
  apply formatTimeRemaining_no_digit.
  intros c Hc. simpl in Hc.
  repeat (destruct Hc as [<- | Hc]; [reflexivity|]). contradiction.
Defined.

End Remaining.

(** ** The current prayer status *)

Section Status.

Import JSString PrayerTimes Service Props.
Local Open Scope string_scope.
Local Open Scope Z_scope.



Lemma six_names (times : list Solar.Entry.t) :
  map Solar.Entry.name times
  = ["Fajr"; "Sunrise"; "Dhuhr"; "Asr"; "Maghrib"; "Isha"] ->
  exists e0 e1 e2 e3 e4 e5, times = [e0; e1; e2; e3; e4; e5].
Proof.
  intros H.
  destruct times as [|e0 [|e1 [|e2 [|e3 [|e4 [|e5 [|e6 l]]]]]]];
    try discriminate.
  now exists e0, e1, e2, e3, e4, e5.
Qed.


End Status.

(** ** Displayed times *)

Section Displayed.

Import JSString PrayerTimes Service Props.
Local Open Scope string_scope.
Local Open Scope Z_scope.

Lemma Forall2_mapFrom {A B : Type} (P : A -> Prop) (Q : B -> A -> Prop)
    (f : A -> Z -> B) (l : list A) (i : Z) :
  Forall P l -> (forall x j, P x -> Q (f x j) x) ->
  Forall2 Q (mapFrom f i l) l.
Proof.
  intros Hl Hf. revert i.
  induction Hl as [|a l Ha Hl IH]; intros i; cbn [mapFrom]; constructor.
  - apply Hf. exact Ha.
  - apply IH.
Qed.

Lemma annotate_Forall2 (now : Date) (times : list Solar.Entry.t) :
  Forall validEntry times ->
  Forall2 (fun p e =>
             validEntry e
             /\ parseTime (time p)
                = Some (Solar.Entry.hour e, Solar.Entry.minute e))
          (annotate now times) times.
Proof.
  intros Hv. unfold annotate, mapIndexed.
  apply (Forall2_mapFrom validEntry); [exact Hv|].
  intros e j He. split; [exact He|].
  cbn [time]. apply formatTime_parses. exact He.
Qed.

(** X6.  At valid coordinates, the time strings [calculatePrayerTimes]
    returns for Fajr, Sunrise, Dhuhr, Maghrib and Isha are well formed,
    whichever branch computed them: each parses back, by the pattern and
    the AM/PM rules, to the hour (0..23) and minute (0..59) of the entry it
    displays.  Asr is left out: its time goes through [Math.asin] with no
    guard, and the statement for it would rest on exact real
    arithmetic. *)
Theorem calculatePrayerTimes_times_parse
    (now : Date) (lat lng : R) (date : Date) :
  (-90 <= lat <= 90)%R -> (-180 <= lng <= 180)%R ->
  map name (calculatePrayerTimes now lat lng date)
  = ["Fajr"; "Sunrise"; "Dhuhr"; "Asr"; "Maghrib"; "Isha"]
  /\ Forall2 (fun p e =>
                name p <> "Asr" ->
                validEntry e
                /\ parseTime (time p)
                   = Some (Solar.Entry.hour e, Solar.Entry.minute e))
             (calculatePrayerTimes now lat lng date)
             (Solar.getIslamicPrayerTimes lat lng date).
Proof.
  intros _ _. split; [reflexivity|].
  unfold calculatePrayerTimes.
  apply Forall2_impl
    with (R1 := fun p e =>
                  validEntry e
                  /\ parseTime (time p)
                     = Some (Solar.Entry.hour e, Solar.Entry.minute e)).
  - intros p e Hpe _. exact Hpe.
  - apply annotate_Forall2. apply getIslamicPrayerTimes_valid.
Qed.

Lemma calculatePrayerTimes_times_parse_witness :
  Forall2 (fun p e =>
             name p <> "Asr" ->
             validEntry e
             /\ parseTime (time p)
                = Some (Solar.Entry.hour e, Solar.Entry.minute e))
          (calculatePrayerTimes Fixtures.midnight 0 0 Fixtures.y2024_dec_21)
          (Solar.getIslamicPrayerTimes 0 0 Fixtures.y2024_dec_21).
Proof.
  apply (calculatePrayerTimes_times_parse Fixtures.midnight 0 0
           Fixtures.y2024_dec_21); lra.
Defined.

End Displayed.

(** ** Normalisation of a time of day *)

Section Normalise.

Import Solar Props.

(** X7.  For every time within a million hours of 0:00,
    [timeToHourMinute] returns a valid clock time: an hour from 0 to 23
    and a minute from 0 to 59.  Within that bound each turn of the two
    loops changes the time, also in double arithmetic. *)
Theorem timeToHourMinute_valid (time : R) :
  -1000000 <= time <= 1000000 ->
  validClock (HM.hour (timeToHourMinute time))
             (HM.minute (timeToHourMinute time)).
Proof. intros _. exact (timeToHourMinute_range time). Qed.

Lemma timeToHourMinute_valid_witness :
  validClock (HM.hour (timeToHourMinute (-5.5)))
             (HM.minute (timeToHourMinute (-5.5))).
Proof. apply (timeToHourMinute_valid (-5.5)). lra. Defined.

(** X8.  The minutes since midnight [timeToHourMinute] displays are the
    time in minutes rounded to the nearest minute (halves up), modulo one
    day: a time in the last half minute before midnight is displayed as
    00:00. *)
Theorem timeToHourMinute_rounds (time : R) :
  (HM.hour (timeToHourMinute time) * 60 + HM.minute (timeToHourMinute time)
   = Zfloor (60 * time + 1 / 2) mod 1440)%Z.
Proof. exact (timeToHourMinute_minutes time). Qed.

Lemma normalise_unique (x y : R) (k : Z) :
  0 <= x < 24 -> 0 <= y < 24 -> y = x + 24 * IZR k -> y = x.
Proof.
  intros Hx Hy E.
  assert (Hk : (-1 < k < 1)%Z).
  { split; apply lt_IZR; simpl; lra. }
  assert (k = 0%Z) by lia. subst k. simpl in E. lra.
Qed.

(** X9.  Whole days do not change the display: when a time and the time
    shifted by a whole number of days are both within a million hours of
    0:00, [timeToHourMinute] gives the same hour and minute for both. *)
Theorem timeToHourMinute_periodic (time : R) (days : Z) :
  -1000000 <= time <= 1000000 ->
  -1000000 <= time + 24 * IZR days <= 1000000 ->
  timeToHourMinute (time + 24 * IZR days) = timeToHourMinute time.
Proof.
  intros _ _. unfold timeToHourMinute.
  destruct (normalise_spec time) as (k1 & E1 & H1).
  destruct (normalise_spec (time + 24 * IZR days)) as (k2 & E2 & H2).
  assert (E : whileAtLeast24 (whileNegative (time + 24 * IZR days))
              = whileAtLeast24 (whileNegative time)).
  { apply (normalise_unique _ _ (days + k2 - k1)); try assumption.
    rewrite E1, E2, minus_IZR, plus_IZR. lra. }
  rewrite E. reflexivity.
Qed.

Lemma timeToHourMinute_periodic_witness :
  timeToHourMinute (30.5 + 24 * IZR (-1)) = timeToHourMinute 30.5.
Proof. apply (timeToHourMinute_periodic 30.5 (-1)); simpl; lra. Defined.

End Normalise.

(** ** When a prayer time is solved and when it falls back *)

Section Branches.

Import Solar Props.

(** X10.  The declination [getSolarDeclination] computes never leaves the
    band of the obliquity: it is between -23.439 and 23.439 degrees for
    every Julian date. *)
Theorem getSolarDeclination_obliquity (julianDate : R) :
  -23.439 <= getSolarDeclination julianDate <= 23.439.
Proof. exact (getSolarDeclination_bound julianDate). Qed.

(** X11.  [calculatePrayerTime] solves the hour-angle equation when the
    target elevation [angle] is strictly between the lowest and the
    highest elevation of the sun that day, [|lat + dec| - 90] and
    [90 - |lat - dec|] degrees: the result is solar noon minus (for a
    sunrise-type event) or plus [hours], where [hours], strictly between
    0 and 12, is the time from solar noon at which the sun stands at
    [angle]:
    sin angle = sin lat sin dec + cos lat cos dec cos (15 hours).
    Strictly outside that range it returns the fixed 6 + offset or
    18 + offset. *)
Theorem calculatePrayerTime_branches
    (lat lng declination equationOfTime angle : R) (isSunrise : bool)
    (timezoneOffset : R) :
  -90 < lat < 90 -> -90 < declination < 90 -> -90 <= angle <= 90 ->
  let lowest := Rabs (lat + declination) - 90 in
  let highest := 90 - Rabs (lat - declination) in
  let solarNoon := getSolarNoon lng equationOfTime timezoneOffset in
  let result :=
    calculatePrayerTime lat lng declination equationOfTime angle isSunrise
                        timezoneOffset in
  (lowest < angle < highest ->
   exists hours,
     0 < hours < 12
     /\ sin (angle * PI / 180)
        = sin (lat * PI / 180) * sin (declination * PI / 180)
          + cos (lat * PI / 180) * cos (declination * PI / 180)
            * cos (15 * hours * PI / 180)
     /\ result = if isSunrise then solarNoon - hours else solarNoon + hours)
  /\ (angle < lowest \/ highest < angle ->
      result = if isSunrise then 6 + timezoneOffset
               else 18 + timezoneOffset).
Proof.
  intros Hlat Hdec Hang lowest highest solarNoon result.
  pose proof PI_RGT_0 as Hpi.
  pose proof (cosHourAngle_solvable_deg lat declination angle Hlat Hdec Hang)
    as Hiff. fold lowest highest in Hiff.
  assert (HB : 0 < cos (lat * PI / 180) * cos (declination * PI / 180)).
  { apply Rmult_lt_0_compat; apply cos_deg_pos; assumption. }
  unfold result. rewrite calculatePrayerTime_unfold. fold solarNoon.
  split.
  - intros Hin.
    assert (Hq : Rabs (cosHourAngle lat declination angle) <= 1)
      by (apply Hiff; lra).
    destruct (Rlt_dec 1 _) as [Hgt|_]; [lra|].
    exists (hourAngle lat declination angle).
    apply Rabs_le_iff in Hq.
    assert (Eh : 15 * hourAngle lat declination angle * PI / 180
                 = acos (cosHourAngle lat declination angle))
      by (unfold hourAngle; field; lra).
    assert (Eq : sin (angle * PI / 180)
                 = sin (lat * PI / 180) * sin (declination * PI / 180)
                   + cos (lat * PI / 180) * cos (declination * PI / 180)
                     * cos (15 * hourAngle lat declination angle * PI / 180)).
    { rewrite Eh, cos_acos by lra. unfold cosHourAngle.
      pose proof (cos_deg_pos lat Hlat). pose proof (cos_deg_pos declination Hdec).
      field. split; lra. }
    split; [|split; [exact Eq | reflexivity]].
    pose proof (hourAngle_range lat declination angle) as [H0 H12].
    split.
    + destruct H0 as [H0|H0]; [exact H0|exfalso].
      rewrite <- H0 in Eq.
      replace (15 * 0 * PI / 180) with 0 in Eq by field.
      rewrite cos_0, Rmult_1_r in Eq.
      assert (Ec : sin (angle * PI / 180)
                   = cos ((lat - declination) * PI / 180))
        by (rewrite deg_minus, cos_minus; lra).
      rewrite (cos_deg_abs (lat - declination)) in Ec.
      pose proof (Rabs_pos (lat - declination)) as Hp.
      assert (Hb : Rabs (lat - declination) <= 180)
        by (apply Rabs_le_iff; lra).
      assert (Hle : 90 - Rabs (lat - declination) <= angle).
      { apply sin_deg_le_iff; lra. }
      unfold highest in Hin. lra.
    + destruct H12 as [H12|H12]; [exact H12|exfalso].
      rewrite H12 in Eq.
      replace (15 * 12 * PI / 180) with PI in Eq by field.
      rewrite cos_PI in Eq.
      assert (Ec : sin (angle * PI / 180)
                   = - cos ((lat + declination) * PI / 180))
        by (rewrite deg_plus, cos_plus; lra).
      rewrite (cos_deg_abs (lat + declination)) in Ec.
      assert (E' : sin (angle * PI / 180)
                   = sin ((Rabs (lat + declination) - 90) * PI / 180)).
      { rewrite Ec, <- sin_neg. f_equal. field. }
      pose proof (Rabs_pos (lat + declination)) as Hp.
      assert (Hb : Rabs (lat + declination) <= 180)
        by (apply Rabs_le_iff; lra).
      assert (Hle : angle <= Rabs (lat + declination) - 90).
      { apply sin_deg_le_iff; lra. }
      unfold lowest in Hin. lra.
  - intros Hout.
    destruct (Rlt_dec 1 _) as [_|Hle]; [reflexivity|].
    exfalso. apply Rnot_lt_le in Hle. apply Hiff in Hle. lra.
Qed.

Lemma calculatePrayerTime_branches_witness :
  exists hours,
    0 < hours < 12
    /\ sin (-18 * PI / 180)
       = sin (0 * PI / 180) * sin (0 * PI / 180)
         + cos (0 * PI / 180) * cos (0 * PI / 180)
           * cos (15 * hours * PI / 180)
    /\ calculatePrayerTime 0 0 0 0 (-18) true 0
       = getSolarNoon 0 0 0 - hours.
Proof.
  destruct (calculatePrayerTime_branches 0 0 0 0 (-18) true 0) as [H _];
    try lra.
  apply H. rewrite Rplus_0_l, Rminus_0_l, Rabs_Ropp, Rabs_R0. lra.
Defined.

(** The quotient of the hour-angle equation for any sine [s] of the target
    elevation. *)
Lemma quotient_solvable (lat declination s : R) :
  0 < cos (lat * PI / 180) * cos (declination * PI / 180) ->
  (Rabs ((s - sin (lat * PI / 180) * sin (declination * PI / 180))
         / (cos (lat * PI / 180) * cos (declination * PI / 180))) <= 1 <->
   - cos ((lat + declination) * PI / 180) <= s
     <= cos ((lat - declination) * PI / 180)).
Proof.
  intros HB.
  rewrite deg_plus, deg_minus, cos_plus, cos_minus.
  set (A := sin (lat * PI / 180) * sin (declination * PI / 180)).
  set (B := cos (lat * PI / 180) * cos (declination * PI / 180)) in *.
  assert (Hinv : 0 < / B) by (apply Rinv_0_lt_compat; assumption).
  assert (E : (s - A) / B * B = s - A) by (field; lra).
  rewrite Rabs_le_iff. split.
  - intros [H1 H2]. split.
    + assert (-1 * B <= (s - A) / B * B)
        by (apply Rmult_le_compat_r; lra). lra.
    + assert ((s - A) / B * B <= 1 * B)
        by (apply Rmult_le_compat_r; lra). lra.
  - intros [H1 H2]. split.
    + apply Rmult_le_reg_r with B; [assumption|]. rewrite E. lra.
    + apply Rmult_le_reg_r with B; [assumption|]. rewrite E. lra.
Qed.

(** The sun at Asr is not higher than at noon. *)
Lemma asrElevation_below_noon (lat declination : R) :
  -90 < lat - declination < 90 ->
  sin (asrElevation lat declination)
  <= cos ((lat - declination) * PI / 180).
Proof.
  intros Hld. pose proof PI_RGT_0 as Hpi.
  pose proof (asrElevation_range lat declination Hld) as [Hlo Hhi].
  assert (Hc : 0 < cos ((lat - declination) * PI / 180))
    by (apply cos_deg_pos; lra).
  pose proof (COS_bound ((lat - declination) * PI / 180)) as [_ Hc1].
  assert (HE : sin (asin (cos ((lat - declination) * PI / 180)))
               = cos ((lat - declination) * PI / 180))
    by (apply sin_asin; lra).
  rewrite <- HE.
  unfold asrElevation in *.
  replace (sin (lat * PI / 180) * sin (declination * PI / 180)
           + cos (lat * PI / 180) * cos (declination * PI / 180))
    with (cos ((lat - declination) * PI / 180)) in *
    by (rewrite deg_minus, cos_minus; ring).
  set (c := cos ((lat - declination) * PI / 180)) in *.
  pose proof (asin_bound c) as [_ Hup].
  assert (Hpos : 0 < asin c).
  { assert (H0 : 0 <= asin c) by (rewrite <- asin_0; apply asin_le; lra).
    destruct H0 as [H0|H0]; [assumption|].
    exfalso. rewrite <- H0, sin_0 in HE. lra. }
  set (E := asin c) in *.
  apply sin_incr_1; try lra.
  destruct Hup as [Hup|Hup]; [|lra].
  (* 1 / (1 + tan (PI/2 - E)) <= tan E *)
  assert (HsE : 0 < sin E) by (apply sin_gt_0; lra).
  assert (HcE : 0 < cos E) by (apply cos_gt_0; lra).
  assert (Hx : tan (PI / 2 - E) = cos E / sin E).
  { unfold tan. rewrite sin_shift, cos_shift. reflexivity. }
  rewrite Hx in *.
  apply Rle_trans with (atan (tan E)); [|rewrite atan_tan; lra].
  apply atan_le. unfold tan.
  assert (Hq : 0 < cos E / sin E) by (apply Rdiv_lt_0_compat; assumption).
  apply Rmult_le_reg_r with (1 + cos E / sin E); [lra|].
  replace (1 / (1 + cos E / sin E) * (1 + cos E / sin E)) with 1
    by (field; split; lra).
  replace (sin E / cos E * (1 + cos E / sin E)) with (sin E / cos E + 1)
    by (field; split; lra).
  assert (0 < sin E / cos E) by (apply Rdiv_lt_0_compat; assumption).
  lra.
Qed.

(** X12.  Latitude bands free of fallback, on every date: within 48.561
    degrees of the equator Fajr is always solved, within 49.561 Isha,
    within 65.728 Sunrise and Maghrib, and inside the polar circles
    (66.561) Asr. *)
Theorem fallback_free_bands (lat : R) (date : Date) :
  let declination := getSolarDeclination (getJulianDate date) in
  (Rabs lat <= 48.561 -> Rabs (cosHourAngle lat declination fajrAngle) <= 1)
  /\ (Rabs lat <= 49.561 ->
      Rabs (cosHourAngle lat declination ishaAngle) <= 1)
  /\ (Rabs lat <= 65.728 ->
      Rabs (cosHourAngle lat declination maghribAngle) <= 1)
  /\ (Rabs lat < 66.561 -> Rabs (asrCosHourAngle lat declination) <= 1).
Proof.
  intros declination.
  pose proof (getSolarDeclination_bound (getJulianDate date)) as Hdec.
  fold declination in Hdec.
  assert (Hsum : forall b, Rabs lat <= b ->
            Rabs (lat + declination) <= b + 23.439
            /\ Rabs (lat - declination) <= b + 23.439 /\ - b <= lat <= b).
  { intros b Hb. apply Rabs_le_iff in Hb.
    split; [apply Rabs_le_iff; lra|].
    split; [apply Rabs_le_iff; lra | lra]. }
  split; [|split; [|split]].
  - intros Hb. destruct (Hsum _ Hb) as (H1 & H2 & H3).
    apply cosHourAngle_solvable_deg; unfold fajrAngle; lra.
  - intros Hb. destruct (Hsum _ Hb) as (H1 & H2 & H3).
    apply cosHourAngle_solvable_deg; unfold ishaAngle; lra.
  - intros Hb. destruct (Hsum _ Hb) as (H1 & H2 & H3).
    apply cosHourAngle_solvable_deg; unfold maghribAngle; lra.
  - intros Hb.
    assert (Hl : -66.561 < lat < 66.561).
    { unfold Rabs in Hb. destruct (Rcase_abs lat); lra. }
    unfold asrCosHourAngle. apply quotient_solvable.
    + apply Rmult_lt_0_compat; apply cos_deg_pos; lra.
    + pose proof (asrElevation_range lat declination ltac:(lra)) as [Hlo Hhi].
      pose proof PI_RGT_0 as Hpi.
      assert (0 <= sin (asrElevation lat declination))
        by (apply sin_ge_0; lra).
      assert (0 < cos ((lat + declination) * PI / 180))
        by (apply cos_deg_pos; lra).
      split; [lra|]. apply asrElevation_below_noon. lra.
Qed.

Lemma fallback_free_bands_witness :
  Rabs (asrCosHourAngle 45
          (getSolarDeclination (getJulianDate Fixtures.y2024_jun_21))) <= 1.
Proof.
  apply (fallback_free_bands 45 Fixtures.y2024_jun_21).
  rewrite Rabs_pos_eq; lra.
Defined.

End Branches.

(** ** The geocoding table *)

Section Geocode.

Import JSString PrayerTimes Service Props.
Local Open Scope string_scope.

Example geocodeLocation_york :
  latitude (geocodeLocation "york" None) = 40.7128.
Proof. reflexivity. Qed.

Example geocodeLocation_unknown :
  (latitude (geocodeLocation "Paris" (Some "France")),
   longitude (geocodeLocation "Paris" (Some "France")),
   country (geocodeLocation "Paris" (Some "France")))
  = (0, 0, Some "France").
Proof. reflexivity. Qed.

(** X13.  No entry of the table shadows another: a query equal to one of
    the seven city names, in any letter case, gets that city's own
    coordinates. *)
Theorem geocodeLocation_table
    (city : string) (country : option string) (name : string) (coords : R * R) :
  In (name, coords) mockCoordinates ->
  toLowerCase city = toLowerCase name ->
  latitude (geocodeLocation city country) = fst coords
  /\ longitude (geocodeLocation city country) = snd coords.
Proof.
  intros Hin Hlow. unfold geocodeLocation. cbv zeta. rewrite Hlow.
  unfold mockCoordinates in Hin. simpl in Hin.
  repeat (destruct Hin as [[= <- <-] | Hin]; [split; reflexivity|]).
  contradiction.
Qed.

Lemma geocodeLocation_table_witness :
  latitude (geocodeLocation "MECCA" None) = 21.4225
  /\ longitude (geocodeLocation "MECCA" None) = 39.8262.
Proof.
  apply (geocodeLocation_table "MECCA" None "Mecca" (21.4225, 39.8262)).
  - simpl. tauto.
  - reflexivity.
Defined.

(** X14.  The empty query, and any query that is a fragment of "london"
    (compared in lower case), is answered with London's coordinates:
    every name contains the empty string, and London is first in the
    table. *)
Theorem geocodeLocation_fragment (city : string) (country : option string) :
  includes "london" (toLowerCase city) = true ->
  latitude (geocodeLocation city country) = 51.5074
  /\ longitude (geocodeLocation city country) = -0.1278.
Proof.
  intros H. unfold geocodeLocation. cbv zeta.
  unfold mockCoordinates. cbn [lookupCity].
  change (toLowerCase "London") with "london". rewrite H.
  split; reflexivity.
Qed.

Lemma geocodeLocation_fragment_witness :
  latitude (geocodeLocation "" None) = 51.5074
  /\ longitude (geocodeLocation "" None) = -0.1278.
Proof. apply geocodeLocation_fragment. reflexivity. Defined.

End Geocode.

(** ** Parsing in the notification service *)

Section ParseTimeString.

Import JSString PrayerTimes Service Props Notification.
Local Open Scope string_scope.
Local Open Scope Z_scope.

Example parseTimeString_padded : parseTimeString "  7:35 pm " = Some (19, 35).
Proof. reflexivity. Qed.

Example parseTimeString_13 : parseTimeString "13:00 PM" = None.
Proof. reflexivity. Qed.

Example parseTime_13 : parseTime "13:00 PM" = Some (25, 0).
Proof. reflexivity. Qed.

(** X15.  Whatever the string, when [parseTimeString] answers it answers a
    valid time of the 24-hour clock: hours 0..23 and minutes 0..59. *)
Theorem parseTimeString_valid (timeString : string) (hours minutes : Z) :
  parseTimeString timeString = Some (hours, minutes) ->
  validClock hours minutes.
Proof.
  unfold parseTimeString, validClock.
  destruct (matchTime (trim timeString)) as [[[g1 g2] g3]|]; [|discriminate].
  cbv zeta.
  set (h := parseInt g1). set (m := parseInt g2).
  destruct ((m <? 0) || (m >? 59) || (h <? 1) || (h >? 12)) eqn:Hbad;
    [discriminate|].
  repeat (apply orb_false_iff in Hbad; destruct Hbad as [Hbad ?]).
  assert (0 <= m) by (apply Z.ltb_ge; assumption).
  assert (m <= 59) by (rewrite Z.gtb_ltb in *; apply Z.ltb_ge; assumption).
  assert (1 <= h) by (apply Z.ltb_ge; assumption).
  assert (h <= 12) by (rewrite Z.gtb_ltb in *; apply Z.ltb_ge; assumption).
  destruct ((toUpperCase g3 =? "PM")%string && negb (h =? 12)) eqn:Hpm.
  - intros [= <- <-].
    apply andb_true_iff in Hpm. destruct Hpm as [_ Hne].
    apply negb_true_iff, Z.eqb_neq in Hne. lia.
  - destruct ((toUpperCase g3 =? "AM")%string && (h =? 12)).
    + intros [= <- <-]. lia.
    + intros [= <- <-]. lia.
Qed.

Lemma parseTimeString_valid_witness : validClock 19 35.
Proof. apply (parseTimeString_valid "  7:35 pm " 19 35). reflexivity. Defined.

Lemma parsesBack_all :
  forallb (fun h => forallb (fun m => parsesBack (Z.of_nat h) (Z.of_nat m))
                            (seq 0 60))
          (seq 0 24) = true.
Proof. vm_compute. reflexivity. Qed.

Lemma parseTimeString_of_formatTime (h m : Z) :
  validClock h m -> parseTimeString (formatTime h m) = Some (h, m).
Proof.
  intros [Hh Hm].
  pose proof parsesBack_all as Hall.
  rewrite forallb_forall in Hall.
  assert (Hin : In (Z.to_nat h) (seq 0 24)) by (apply in_seq; lia).
  specialize (Hall _ Hin). rewrite forallb_forall in Hall.
  assert (Hin' : In (Z.to_nat m) (seq 0 60)) by (apply in_seq; lia).
  specialize (Hall _ Hin').
  rewrite !Z2Nat.id in Hall by lia.
  unfold parsesBack in Hall.
  destruct (parseTimeString (formatTime h m)) as [[h' m']|]; [|discriminate].
  apply andb_true_iff in Hall. destruct Hall as [E1 E2].
  apply Z.eqb_eq in E1, E2. congruence.
Qed.

(** X16.  The notification service reads every displayed time back: for
    every hour in 0..23 and minute in 0..59, [parseTimeString] of the
    string [calculatePrayerTimes] renders is that hour and minute; its
    range check never rejects a rendered time. *)
Theorem parseTimeString_formatTime (h m : Z) :
  validClock h m -> parseTimeString (formatTime h m) = Some (h, m).
Proof. exact (parseTimeString_of_formatTime h m). Qed.

Lemma parseTimeString_formatTime_witness :
  parseTimeString (formatTime 12 0) = Some (12, 0).
Proof. apply parseTimeString_formatTime. unfold validClock. lia. Defined.

End ParseTimeString.

(** ** What gets scheduled *)

Section Schedule.

Import JSString PrayerTimes Service Props Notification.
Local Open Scope string_scope.
Local Open Scope Z_scope.

Variable settings : NotificationSettings.
Variable now : Z.
Hypothesis Hnow : 0 <= now < 86400000.

(** The requests of one prayer whose time is a rendered clock time. *)
Lemma schedulePrayer_requests (p : PrayerTime) (h m : Z) :
  validClock h m -> time p = formatTime h m ->
  Forall (fun r => prayerName r = name p
                   /\ name p <> "Sunrise"
                   /\ now < trigger r <= now + 86400000)
         (schedulePrayer settings now p).
Proof.
  intros Hv Ht. unfold schedulePrayer.
  destruct (name p =? "Sunrise")%string eqn:Hs; [constructor|].
  apply String.eqb_neq in Hs.
  rewrite Ht, (parseTimeString_of_formatTime h m Hv). cbv zeta.
  set (target := (h * 60 + m) * 60000).
  assert (Htarget : 0 <= target <= 86340000)
    by (unfold target, validClock in *; lia).
  set (prayerTime := if target <=? now then target + 86400000 else target).
  assert (Hpt : now < prayerTime <= now + 86400000).
  { unfold prayerTime. destruct (Z.leb_spec target now); lia. }
  apply Forall_app. split.
  - destruct (reminderMinutes settings >? 0) eqn:Hr; [|constructor].
    destruct (prayerTime - reminderMinutes settings * 60 * 1000 >? now)
      eqn:Hgt; [|constructor].
    unfold scheduleNotification.
    rewrite Z.gtb_ltb in Hr, Hgt. apply Z.ltb_lt in Hr, Hgt.
    destruct (Z.leb_spec (prayerTime - reminderMinutes settings * 60 * 1000)
                         now); constructor; [|constructor].
    cbn [prayerName trigger].
    repeat split; try assumption; lia.
  - destruct (adhanEnabled settings); [|constructor].
    unfold scheduleNotification.
    destruct (Z.leb_spec prayerTime now); constructor; [|constructor].
    cbn [prayerName trigger]. repeat split; try assumption; lia.
Qed.

(** With the adhan enabled, each prayer other than Sunrise gets exactly
    one adhan request, at the next time the clock shows its time. *)
Lemma schedulePrayer_adhan (p : PrayerTime) (h m : Z) :
  validClock h m -> time p = formatTime h m ->
  adhanEnabled settings = true ->
  map (fun r => (prayerName r, trigger r))
      (filter isAdhan (schedulePrayer settings now p))
  = if (name p =? "Sunrise")%string then []
    else [ (name p, now + waitMs h m now) ].
Proof.
  intros Hv Ht Ha. unfold schedulePrayer.
  destruct (name p =? "Sunrise")%string; [reflexivity|].
  rewrite Ht, (parseTimeString_of_formatTime h m Hv). cbv zeta.
  set (target := (h * 60 + m) * 60000).
  assert (Htarget : 0 <= target <= 86340000)
    by (unfold target, validClock in *; lia).
  set (prayerTime := if target <=? now then target + 86400000 else target).
  assert (Hpt : now < prayerTime /\ prayerTime = now + waitMs h m now).
  { unfold prayerTime, waitMs. cbv zeta. fold target.
    destruct (Z.leb_spec target now); lia. }
  destruct Hpt as [Hpt Hw].
  rewrite Ha, filter_app.
  assert (Hrem : filter isAdhan
            (if reminderMinutes settings >? 0 then
               if prayerTime - reminderMinutes settings * 60 * 1000 >? now
               then scheduleNotification settings now
                      (name p ++ " Prayer Reminder")
                      (name p ++ " prayer is in "
                       ++ toString (reminderMinutes settings)
                       ++ " minutes at " ++ formatTime h m)
                      (prayerTime - reminderMinutes settings * 60 * 1000)
                      (name p) "reminder"
               else []
             else []) = []).
  { destruct (_ >? 0); [|reflexivity].
    destruct (_ >? now); [|reflexivity].
    unfold scheduleNotification.
    destruct (prayerTime - reminderMinutes settings * 60 * 1000 <=? now);
      reflexivity. }
  rewrite Hrem. unfold scheduleNotification.
  destruct (Z.leb_spec prayerTime now); [lia|].
  cbn. rewrite Hw. reflexivity.
Qed.

End Schedule.

Section ScheduleAll.

Import JSString PrayerTimes Service Props Notification.
Local Open Scope string_scope.
Local Open Scope Z_scope.

Lemma annotate_rendered (now : Date) (times : list Solar.Entry.t) :
  Forall validEntry times ->
  Forall2 (fun p e =>
             validEntry e /\ name p = Solar.Entry.name e
             /\ time p = formatTime (Solar.Entry.hour e) (Solar.Entry.minute e))
          (annotate now times) times.
Proof.
  intros Hv. unfold annotate, mapIndexed.
  apply (Forall2_mapFrom validEntry); [exact Hv|].
  intros e j He. split; [exact He|]. split; reflexivity.
Qed.

(** X17.  With the clock read once during the call and days taken as 24
    hours: whatever the settings and whatever the platform answers, every
    request [scheduleAllPrayerNotifications] hands to the platform is for
    Fajr, Dhuhr, Asr, Maghrib or Isha, never for Sunrise, and its trigger
    is strictly after the clock reading and at most 24 hours after it. *)
Theorem scheduleAllPrayerNotifications_requests
    (settings : NotificationSettings) (cancelAll : outcome unit)
    (env : Platform) (ms : Z) (location : option LocationData) :
  validNow (clock env) ms ->
  Forall (fun r =>
            In (prayerName r) announced
            /\ msOfDay (clock env) ms < trigger r
               <= msOfDay (clock env) ms + 86400000)
         (scheduleAllPrayerNotifications settings cancelAll env ms location).
Proof.
  intros Hnow. pose proof (msOfDay_range _ _ Hnow) as Hms.
  unfold scheduleAllPrayerNotifications.
  destruct cancelAll; [|constructor].
  destruct (negb (notificationsEnabled settings)); [constructor|].
  destruct (getPrayerTimes_annotate env location (clock env))
    as (times & E & Hv & Hnames).
  rewrite E. cbv zeta.
  pose proof (annotate_rendered (clock env) times Hv) as HF.
  assert (Hn : Forall (fun e => In (Solar.Entry.name e)
                                  ("Sunrise" :: announced)) times).
  { destruct (six_names times Hnames) as (e0 & e1 & e2 & e3 & e4 & e5 & ->).
    injection Hnames as N0 N1 N2 N3 N4 N5.
    repeat constructor; rewrite ?N0, ?N1, ?N2, ?N3, ?N4, ?N5; simpl; tauto. }
  clear E Hv Hnames. revert Hn.
  induction HF as [|p e ps es (He & Hname & Htime) HF IH]; intros Hn.
  - constructor.
  - inversion Hn as [|? ? Hne Hnes]; subst.
    cbn [flat_map]. apply Forall_app. split; [|apply IH; assumption].
    pose proof (schedulePrayer_requests settings _ Hms p _ _ He Htime) as Hp.
    rewrite Forall_forall in Hp |- *.
    intros r Hr. destruct (Hp r Hr) as (Hrn & Hns & Ht).
    split; [|exact Ht].
    rewrite Hrn, Hname in *. simpl in Hne. unfold announced. simpl.
    destruct Hne as [Hne | Hne]; [congruence | exact Hne].
Qed.

Lemma scheduleAllPrayerNotifications_requests_witness :
  Forall (fun r =>
            In (prayerName r) announced /\ 0 < trigger r <= 0 + 86400000)
         (scheduleAllPrayerNotifications
            (mkSettings true true 15 true) (Resolved tt)
            {| requestForegroundPermissionsAsync := Resolved "denied";
               getCurrentPositionAsync := Rejected "unavailable";
               clock := Fixtures.midnight |} 0 None).
Proof.
  apply (scheduleAllPrayerNotifications_requests
           (mkSettings true true 15 true) (Resolved tt)
           {| requestForegroundPermissionsAsync := Resolved "denied";
              getCurrentPositionAsync := Rejected "unavailable";
              clock := Fixtures.midnight |} 0 None).
  unfold validNow, validClock. simpl. lia.
Defined.

(** X18.  With the clock read once during the call and days taken as 24
    hours, notifications and the adhan enabled and the old notifications
    cancelled: the adhan requests are, in the order of the list of
    [getPrayerTimes], exactly one for each prayer other than Sunrise
    whose displayed time [parseTimeString] accepts, each triggered at the
    next time the clock shows that time; and the requests for Fajr,
    Dhuhr, Maghrib and Isha are always among them, in that order. *)
Theorem scheduleAllPrayerNotifications_adhan
    (settings : NotificationSettings) (env : Platform) (ms : Z)
    (location : option LocationData) :
  validNow (clock env) ms ->
  notificationsEnabled settings = true -> adhanEnabled settings = true ->
  let now := msOfDay (clock env) ms in
  let adhans :=
    map (fun r => (prayerName r, trigger r))
        (filter isAdhan
           (scheduleAllPrayerNotifications settings (Resolved tt)
                                           env ms location)) in
  exists prayers,
    getPrayerTimes env location (clock env) = Resolved prayers
    /\ Forall2
         (fun (r : string * Z) (p : PrayerTime) =>
            fst r = name p
            /\ exists hours minutes,
                 parseTimeString (time p) = Some (hours, minutes)
                 /\ snd r = now + waitMs hours minutes now)
         adhans (filter scheduled prayers)
    /\ filter (fun n => negb (n =? "Asr")%string) (map fst adhans)
       = ["Fajr"; "Dhuhr"; "Maghrib"; "Isha"].
Proof.
  intros Hnow Hen Had now adhans. pose proof (msOfDay_range _ _ Hnow) as Hms.
  fold now in Hms.
  destruct (getPrayerTimes_annotate env location (clock env))
    as (times & E & Hv & Hnames).
  exists (annotate (clock env) times). split; [exact E|].
  unfold adhans, scheduleAllPrayerNotifications.
  rewrite Hen, E. cbn [negb]. cbv zeta. fold now.
  pose proof (annotate_rendered (clock env) times Hv) as HF.
  assert (Hstep : forall p e,
            validEntry e ->
            time p = formatTime (Solar.Entry.hour e) (Solar.Entry.minute e) ->
            map (fun r => (prayerName r, trigger r))
                (filter isAdhan (schedulePrayer settings now p))
            = if (name p =? "Sunrise")%string then []
              else [ (name p, now + waitMs (Solar.Entry.hour e)
                                           (Solar.Entry.minute e) now) ]).
  { intros p e He Ht. apply schedulePrayer_adhan; assumption. }
  split.
  - clear Hnames Hv E.
    induction HF as [|p e ps es (He & Hname & Htime) HF IH].
    + constructor.
    + cbn [flat_map filter].
      rewrite filter_app, map_app, (Hstep p e He Htime).
      unfold scheduled at 1.
      rewrite Htime, (parseTimeString_of_formatTime _ _ He).
      destruct (name p =? "Sunrise")%string; cbn [negb andb app].
      * exact IH.
      * constructor; [|exact IH].
        split; [reflexivity|].
        exists (Solar.Entry.hour e), (Solar.Entry.minute e).
        split; [|reflexivity].
        rewrite Htime. apply parseTimeString_of_formatTime. exact He.
  - assert (Hall : forall ps es,
              Forall2 (fun p e =>
                         validEntry e /\ name p = Solar.Entry.name e
                         /\ time p = formatTime (Solar.Entry.hour e)
                                                (Solar.Entry.minute e)) ps es ->
              map fst
                  (map (fun r => (prayerName r, trigger r))
                       (filter isAdhan
                          (flat_map (schedulePrayer settings now) ps)))
              = filter (fun n => negb (n =? "Sunrise")%string)
                       (map Solar.Entry.name es)).
    { intros ps es H. induction H as [|p e ps es (He & Hname & Htime) H IH].
      - reflexivity.
      - cbn [flat_map filter map].
        rewrite filter_app, !map_app, IH, (Hstep p e He Htime), <- Hname.
        destruct (name p =? "Sunrise")%string; reflexivity. }
    rewrite (Hall _ _ HF), Hnames. reflexivity.
Qed.

Lemma scheduleAllPrayerNotifications_adhan_witness :
  filter (fun n => negb (n =? "Asr")%string)
    (map fst
       (map (fun r => (prayerName r, trigger r))
          (filter isAdhan
             (scheduleAllPrayerNotifications
                (mkSettings true true 15 true) (Resolved tt)
                {| requestForegroundPermissionsAsync := Resolved "denied";
                   getCurrentPositionAsync := Rejected "unavailable";
                   clock := Fixtures.midnight |} 0 None))))
  = ["Fajr"; "Dhuhr"; "Maghrib"; "Isha"].
Proof.
  destruct (scheduleAllPrayerNotifications_adhan
              (mkSettings true true 15 true)
              {| requestForegroundPermissionsAsync := Resolved "denied";
                 getCurrentPositionAsync := Rejected "unavailable";
                 clock := Fixtures.midnight |} 0 None)
    as (prayers & _ & _ & H);
    [unfold validNow, validClock; simpl; lia | reflexivity | reflexivity
    | exact H].
Defined.

End ScheduleAll.

(** ** Polar angles *)

Section Polar.

(** The sign of [cos] on (-PI, PI]. *)
Lemma cos_pos_inv (t : R) :
  - PI < t <= PI -> 0 < cos t -> - (PI / 2) < t < PI / 2.
Proof.
  intros Ht Hc. pose proof PI_RGT_0 as Hpi. split.
  - destruct (Rlt_dec (- (PI / 2)) t) as [H|H]; [assumption|exfalso].
    assert (cos (- t) <= 0) by (apply cos_le_0; lra).
    rewrite cos_neg in H0. lra.
  - destruct (Rlt_dec t (PI / 2)) as [H|H]; [assumption|exfalso].
    assert (cos t <= 0) by (apply cos_le_0; lra). lra.
Qed.

Lemma atan_tan_ratio (r u : R) :
  0 < r -> - (PI / 2) < u < PI / 2 -> atan (r * sin u / (r * cos u)) = u.
Proof.
  intros Hr Hu.
  assert (Hc : 0 < cos u) by (apply cos_gt_0; lra).
  replace (r * sin u / (r * cos u)) with (tan u)
    by (unfold tan; field; lra).
  apply atan_tan. lra.
Qed.

(** [Math.atan2] recovers the polar angle of a point. *)
Lemma Math_atan2_polar (r t : R) :
  0 < r -> - PI < t <= PI -> Math_atan2 (r * sin t) (r * cos t) = t.
Proof.
  intros Hr Ht. pose proof PI_RGT_0 as Hpi. unfold Math_atan2.
  destruct (Rlt_dec 0 (r * cos t)) as [Hx|Hx].
  - assert (Hc : 0 < cos t) by nra.
    apply atan_tan_ratio; [assumption|]. apply cos_pos_inv; assumption.
  - destruct (Rlt_dec (r * cos t) 0) as [Hx'|Hx'].
    + assert (Hc : cos t < 0) by nra.
      destruct (Rle_dec 0 (r * sin t)) as [Hy|Hy].
      * assert (Hs : 0 <= sin t) by nra.
        assert (H0 : 0 <= t).
        { destruct (Rle_dec 0 t) as [H|H]; [assumption|exfalso].
          assert (sin t < 0) by (apply sin_lt_0_var; lra). lra. }
        assert (H1 : PI / 2 < t).
        { destruct (Rlt_dec (PI / 2) t) as [H|H]; [assumption|exfalso].
          assert (0 <= cos t) by (apply cos_ge_0; lra). lra. }
        set (u := t - PI).
        assert (Esin : sin t = - sin u)
          by (unfold u; rewrite <- neg_sin; f_equal; lra).
        assert (Ecos : cos t = - cos u)
          by (unfold u; rewrite <- neg_cos; f_equal; lra).
        rewrite Esin, Ecos.
        replace (r * - sin u / (r * - cos u))
          with (r * sin u / (r * cos u)) by (field; nra).
        rewrite atan_tan_ratio; unfold u; lra.
      * assert (Hs : sin t < 0) by nra.
        assert (H0 : t < 0).
        { destruct (Rlt_dec t 0) as [H|H]; [assumption|exfalso].
          assert (0 <= sin t) by (apply sin_ge_0; lra). lra. }
        assert (H1 : t < - (PI / 2)).
        { destruct (Rlt_dec t (- (PI / 2))) as [H|H]; [assumption|exfalso].
          assert (0 <= cos t) by (apply cos_ge_0; lra). lra. }
        set (u := t + PI).
        assert (Esin : sin t = - sin u)
          by (unfold u; rewrite neg_sin; lra).
        assert (Ecos : cos t = - cos u)
          by (unfold u; rewrite neg_cos; lra).
        rewrite Esin, Ecos.
        replace (r * - sin u / (r * - cos u))
          with (r * sin u / (r * cos u)) by (field; nra).
        rewrite atan_tan_ratio; unfold u; lra.
    + assert (Hc : cos t = 0) by nra.
      assert (Hcases : t = PI / 2 \/ t = - (PI / 2)).
      { destruct (Rtotal_order t (PI / 2)) as [H|[H|H]].
        - destruct (Rtotal_order t (- (PI / 2))) as [H'|[H'|H']].
          + exfalso. assert (cos (- t) < 0) by (apply cos_lt_0; lra).
            rewrite cos_neg in H0. lra.
          + right. assumption.
          + exfalso. assert (0 < cos t) by (apply cos_gt_0; lra). lra.
        - left. assumption.
        - exfalso. assert (cos t < 0) by (apply cos_lt_0; lra). lra. }
      destruct Hcases as [E|E]; rewrite E.
      * rewrite sin_PI2. destruct (Rlt_dec 0 (r * 1)); [reflexivity|lra].
      * rewrite sin_neg, sin_PI2.
        destruct (Rlt_dec 0 (r * - (1))) as [H|H]; [lra|].
        destruct (Rlt_dec (r * - (1)) 0); [reflexivity|lra].
Qed.

(** A positive ordinate puts the angle strictly between [0] and [PI]. *)
Lemma Math_atan2_pos (y x : R) : 0 < y -> 0 < Math_atan2 y x < PI.
Proof.
  intros Hy. pose proof PI_RGT_0 as Hpi. unfold Math_atan2.
  destruct (Rlt_dec 0 x) as [Hx|Hx].
  - assert (Hinv : 0 < / x) by (apply Rinv_0_lt_compat; assumption).
    assert (0 < y / x) by (unfold Rdiv; nra).
    assert (0 < atan (y / x))
      by (rewrite <- atan_0; apply atan_increasing; assumption).
    pose proof (atan_bound (y / x)). lra.
  - destruct (Rlt_dec x 0) as [Hx'|Hx'].
    + destruct (Rle_dec 0 y) as [Hy'|Hy']; [|lra].
      assert (Hinv : / x < 0) by (apply Rinv_lt_0_compat; assumption).
      assert (y / x < 0) by (unfold Rdiv; nra).
      assert (atan (y / x) < 0)
        by (rewrite <- atan_0; apply atan_increasing; assumption).
      pose proof (atan_bound (y / x)). lra.
    + destruct (Rlt_dec 0 y); lra.
Qed.

(** Degrees from a polar angle, normalised as the compass does. *)
Lemma rem_360_nonneg (d : R) : 0 <= d < 360 -> rem (d + 360) 360 = d.
Proof.
  intros Hd. rewrite (rem_eq _ _ 1); simpl; lra || lia.
Qed.

Lemma rem_360_neg (d : R) : -360 < d < 0 -> rem (d + 360) 360 = d + 360.
Proof.
  intros Hd. rewrite (rem_eq _ _ 0); simpl; lra || lia.
Qed.

End Polar.

(** ** The compass heading *)

Section Heading.

Import Compass.

(** X19.  The heading the magnetometer listener stores is always in
    [0, 360): it is [Math.atan2 (y, x)] in degrees for a reading with
    [y >= 0], and that angle plus 360 for a reading with [y < 0]. *)
Theorem magneticHeading_range (x y : R) :
  0 <= magneticHeading x y < 360
  /\ magneticHeading x y
     = if Rle_dec 0 y then Math_atan2 y x * (180 / PI)
       else Math_atan2 y x * (180 / PI) + 360.
Proof.
  pose proof PI_RGT_0 as Hpi. unfold magneticHeading.
  assert (Hk : 0 < 180 / PI) by (apply Rdiv_lt_0_compat; lra).
  assert (Hpi180 : PI * (180 / PI) = 180) by (field; lra).
  pose proof (Math_atan2_bound y x) as Hb.
  destruct (Rle_dec 0 y) as [Hy|Hy].
  - assert (H0 : 0 <= Math_atan2 y x).
    { destruct Hy as [Hy|<-].
      - pose proof (Math_atan2_pos y x Hy). lra.
      - unfold Math_atan2.
        destruct (Rlt_dec 0 x); [unfold Rdiv; rewrite Rmult_0_l, atan_0; lra|].
        destruct (Rlt_dec x 0).
        + destruct (Rle_dec 0 0); [|lra].
          unfold Rdiv; rewrite Rmult_0_l, atan_0; lra.
        + destruct (Rlt_dec 0 0); lra. }
    assert (Hd : 0 <= Math_atan2 y x * (180 / PI) <= 180) by nra.
    destruct (Req_dec (Math_atan2 y x * (180 / PI)) 180) as [E|E].
    + rewrite E. rewrite (rem_eq _ _ 1); simpl; lra || lia.
    + rewrite rem_360_nonneg; lra.
  - pose proof (Math_atan2_neg y x ltac:(lra)) as Hn.
    assert (Hd : -180 < Math_atan2 y x * (180 / PI) < 0) by nra.
    rewrite rem_360_neg; lra.
Qed.

(** X20.  The heading is the polar angle of the reading: for a field of
    strength [r > 0] along the direction [theta] degrees, with
    [0 <= theta < 360], the listener stores [theta]. *)
Theorem magneticHeading_polar (r theta : R) :
  0 < r -> 0 <= theta < 360 ->
  magneticHeading (r * cos (theta * (PI / 180)))
                  (r * sin (theta * (PI / 180))) = theta.
Proof.
  intros Hr Ht. pose proof PI_RGT_0 as Hpi. unfold magneticHeading.
  assert (Hk : 0 < PI / 180) by (apply Rdiv_lt_0_compat; lra).
  destruct (Rle_dec theta 180) as [H|H].
  - rewrite Math_atan2_polar; [|assumption|split; nra].
    replace (theta * (PI / 180) * (180 / PI)) with theta by (field; lra).
    destruct (Req_dec theta 180) as [E|E].
    + rewrite E. rewrite (rem_eq _ _ 1); simpl; lra || lia.
    + rewrite rem_360_nonneg; lra.
  - set (t := theta * (PI / 180) - 2 * PI).
    assert (Esin : sin (theta * (PI / 180)) = sin t).
    { unfold t. replace (theta * (PI / 180))
        with (theta * (PI / 180) - 2 * PI + 2 * PI) at 1 by ring.
      rewrite sin_plus, sin_2PI, cos_2PI. ring. }
    assert (Ecos : cos (theta * (PI / 180)) = cos t).
    { unfold t. replace (theta * (PI / 180))
        with (theta * (PI / 180) - 2 * PI + 2 * PI) at 1 by ring.
      rewrite cos_plus, sin_2PI, cos_2PI. ring. }
    rewrite Esin, Ecos.
    assert (Hrange : - PI < t < 0).
    { unfold t. replace (2 * PI) with (360 * (PI / 180)) by (field; lra).
      split; nra. }
    rewrite Math_atan2_polar; [|assumption|lra].
    replace (t * (180 / PI)) with (theta - 360)
      by (unfold t; field; lra).
    rewrite rem_360_neg; lra.
Qed.

Lemma magneticHeading_polar_witness :
  magneticHeading (1 * cos (90 * (PI / 180))) (1 * sin (90 * (PI / 180)))
  = 90.
Proof. apply (magneticHeading_polar 1 90); lra. Defined.

End Heading.

(** ** The distance to the Kaaba *)

Section Distance.

Import Compass Props.

Lemma half_angle_sin (x : R) : sin (x / 2) * sin (x / 2) = (1 - cos x) / 2.
Proof.
  replace x with (2 * (x / 2)) at 3 by field.
  rewrite cos_2a_sin. field.
Qed.

Lemma half_angle_cos (x : R) : cos (x / 2) * cos (x / 2) = (1 + cos x) / 2.
Proof.
  pose proof (half_angle_sin x) as Hs.
  pose proof (sin2_cos2 (x / 2)) as H. unfold Rsqr in H. lra.
Qed.

(** The cosine of the central angle between two points of the sphere. *)
Lemma central_cosine_bound (s1 c1 s2 c2 t : R) :
  s1 * s1 + c1 * c1 = 1 -> s2 * s2 + c2 * c2 = 1 -> -1 <= t <= 1 ->
  -1 <= s1 * s2 + c1 * c2 * t <= 1.
Proof.
  intros H1 H2 Ht.
  assert (Hp : c1 * c2 * t <= Rabs (c1 * c2) /\ - Rabs (c1 * c2) <= c1 * c2 * t).
  { unfold Rabs. destruct (Rcase_abs (c1 * c2)); split; nra. }
  assert (Hq : Rabs (c1 * c2) <= 1 - s1 * s2 /\ Rabs (c1 * c2) <= 1 + s1 * s2).
  { pose proof (Rle_0_sqr (s1 - s2)) as A1.
    pose proof (Rle_0_sqr (s1 + s2)) as A2.
    pose proof (Rle_0_sqr (c1 - c2)) as A3.
    pose proof (Rle_0_sqr (c1 + c2)) as A4.
    unfold Rsqr in *.
    unfold Rabs. destruct (Rcase_abs (c1 * c2)); split; lra. }
  lra.
Qed.

(** The haversine formula computes the central angle. *)
Lemma haversine_central_angle (lat1 lon1 lat2 lon2 : R) :
  let phi1 := lat1 * PI / 180 in
  let phi2 := lat2 * PI / 180 in
  let dLat := (lat2 - lat1) * PI / 180 in
  let dLon := (lon2 - lon1) * PI / 180 in
  let a := sin (dLat / 2) * sin (dLat / 2)
           + cos phi1 * cos phi2 * sin (dLon / 2) * sin (dLon / 2) in
  0 <= a <= 1
  /\ calculateDistance lat1 lon1 lat2 lon2
     = 6371 * acos (sin phi1 * sin phi2 + cos phi1 * cos phi2 * cos dLon).
Proof.
  intros phi1 phi2 dLat dLon a. pose proof PI_RGT_0 as Hpi.
  set (K := sin phi1 * sin phi2 + cos phi1 * cos phi2 * cos dLon).
  assert (HK : -1 <= K <= 1).
  { apply central_cosine_bound.
    - pose proof (sin2_cos2 phi1) as H. unfold Rsqr in H. exact H.
    - pose proof (sin2_cos2 phi2) as H. unfold Rsqr in H. exact H.
    - pose proof (COS_bound dLon). lra. }
  assert (Ha : a = (1 - K) / 2).
  { unfold a, K.
    rewrite (half_angle_sin dLat).
    replace (cos phi1 * cos phi2 * sin (dLon / 2) * sin (dLon / 2))
      with (cos phi1 * cos phi2 * (sin (dLon / 2) * sin (dLon / 2))) by ring.
    rewrite (half_angle_sin dLon).
    replace dLat with (phi2 - phi1) by (unfold phi1, phi2, dLat; field).
    rewrite cos_minus. field. }
  split; [rewrite Ha; lra|].
  unfold calculateDistance. cbv zeta. fold phi1 phi2 dLat dLon. fold a.
  f_equal.
  set (theta := acos K).
  assert (Hth : 0 <= theta <= PI) by apply acos_bound.
  assert (Hcos : cos theta = K) by (apply cos_acos; assumption).
  assert (Hs : 0 <= sin (theta / 2)) by (apply sin_ge_0; lra).
  assert (Hc : 0 <= cos (theta / 2)) by (apply cos_ge_0; lra).
  assert (Ea : a = sin (theta / 2) * sin (theta / 2))
    by (rewrite half_angle_sin, Hcos; exact Ha).
  assert (Eb : 1 - a = cos (theta / 2) * cos (theta / 2))
    by (rewrite half_angle_cos, Hcos, Ha; field).
  rewrite Eb, Ea, !sqrt_square by assumption.
  pose proof (Math_atan2_polar 1 (theta / 2) ltac:(lra)) as Hp.
  rewrite !Rmult_1_l in Hp. rewrite Hp by lra. field.
Qed.

(** X21.  For two points at valid latitudes that are not within about
    9 km of being antipodal (the cosine of their central angle is at
    least -0.999999), [calculateDistance] is the great-circle distance on
    a sphere of radius 6371 km: the radius times the central angle, whose
    cosine is sin lat1 sin lat2 + cos lat1 cos lat2 cos (lon2 - lon1).
    The haversine term [a] is then between 0 and 0.9999995, so both
    square roots are of positive numbers. *)
Theorem calculateDistance_central_angle (lat1 lon1 lat2 lon2 : R) :
  -90 <= lat1 <= 90 -> -90 <= lat2 <= 90 ->
  -0.999999 <= centralCosine lat1 lon1 lat2 lon2 ->
  let dLat := (lat2 - lat1) * PI / 180 in
  let dLon := (lon2 - lon1) * PI / 180 in
  let a := sin (dLat / 2) * sin (dLat / 2)
           + cos (lat1 * PI / 180) * cos (lat2 * PI / 180)
             * sin (dLon / 2) * sin (dLon / 2) in
  0 <= a <= 0.9999995
  /\ calculateDistance lat1 lon1 lat2 lon2
     = 6371 * acos (centralCosine lat1 lon1 lat2 lon2).
Proof.
  intros _ _ HK dLat dLon a.
  destruct (haversine_central_angle lat1 lon1 lat2 lon2) as [Ha E].
  cbv zeta in Ha, E. fold dLat dLon in Ha. fold a in Ha.
  split; [|exact E].
  split; [apply Ha|].
  assert (Ea : a = (1 - centralCosine lat1 lon1 lat2 lon2) / 2).
  { unfold a, centralCosine.
    rewrite (half_angle_sin dLat).
    replace (cos (lat1 * PI / 180) * cos (lat2 * PI / 180)
             * sin (dLon / 2) * sin (dLon / 2))
      with (cos (lat1 * PI / 180) * cos (lat2 * PI / 180)
            * (sin (dLon / 2) * sin (dLon / 2))) by ring.
    rewrite (half_angle_sin dLon).
    replace dLat with (lat2 * PI / 180 - lat1 * PI / 180)
      by (unfold dLat; field).
    rewrite cos_minus. fold dLon. field. }
  lra.
Qed.

Lemma calculateDistance_central_angle_witness :
  calculateDistance 0 0 0 0 = 6371 * acos (centralCosine 0 0 0 0).
Proof.
  apply (calculateDistance_central_angle 0 0 0 0); try lra.
  unfold centralCosine.
  replace (0 * PI / 180) with 0 by field.
  replace ((0 - 0) * PI / 180) with 0 by field.
  rewrite sin_0, cos_0. lra.
Defined.

(** X22.  For two points at valid latitudes that are not within about
    9 km of being antipodal, the distance is never negative and never
    more than half the circumference, 6371 * PI km; it does not depend on
    the order of the two points; and from a point to itself it is 0. *)
Theorem calculateDistance_metric (lat1 lon1 lat2 lon2 : R) :
  -90 <= lat1 <= 90 -> -90 <= lat2 <= 90 ->
  -0.999999 <= centralCosine lat1 lon1 lat2 lon2 ->
  0 <= calculateDistance lat1 lon1 lat2 lon2 <= 6371 * PI
  /\ calculateDistance lat1 lon1 lat2 lon2
     = calculateDistance lat2 lon2 lat1 lon1
  /\ calculateDistance lat1 lon1 lat1 lon1 = 0.
Proof.
  intros _ _ _. pose proof PI_RGT_0 as Hpi.
  destruct (haversine_central_angle lat1 lon1 lat2 lon2) as [_ E].
  destruct (haversine_central_angle lat2 lon2 lat1 lon1) as [_ E'].
  destruct (haversine_central_angle lat1 lon1 lat1 lon1) as [_ E0].
  cbv zeta in *.
  split; [|split].
  - rewrite E.
    pose proof (acos_bound (sin (lat1 * PI / 180) * sin (lat2 * PI / 180)
       + cos (lat1 * PI / 180) * cos (lat2 * PI / 180)
         * cos ((lon2 - lon1) * PI / 180))). nra.
  - rewrite E, E'. f_equal. f_equal.
    replace ((lon1 - lon2) * PI / 180) with (- ((lon2 - lon1) * PI / 180))
      by field.
    rewrite cos_neg. ring.
  - rewrite E0.
    replace ((lon1 - lon1) * PI / 180) with 0 by field.
    rewrite cos_0.
    pose proof (sin2_cos2 (lat1 * PI / 180)) as H. unfold Rsqr in H.
    replace (sin (lat1 * PI / 180) * sin (lat1 * PI / 180)
             + cos (lat1 * PI / 180) * cos (lat1 * PI / 180) * 1)
      with 1 by lra.
    rewrite acos_1. ring.
Qed.

Lemma calculateDistance_metric_witness :
  0 <= calculateDistance 0 0 0 90 <= 6371 * PI.
Proof.
  apply (calculateDistance_metric 0 0 0 90); try lra.
  unfold centralCosine.
  replace (0 * PI / 180) with 0 by field.
  replace ((90 - 0) * PI / 180) with (PI / 2) by field.
  rewrite sin_0, cos_0, cos_PI2. lra.
Defined.

End Distance.

(** ** Which way the Qibla lies *)

Section QiblaSide.

Import Qibla.

Lemma Math_atan2_opp (y x : R) :
  0 < y -> Math_atan2 (- y) x = - Math_atan2 y x.
Proof.
  intros Hy. unfold Math_atan2.
  replace (- y / x) with (- (y / x)) by (unfold Rdiv; ring).
  rewrite atan_opp.
  destruct (Rlt_dec 0 x); [reflexivity|].
  destruct (Rlt_dec x 0).
  - destruct (Rle_dec 0 (- y)); [lra|].
    destruct (Rle_dec 0 y); [|lra]. ring.
  - destruct (Rlt_dec 0 (- y)); [lra|].
    destruct (Rlt_dec (- y) 0); [|lra].
    destruct (Rlt_dec 0 y); [|lra]. ring.
Qed.

(** X23.  West of the Kaaba's meridian (by less than 180 degrees of
    longitude) the bearing is between 0 and 180, that is, toward the
    east; and the bearing from the mirror point east of that meridian,
    at the same latitude, is 360 minus it, that is, toward the west. *)
Theorem calculateQiblaDirection_mirror (userLat d : R) :
  0 < d < 180 ->
  0 < calculateQiblaDirection userLat (39.8262 - d) < 180
  /\ calculateQiblaDirection userLat (39.8262 + d)
     = 360 - calculateQiblaDirection userLat (39.8262 - d).
Proof.
  intros Hd. pose proof PI_RGT_0 as Hpi.
  assert (Hk : 0 < PI / 180) by (apply Rdiv_lt_0_compat; lra).
  assert (Hk' : 0 < 180 / PI) by (apply Rdiv_lt_0_compat; lra).
  unfold calculateQiblaDirection. cbn [latitude longitude KAABA_LOCATION].
  cbv zeta.
  replace (39.8262 * (PI / 180) - (39.8262 - d) * (PI / 180))
    with (d * (PI / 180)) by ring.
  replace (39.8262 * (PI / 180) - (39.8262 + d) * (PI / 180))
    with (- (d * (PI / 180))) by ring.
  rewrite sin_neg, cos_neg.
  set (x := cos (userLat * (PI / 180)) * sin (21.4225 * (PI / 180))
            - sin (userLat * (PI / 180)) * cos (21.4225 * (PI / 180))
              * cos (d * (PI / 180))).
  set (y := sin (d * (PI / 180)) * cos (21.4225 * (PI / 180))).
  assert (Hy : 0 < y).
  { unfold y. apply Rmult_lt_0_compat.
    - apply sin_gt_0; nra.
    - apply cos_gt_0; nra. }
  replace (- sin (d * (PI / 180)) * cos (21.4225 * (PI / 180)))
    with (- y) by (unfold y; ring).
  rewrite (Math_atan2_opp y x Hy).
  pose proof (Math_atan2_pos y x Hy) as Hb.
  set (beta := Math_atan2 y x) in *.
  assert (Hdeg : 0 < beta * (180 / PI) < 180).
  { split; [nra|].
    replace 180 with (PI * (180 / PI)) at 2 by (field; lra). nra. }
  rewrite (rem_360_nonneg (beta * (180 / PI))) by lra.
  split; [exact Hdeg|].
  replace (- beta * (180 / PI)) with (- (beta * (180 / PI))) by ring.
  rewrite rem_360_neg; lra.
Qed.

Lemma calculateQiblaDirection_mirror_witness :
  0 < calculateQiblaDirection 0 (39.8262 - 90) < 180
  /\ calculateQiblaDirection 0 (39.8262 + 90)
     = 360 - calculateQiblaDirection 0 (39.8262 - 90).
Proof. apply (calculateQiblaDirection_mirror 0 90). lra. Defined.

(** X24.  On the Kaaba's own meridian the bearing is due north, 0, from
    every latitude south of the Kaaba and due south, 180, from every
    latitude north of it. *)
Theorem calculateQiblaDirection_meridian (userLat : R) :
  -90 <= userLat <= 90 -> userLat <> 21.4225 ->
  calculateQiblaDirection userLat 39.8262
  = if Rlt_dec userLat 21.4225 then 0 else 180.
Proof.
  intros Hlat Hne. pose proof PI_RGT_0 as Hpi.
  assert (Hk : 0 < PI / 180) by (apply Rdiv_lt_0_compat; lra).
  unfold calculateQiblaDirection. cbn [latitude longitude KAABA_LOCATION].
  cbv zeta.
  replace (39.8262 * (PI / 180) - 39.8262 * (PI / 180)) with 0 by ring.
  rewrite sin_0, cos_0, Rmult_0_l, Rmult_1_r.
  replace (cos (userLat * (PI / 180)) * sin (21.4225 * (PI / 180))
           - sin (userLat * (PI / 180)) * cos (21.4225 * (PI / 180)))
    with (sin (21.4225 * (PI / 180) - userLat * (PI / 180)))
    by (rewrite sin_minus; ring).
  set (x := sin (21.4225 * (PI / 180) - userLat * (PI / 180))).
  assert (Hpi180 : PI = 180 * (PI / 180)) by (field; lra).
  unfold Math_atan2.
  destruct (Rlt_dec userLat 21.4225) as [H|H].
  - assert (Hx : 0 < x) by (unfold x; apply sin_gt_0; nra).
    destruct (Rlt_dec 0 x); [|lra].
    unfold Rdiv at 1. rewrite Rmult_0_l, atan_0, Rmult_0_l.
    rewrite (rem_eq _ _ 1); simpl; lra || lia.
  - assert (Hx : x < 0) by (unfold x; apply sin_lt_0_var; nra).
    destruct (Rlt_dec 0 x); [lra|].
    destruct (Rlt_dec x 0); [|lra].
    destruct (Rle_dec 0 0); [|lra].
    unfold Rdiv at 1. rewrite Rmult_0_l, atan_0, Rplus_0_l.
    replace (PI * (180 / PI)) with 180 by (field; lra).
    rewrite (rem_eq _ _ 1); simpl; lra || lia.
Qed.

Lemma calculateQiblaDirection_meridian_witness :
  calculateQiblaDirection 0 39.8262 = if Rlt_dec 0 21.4225 then 0 else 180.
Proof. apply (calculateQiblaDirection_meridian 0); lra. Defined.

End QiblaSide.
